(** * chess_board.py: board, squares, piece indexes and scenario builders

    A shallow embedding of [src/chess_board.py].  Python objects live in
    an explicit store ([World]); every function of the module becomes a
    state-and-exception computation over that store. *)

From stdpp Require Import base option list gmap strings pretty.
From Stdlib Require Import ZArith Lia Ascii.

Local Open Scope string_scope.
Local Open Scope list_scope.
Local Open Scope Z_scope.

(** ** Python exceptions and results *)

(** The exceptions the module can raise.  [BadRef] is not a Python
    exception: it marks a reference that designates no object of the
    store, which cannot happen in Python; it keeps the model total. *)
Inductive exn := IndexError | ValueError | KeyError | AttributeError | BadRef.

Inductive result (A : Type) :=
  | Ok (a : A)
  | Raise (e : exn).
Arguments Ok {A} a.
Arguments Raise {A} e.

#[global] Instance exn_eq_dec : EqDecision exn.
Proof. solve_decision. Defined.

#[global] Instance result_ret : MRet result := @Ok.
#[global] Instance result_bind : MBind result := fun A B f r =>
  match r with
  | Ok a => f a
  | Raise e => Raise e
  end.
#[global] Instance result_fmap : FMap result := fun A B f r =>
  match r with
  | Ok a => Ok (f a)
  | Raise e => Raise e
  end.

(** ** Python sequences *)

(** [seq[i]] for a Python [int] index: negative indexes count from the
    end, anything outside [-len, len) raises IndexError. *)
Definition py_getitem {A} (l : list A) (i : Z) : result A :=
  let n := Z.of_nat (length l) in
  let j := if i <? 0 then n + i else i in
  if (j <? 0) || (n <=? j) then Raise IndexError
  else match l !! Z.to_nat j with
       | Some x => Ok x
       | None => Raise IndexError
       end.

(** [list.index(x)]: position of the first element equal to [x],
    ValueError when there is none. *)
Fixpoint list_index {A} `{EqDecision A} (x : A) (l : list A) : option nat :=
  match l with
  | [] => None
  | y :: l' => if decide (y = x) then Some 0%nat
               else S <$> list_index x l'
  end.

(** The characters of a Python [str], each as a one-character [str]. *)
Fixpoint chars (s : string) : list string :=
  match s with
  | EmptyString => []
  | String c s' => String c EmptyString :: chars s'
  end.

(** The module globals FILE and RANK start as [str] objects and become
    [list] objects of [str] once a non-default board is built. *)
Inductive label_table :=
  | TStr (s : string)
  | TList (l : list string).

(** [table[i]] *)
Definition table_getitem (t : label_table) (i : Z) : result string :=
  match t with
  | TStr s => py_getitem (chars s) i
  | TList l => py_getitem l i
  end.

(** [table.index(x)]: substring search on a [str], element search on a
    [list]. *)
Definition table_index (t : label_table) (x : string) : result Z :=
  match t with
  | TStr s => match String.index 0 x s with
              | Some n => Ok (Z.of_nat n)
              | None => Raise ValueError
              end
  | TList l => match list_index x l with
               | Some n => Ok (Z.of_nat n)
               | None => Raise ValueError
               end
  end.

(** [str(n)] for a non-negative [int]. *)
Definition py_str (n : nat) : string := pretty n.

(** ** defineFILEandRANK *)

Definition alpha : string := "abcdefghijklmnopqrstuvwxyz".

(** [for x in xs: acc.append(f x)] where [f] may raise. *)
Fixpoint collect {A B} (f : A -> result B) (xs : list A) : result (list B) :=
  match xs with
  | [] => Ok []
  | x :: xs' => y ← f x; ys ← collect f xs'; Ok (y :: ys)
  end.

(** [range(n)] *)
Definition range (n : nat) : list nat := seq 0 n.

Definition defineFILEandRANK (files ranks : nat)
  : result (list string * list string) :=
  fileList ← collect (fun file => py_getitem (chars alpha) (Z.of_nat file))
                     (range files);
  let rankList := (fun rank => py_str rank) <$> reverse (range ranks) in
  Ok (fileList, rankList).

(** ** The coordinate mapper, over the current FILE and RANK *)

Definition algebraicToComputer (FILE RANK : label_table) (coordinate : string)
  : result (Z * Z) :=
  c0 ← py_getitem (chars coordinate) 0;
  file ← table_index FILE c0;
  c1 ← py_getitem (chars coordinate) 1;
  rank ← table_index RANK c1;
  Ok (file, rank).

Definition computerToAlgebraic (FILE RANK : label_table) (file rank : Z)
  : result string :=
  file' ← table_getitem FILE file;
  rank' ← table_getitem RANK rank;
  Ok (file' +:+ rank').

Definition getSquareColor (file rank : Z) : string :=
  if decide (rank `mod` 2 = file `mod` 2) then "light" else "dark".

(** The values FILE and RANK are bound to when the module is loaded. *)
Definition FILE0 : label_table := TStr "abcdefgh".
Definition RANK0 : label_table := TStr "87654321".

(** ** The object store *)

(** Object identities: a piece or a board is named by its position in
    the store; a square by its board and its coordinates (each board
    holds exactly one Square object per coordinate pair). *)
Definition pid := nat.
Definition bid := nat.
Definition sqref := (bid * nat * nat)%type.

(** Modelled from the spec: the classes of [chess_pieces] (Piece, King,
    Queen, Rook, Bishop, Knight, Pawn) are imported by the module but are
    not part of it.  The spec's Piece Handle exposes a type tag
    ([get_name]), a color ([get_color]) and a mutable back-reference slot
    ([square]); pieces are compared and hashed by object identity. *)
Record Piece := mkPiece {
  piece_name : string;
  piece_color : string;
  piece_square : option sqref
}.

Record Square := mkSquare {
  sq_file : nat;
  sq_rank : nat;
  sq_board : bid;
  sq_color : string;
  sq_piece : option pid;
  sq_name : string;
  sq_selected : bool
}.

(** [self.queens], [self.rooks], [self.knights] and [self.bishops] are the
    very dict objects stored in [self.piece_lists]; only [piece_lists] is
    kept, the four attributes are read through it. *)
Record Board := mkBoard {
  files : nat;
  ranks : nat;
  pieces : list pid;
  piece_lists : gmap string (gmap string (list pid));
  squares : list (list Square);
  white_king : option pid;
  black_king : option pid
}.

Record World := mkWorld {
  FILE : label_table;
  RANK : label_table;
  heap_pieces : list Piece;
  heap_boards : list Board;
  stdout : list string
}.

(** The store right after the module is loaded. *)
Definition world0 : World := mkWorld FILE0 RANK0 [] [] [].

(** Computations over the store that may raise. *)
Definition M (A : Type) : Type := World -> result (A * World).

#[global] Instance M_ret : MRet M := fun A a w => Ok (a, w).
#[global] Instance M_bind : MBind M := fun A B f m w =>
  match m w with
  | Ok (a, w') => f a w'
  | Raise e => Raise e
  end.

Definition raise {A} (e : exn) : M A := fun _ => Raise e.
Definition lift {A} (r : result A) : M A := fun w =>
  match r with
  | Ok a => Ok (a, w)
  | Raise e => Raise e
  end.
Definition get_world : M World := fun w => Ok (w, w).

Definition set_FILE_RANK (f r : label_table) : M unit := fun w =>
  Ok (tt, mkWorld f r (heap_pieces w) (heap_boards w) (stdout w)).
Definition set_heap_pieces (h : list Piece) : M unit := fun w =>
  Ok (tt, mkWorld (FILE w) (RANK w) h (heap_boards w) (stdout w)).
Definition set_heap_boards (h : list Board) : M unit := fun w =>
  Ok (tt, mkWorld (FILE w) (RANK w) (heap_pieces w) h (stdout w)).
(** [print(msg)] *)
Definition print (msg : string) : M unit := fun w =>
  Ok (tt, mkWorld (FILE w) (RANK w) (heap_pieces w) (heap_boards w)
                  (stdout w ++ [msg])).

Definition of_option {A} (o : option A) (e : exn) : result A :=
  match o with
  | Some a => Ok a
  | None => Raise e
  end.

Definition get_piece_obj (p : pid) : M Piece := fun w =>
  lift (of_option (heap_pieces w !! p) BadRef) w.
Definition put_piece_obj (p : pid) (v : Piece) : M unit := fun w =>
  set_heap_pieces (<[p := v]> (heap_pieces w)) w.
Definition get_board (b : bid) : M Board := fun w =>
  lift (of_option (heap_boards w !! b) BadRef) w.
Definition put_board (b : bid) (v : Board) : M unit := fun w =>
  set_heap_boards (<[b := v]> (heap_boards w)) w.

(** [for x in xs: body] *)
Fixpoint for_ {A} (xs : list A) (body : A -> M unit) : M unit :=
  match xs with
  | [] => mret tt
  | x :: xs' => body x;; for_ xs' body
  end.

(** ** Pieces *)

(** Modelled from the spec: [Cls(color)] for one of the piece classes
    makes a new piece of that type and color, on no square. *)
Definition new_piece (cls color : string) : M pid := fun w =>
  (set_heap_pieces (heap_pieces w ++ [mkPiece cls color None]);;
   mret (length (heap_pieces w))) w.
Definition King := new_piece "King".
Definition Queen := new_piece "Queen".
Definition Rook := new_piece "Rook".
Definition Bishop := new_piece "Bishop".
Definition Knight := new_piece "Knight".
Definition Pawn := new_piece "Pawn".

Definition get_name (h : list Piece) (p : pid) : result string :=
  piece_name <$> of_option (h !! p) BadRef.
Definition get_color (h : list Piece) (p : pid) : result string :=
  piece_color <$> of_option (h !! p) BadRef.

(** ** Square *)

Definition Square_init (F R : label_table) (file rank : nat) (board : bid)
  : result Square :=
  let color := getSquareColor (Z.of_nat file) (Z.of_nat rank) in
  name ← computerToAlgebraic F R (Z.of_nat file) (Z.of_nat rank);
  Ok (mkSquare file rank board color None name false).

Definition has_piece (sq : Square) : bool :=
  match sq_piece sq with
  | Some _ => true
  | None => false
  end.

Definition with_piece (o : option pid) (sq : Square) : Square :=
  mkSquare (sq_file sq) (sq_rank sq) (sq_board sq) (sq_color sq) o
           (sq_name sq) (sq_selected sq).
Definition with_square (o : option sqref) (p : Piece) : Piece :=
  mkPiece (piece_name p) (piece_color p) o.
Definition with_squares (g : list (list Square)) (b : Board) : Board :=
  mkBoard (files b) (ranks b) (pieces b) (piece_lists b) g
          (white_king b) (black_king b).

(** [grid[file, rank]], the grid being the (files, ranks) array of a
    board. *)
Definition grid_get (g : list (list Square)) (file rank : nat)
  : result Square :=
  row ← of_option (g !! file) IndexError;
  of_option (row !! rank) IndexError.
Definition grid_set (g : list (list Square)) (file rank : nat) (sq : Square)
  : list (list Square) :=
  match g !! file with
  | Some row => <[file := <[rank := sq]> row]> g
  | None => g
  end.

(** [board.squares[file, rank]]: the reference to that Square object. *)
Definition squares_getitem (board : bid) (file rank : nat) : M sqref :=
  b ← get_board board;
  lift (grid_get (squares b) file rank);;
  mret (board, file, rank).

Definition get_square (self : sqref) : M Square :=
  let '(board, file, rank) := self in
  b ← get_board board;
  lift (grid_get (squares b) file rank).
Definition put_square (self : sqref) (sq : Square) : M unit :=
  let '(board, file, rank) := self in
  b ← get_board board;
  put_board board (with_squares (grid_set (squares b) file rank sq) b).

(** [Square.set_piece]; the argument is [None] for Python's None. *)
Definition set_piece (self : sqref) (piece : option pid) : M unit :=
  sq ← get_square self;
  put_square self (with_piece piece sq);;
  match piece with
  | Some p =>
      po ← get_piece_obj p;
      put_piece_obj p (with_square (Some self) po)
  | None => raise AttributeError
  end.

Definition remove_piece (self : sqref) : M unit :=
  sq ← get_square self;
  match sq_piece sq with
  | Some p =>
      po ← get_piece_obj p;
      put_piece_obj p (with_square None po);;
      sq' ← get_square self;
      put_square self (with_piece None sq')
  | None => mret tt
  end.

(** ** Board *)

Definition empty_index : gmap string (list pid) :=
  {[ "white" := []; "black" := [] ]}.

Definition init_piece_lists : gmap string (gmap string (list pid)) :=
  {[ "Queen" := empty_index; "Rook" := empty_index;
     "Knight" := empty_index; "Bishop" := empty_index ]}.

(** [np.array(flat).reshape((files, ranks))] for a flat list of
    [files * ranks] elements. *)
Definition reshape {A} (files ranks : nat) (flat : list A) : list (list A) :=
  (fun file => take ranks (drop (file * ranks) flat)) <$> range files.

Definition Board_init (numFiles numRanks : nat) : M bid :=
  (if decide (numFiles ≠ 8%nat ∨ numRanks ≠ 8%nat) then
     fr ← lift (defineFILEandRANK numFiles numRanks);
     set_FILE_RANK (TList fr.1) (TList fr.2)
   else mret tt);;
  w ← get_world;
  let self := length (heap_boards w) in
  emptyBoard ← lift (collect
    (fun file => collect
       (fun rank => Square_init (FILE w) (RANK w) file rank self)
       (range numRanks))
    (range numFiles));
  set_heap_boards (heap_boards w ++
    [mkBoard numFiles numRanks [] init_piece_lists
             (reshape numFiles numRanks (concat emptyBoard)) None None]);;
  mret self.

Definition get_size (b : Board) : nat * nat := (files b, ranks b).

Definition with_pieces (l : list pid) (b : Board) : Board :=
  mkBoard (files b) (ranks b) l (piece_lists b) (squares b)
          (white_king b) (black_king b).
Definition with_piece_lists (pl : gmap string (gmap string (list pid)))
  (b : Board) : Board :=
  mkBoard (files b) (ranks b) (pieces b) pl (squares b)
          (white_king b) (black_king b).
Definition with_white_king (k : option pid) (b : Board) : Board :=
  mkBoard (files b) (ranks b) (pieces b) (piece_lists b) (squares b)
          k (black_king b).
Definition with_black_king (k : option pid) (b : Board) : Board :=
  mkBoard (files b) (ranks b) (pieces b) (piece_lists b) (squares b)
          (white_king b) k.

(** [list(set(l))]: the distinct members of [l].  The order in which
    Python yields them depends on the hashes of the objects and is not
    modelled: only the members, their distinctness and their number are
    meaningful. *)
Definition list_set (l : list pid) : list pid :=
  elements (list_to_set l : gset pid).

(** [l.remove(x)]: drops the first occurrence, ValueError if none. *)
Fixpoint list_remove (x : pid) (l : list pid) : result (list pid) :=
  match l with
  | [] => Raise ValueError
  | y :: l' => if decide (y = x) then Ok l'
               else (fun r => y :: r) <$> list_remove x l'
  end.

(** Read and write [self.piece_lists[name][color]]. *)
Definition index_get (pl : gmap string (gmap string (list pid)))
  (name color : string) : result (list pid) :=
  d ← of_option (pl !! name) KeyError;
  of_option (d !! color) KeyError.
Definition index_put (pl : gmap string (gmap string (list pid)))
  (name color : string) (l : list pid)
  : result (gmap string (gmap string (list pid))) :=
  d ← of_option (pl !! name) KeyError;
  Ok (<[name := <[color := l]> d]> pl).

(** [name in self.piece_lists.keys()] *)
Definition tracked (b : Board) (name : string) : bool :=
  bool_decide (is_Some (piece_lists b !! name)).

(** [for x in xs: body], threading the board. *)
Fixpoint for_board {A} (body : A -> Board -> result Board) (xs : list A)
  (b : Board) : result Board :=
  match xs with
  | [] => Ok b
  | x :: xs' => b' ← body x b; for_board body xs' b'
  end.

(** Body of the full-scan loop. *)
Definition scan_square (h : list Piece) (square : Square) (b : Board)
  : result Board :=
  match sq_piece square with
  | Some piece =>
      name ← get_name h piece;
      color ← get_color h piece;
      let b := with_pieces (pieces b ++ [piece]) b in
      if tracked b name then
        l ← index_get (piece_lists b) name color;
        pl ← index_put (piece_lists b) name color (l ++ [piece]);
        Ok (with_piece_lists pl b)
      else Ok b
  | None => Ok b
  end.

(** Body of the loop over [reversed(pieces_set)]. *)
Definition add_piece (h : list Piece) (piece : pid) (b : Board)
  : result Board :=
  name ← get_name h piece;
  color ← get_color h piece;
  let b := with_pieces (pieces b ++ [piece]) b in
  if tracked b name then
    l ← index_get (piece_lists b) name color;
    pl ← index_put (piece_lists b) name color (l ++ [piece]);
    l' ← index_get pl name color;
    pl' ← index_put pl name color (list_set l');
    Ok (with_piece_lists pl' b)
  else Ok b.

(** Body of the loop over [reversed(pieces_removed)]. *)
Definition del_piece (h : list Piece) (piece : pid) (b : Board)
  : result Board :=
  name ← get_name h piece;
  color ← get_color h piece;
  ps ← list_remove piece (pieces b);
  let b := with_pieces ps b in
  if tracked b name then
    l ← index_get (piece_lists b) name color;
    l1 ← list_remove piece l;
    pl ← index_put (piece_lists b) name color l1;
    l' ← index_get pl name color;
    pl' ← index_put pl name color (list_set l');
    Ok (with_piece_lists pl' b)
  else Ok b.

(** [Board.update_pieces] as a transformer of the Board object; [h] is
    the store of pieces, which the method only reads. *)
Definition update_pieces_board (h : list Piece)
  (pieces_set pieces_removed : list pid) (b : Board) : result Board :=
  b' ← (if decide (pieces b = []) then
          for_board (scan_square h) (concat (squares b)) b
        else
          b1 ← (if decide (pieces_set ≠ []) then
                  for_board (add_piece h) (reverse pieces_set) b
                else Ok b);
          (if decide (pieces_removed ≠ []) then
             for_board (del_piece h) (reverse pieces_removed) b1
           else Ok b1));
  Ok (with_pieces (list_set (pieces b')) b').

Definition update_pieces (self : bid) (pieces_set pieces_removed : list pid)
  : M unit :=
  w ← get_world;
  b ← get_board self;
  b' ← lift (update_pieces_board (heap_pieces w) pieces_set pieces_removed b);
  put_board self b'.

Definition get_pieces (b : Board) : list pid := pieces b.

(** ** Scenario builders *)

(** [str.lower()] on the ASCII letters; other bytes are left alone. *)
Definition lower_ascii (c : ascii) : ascii :=
  let n := nat_of_ascii c in
  if (65 <=? n)%nat && (n <=? 90)%nat then ascii_of_nat (n + 32) else c.
Fixpoint lower (s : string) : string :=
  match s with
  | EmptyString => EmptyString
  | String c s' => String (lower_ascii c) (lower s')
  end.
(** [s.startswith(p)] *)
Definition startswith (s p : string) : bool := String.prefix p s.

(** The statement [board.squares[file, rank].set_piece(Cls(color))]: the
    square is looked up first, then the piece is made, then placed. *)
Definition place (board : bid) (file rank : nat)
  (Cls : string -> M pid) (color : string) : M unit :=
  sq ← squares_getitem board file rank;
  p ← Cls color;
  set_piece sq (Some p).

(** [board.white_king = King('white')] followed by
    [board.squares[4, 7].set_piece(board.white_king)], and the same for
    the black king on [4, 0]. *)
Definition set_kings (board : bid) : M unit :=
  k ← King "white";
  b ← get_board board;
  put_board board (with_white_king (Some k) b);;
  sq ← squares_getitem board 4 7;
  b ← get_board board;
  set_piece sq (white_king b);;
  k ← King "black";
  b ← get_board board;
  put_board board (with_black_king (Some k) b);;
  sq ← squares_getitem board 4 0;
  b ← get_board board;
  set_piece sq (black_king b).

Definition makeStandardBoard : M bid :=
  board ← Board_init 8 8;
  for_ (range 8) (fun file =>
    place board file 6 Pawn "white";;
    place board file 1 Pawn "black");;
  for_ [0; 7]%nat (fun file =>
    place board file 7 Rook "white";;
    place board file 0 Rook "black");;
  for_ [1; 6]%nat (fun file =>
    place board file 7 Knight "white";;
    place board file 0 Knight "black");;
  for_ [2; 5]%nat (fun file =>
    place board file 7 Bishop "white";;
    place board file 0 Bishop "black");;
  place board 3 7 Queen "white";;
  place board 3 0 Queen "black";;
  set_kings board;;
  update_pieces board [] [];;
  mret board.

(** The selector test shared by the two endgame builders: the color and
    the back rank it picks, or [None] for the [else] branch. *)
Definition select_color (selector : string) : option (string * nat) :=
  if startswith (lower selector) "w" then Some ("white", 7%nat)
  else if startswith (lower selector) "b" then Some ("black", 0%nat)
  else None.

Definition makeTwoRooksEndgameBoard (rookColor : string) : M (option bid) :=
  board ← Board_init 8 8;
  match select_color rookColor with
  | None =>
      print "rookColor must be either 'black' or 'white'.";;
      mret None
  | Some (rookColor, rank) =>
      for_ [0; 7]%nat (fun file => place board file rank Rook rookColor);;
      set_kings board;;
      update_pieces board [] [];;
      mret (Some board)
  end.

Definition makeQueenEndgameBoard (queenColor : string) : M (option bid) :=
  board ← Board_init 8 8;
  match select_color queenColor with
  | None =>
      print "queenColor must be either 'black' or 'white'.";;
      mret None
  | Some (queenColor, rank) =>
      for_ [0; 7]%nat (fun file => place board file rank Queen queenColor);;
      set_kings board;;
      update_pieces board [] [];;
      mret (Some board)
  end.

(** ** Observations used by the properties *)

(** Pieces of a given type and color among a list of piece references. *)
Definition is_kind (h : list Piece) (name color : string) (p : pid) : bool :=
  match h !! p with
  | Some po => bool_decide (piece_name po = name ∧ piece_color po = color)
  | None => false
  end.
Definition count_kind (h : list Piece) (name color : string) (l : list pid)
  : nat :=
  length (filter (fun p => is_kind h name color p = true) l).

(** The pieces standing on the squares of a board, in scan order. *)
Definition occupants (b : Board) : list pid :=
  omap sq_piece (concat (squares b)).

(** The Square object a reference designates, if any. *)
Definition square_at (w : World) (self : sqref) : option Square :=
  let '(board, file, rank) := self in
  b ← heap_boards w !! board;
  row ← squares b !! file;
  row !! rank.

(** A reference that [update_pieces] can file: it designates a piece,
    and when the type of the piece is one of the tracked types, the dict
    of that type has an entry for the color of the piece. *)
Definition valid_piece (h : list Piece)
  (pl : gmap string (gmap string (list pid))) (p : pid) : Prop :=
  exists po, h !! p = Some po /\
    (is_Some (pl !! piece_name po) ->
     exists l, index_get pl (piece_name po) (piece_color po) = Ok l).

(** The tables give every square of an 8x8 board its standard name. *)
Definition standard_labels (F R : label_table) : Prop :=
  forall file rank : Z, 0 <= file < 8 -> 0 <= rank < 8 ->
    computerToAlgebraic F R file rank
    = computerToAlgebraic FILE0 RANK0 file rank.

(** The Square and Board objects [Board.__init__] builds when every name
    conversion succeeds. *)
Definition square_name (F R : label_table) (file rank : nat) : string :=
  match computerToAlgebraic F R (Z.of_nat file) (Z.of_nat rank) with
  | Ok s => s
  | Raise _ => ""
  end.
Definition fresh_square (F R : label_table) (self : bid) (file rank : nat)
  : Square :=
  mkSquare file rank self (getSquareColor (Z.of_nat file) (Z.of_nat rank))
           None (square_name F R file rank) false.
Definition fresh_board (F R : label_table) (self : bid)
  (numFiles numRanks : nat) : Board :=
  mkBoard numFiles numRanks [] init_piece_lists
    (reshape numFiles numRanks (concat
       ((fun file => (fun rank => fresh_square F R self file rank)
                       <$> range numRanks) <$> range numFiles)))
    None None.
(** Every coordinate pair of a [numFiles] x [numRanks] board has a name
    under the tables. *)
Definition convertible (F R : label_table) (numFiles numRanks : nat) : Prop :=
  forall file rank : nat, (file < numFiles)%nat -> (rank < numRanks)%nat ->
    exists s, computerToAlgebraic F R (Z.of_nat file) (Z.of_nat rank) = Ok s.

(** The world an action leaves, when it returns. *)
Definition exec {A} (m : M A) (w : World) : World :=
  match m w with
  | Ok (_, w') => w'
  | Raise _ => w
  end.

(** The sentence of the spec on later boards, as it is written: building
    a board of any other size than 8x8 leaves tables under which the
    squares of an 8x8 board no longer get their standard names. *)
Definition later_board_corrupts : Prop :=
  forall w numFiles numRanks board w',
    (numFiles <> 8%nat \/ numRanks <> 8%nat) ->
    Board_init numFiles numRanks w = Ok (board, w') ->
    ~ standard_labels (FILE w') (RANK w').

Local Close Scope Z_scope.

(** The Board object a reference designates (an empty 0x0 board when
    it designates none). *)
Definition board_at (w : World) (b : bid) : Board :=
  match heap_boards w !! b with
  | Some x => x
  | None => mkBoard 0 0 [] ∅ [] None None
  end.

(** Sample stores: after [makeStandardBoard()]; after a two-rooks board
    whose four pieces were all reported removed and a further queen was
    made; after [Board()] and [King('white')]. *)
Definition standard_world : World := exec makeStandardBoard world0.
Definition emptied_world : World :=
  exec (Queen "white")
    (exec (update_pieces 0 [] [0; 1; 2; 3]%nat)
       (exec (makeTwoRooksEndgameBoard "white") world0)).
Definition one_king_world : World :=
  exec (King "white") (exec (Board_init 8 8) world0).

(** The sentence of the spec on overlapping lists, as it is written: an
    incremental call in which a piece is in both lists fails. *)
Definition overlap_rejected : Prop :=
  forall w board b pieces_set pieces_removed p,
    heap_boards w !! board = Some b -> pieces b <> [] ->
    p ∈ pieces_set -> p ∈ pieces_removed ->
    exists e, update_pieces board pieces_set pieces_removed w = Raise e.

Definition rooks_message : string :=
  "rookColor must be either 'black' or 'white'.".

(** The sentence of the spec on the queen endgame, as it is written: one
    king per color and one queen per color. *)
Definition queen_endgame_one_queen_each : Prop :=
  forall queenColor,
    (startswith (lower queenColor) "w" = true \/
     startswith (lower queenColor) "b" = true) ->
    exists board w b,
      makeQueenEndgameBoard queenColor world0 = Ok (Some board, w) /\
      heap_boards w !! board = Some b /\
      count_kind (heap_pieces w) "King" "white" (pieces b) = 1%nat /\
      count_kind (heap_pieces w) "King" "black" (pieces b) = 1%nat /\
      count_kind (heap_pieces w) "Queen" "white" (pieces b) = 1%nat /\
      count_kind (heap_pieces w) "Queen" "black" (pieces b) = 1%nat.

Local Open Scope Z_scope.

(** The labels the spec gives a board of [ranks] ranks: [str(ranks)] for
    the top row down to ["1"] for the bottom row. *)
Definition spec_rank_labels (ranks : nat) : list string :=
  py_str <$> reverse (seq 1 ranks).

(** ** More of the Square interface *)

(** [Square.__eq__] against another Square; Board objects have no
    [__eq__] of their own and are compared by identity. *)
Definition Square_eq (self other : Square) : bool :=
  bool_decide ((sq_board self, sq_file self, sq_rank self)
               = (sq_board other, sq_file other, sq_rank other)).

Definition get_coords (self : Square) : nat * nat :=
  (sq_file self, sq_rank self).

Definition get_piece (self : Square) : option pid := sq_piece self.

(** [x.get_color()] for a reference [x] that may be None; on a piece it
    is the [get_color] of the piece classes. *)
Definition ref_get_color (h : list Piece) (x : option pid) : result string :=
  match x with
  | Some p => get_color h p
  | None => Raise AttributeError
  end.

Definition has_friendly_piece (h : list Piece) (self : Square)
  (piece : option pid) : result bool :=
  if has_piece self then
    c ← ref_get_color h piece;
    c' ← ref_get_color h (get_piece self);
    if decide (c = c') then Ok true else Ok false
  else Ok false.

Definition has_enemy_piece (h : list Piece) (self : Square)
  (piece : option pid) : result bool :=
  if has_piece self then
    c ← ref_get_color h piece;
    c' ← ref_get_color h (get_piece self);
    if decide (c ≠ c') then Ok true else Ok false
  else Ok false.

(** ** More observations *)

(** The store after the Square object [self] has been replaced by
    [sq], as the assignments to [self.piece] do. *)
Definition store_square (w : World) (self : sqref) (sq : Square) : World :=
  let '(board, file, rank) := self in
  mkWorld (FILE w) (RANK w) (heap_pieces w)
    (<[board := with_squares
                  (grid_set (squares (board_at w board)) file rank sq)
                  (board_at w board)]> (heap_boards w))
    (stdout w).

(** The store after the Piece object [p] has been replaced by [po], as
    the assignments to [piece.square] do. *)
Definition store_piece (w : World) (p : pid) (po : Piece) : World :=
  mkWorld (FILE w) (RANK w) (<[p := po]> (heap_pieces w)) (heap_boards w)
    (stdout w).

(** What [update_pieces] leaves alone on a Board object. *)
Definition same_frame (b b' : Board) : Prop :=
  squares b' = squares b /\ white_king b' = white_king b /\
  black_king b' = black_king b /\ get_size b' = get_size b.

(** Every index that exists is duplicate-free. *)
Definition indexes_nodup (pl : gmap string (gmap string (list pid))) : Prop :=
  forall name color l, index_get pl name color = Ok l -> NoDup l.

(** The message of the queen endgame builder. *)
Definition queens_message : string :=
  "queenColor must be either 'black' or 'white'.".

(** ** Stores reached from a given store *)

(** The store [w] with one more board, [B], and the further pieces
    [ps]. *)
Definition extend (w : World) (B : Board) (ps : list Piece) : World :=
  mkWorld (FILE w) (RANK w) (heap_pieces w ++ ps) (heap_boards w ++ [B])
          (stdout w).

(** A piece among the further pieces [ps] that [update_pieces] can
    file under the indexes [pl]. *)
Definition valid_new (ps : list Piece)
  (pl : gmap string (gmap string (list pid))) (k : nat) : bool :=
  match ps !! k with
  | Some po =>
      match pl !! piece_name po with
      | Some d => bool_decide (is_Some (d !! piece_color po))
      | None => true
      end
  | None => false
  end.



(** * Properties *)

(** ** Coordinate mapper *)

Example computerToAlgebraic_a8 : computerToAlgebraic FILE0 RANK0 0 0 = Ok "a8".
Proof. reflexivity. Qed.
Example computerToAlgebraic_h1 : computerToAlgebraic FILE0 RANK0 7 7 = Ok "h1".
Proof. reflexivity. Qed.
Example computerToAlgebraic_negative :
  computerToAlgebraic FILE0 RANK0 (-1) 0 = Ok "h8".
Proof. reflexivity. Qed.
Example algebraicToComputer_a8 : algebraicToComputer FILE0 RANK0 "a8" = Ok (0, 0).
Proof. reflexivity. Qed.

(** C1. On the default 8x8 tables, for every file and rank in [0, 8),
    converting the pair to algebraic notation and converting the result
    back gives the pair again. *)
Theorem algebraic_roundtrip_default (file rank : Z) :
  0 <= file < 8 -> 0 <= rank < 8 ->
  (s ← computerToAlgebraic FILE0 RANK0 file rank;
   algebraicToComputer FILE0 RANK0 s) = Ok (file, rank).
Proof.
  intros Hf Hr.
  assert (file = 0 ∨ file = 1 ∨ file = 2 ∨ file = 3 ∨
          file = 4 ∨ file = 5 ∨ file = 6 ∨ file = 7) as Hfc by lia.
  assert (rank = 0 ∨ rank = 1 ∨ rank = 2 ∨ rank = 3 ∨
          rank = 4 ∨ rank = 5 ∨ rank = 6 ∨ rank = 7) as Hrc by lia.
  destruct_or!; subst; reflexivity.
Qed.

Lemma algebraic_roundtrip_default_witness :
  (s ← computerToAlgebraic FILE0 RANK0 4 6;
   algebraicToComputer FILE0 RANK0 s) = Ok (4, 6).
Proof. apply (algebraic_roundtrip_default 4 6); lia. Defined.

(** ** defineFILEandRANK *)

Lemma collect_alpha (files : nat) :
  (files <= 26)%nat ->
  collect (fun file => py_getitem (chars alpha) (Z.of_nat file)) (range files)
  = Ok (take files (chars alpha)).
Proof.
  intros H.
  do 27 (destruct files as [|files]; [vm_compute; reflexivity|]). lia.
Qed.

Lemma defineFILEandRANK_ok (files ranks : nat) :
  (files <= 26)%nat ->
  defineFILEandRANK files ranks
  = Ok (take files (chars alpha), py_str <$> reverse (range ranks)).
Proof.
  intros H. unfold defineFILEandRANK.
  rewrite collect_alpha by done. reflexivity.
Qed.

Lemma defineFILEandRANK_too_wide (files ranks : nat) :
  (26 < files)%nat -> defineFILEandRANK files ranks = Raise IndexError.
Proof.
  intros H. unfold defineFILEandRANK.
  replace files with (27 + (files - 27))%nat by lia.
  generalize (files - 27)%nat as k. intros k.
  unfold range. rewrite seq_app.
  assert (forall (xs ys : list nat) f,
    collect (B:=string) f xs = Raise IndexError ->
    collect f (xs ++ ys) = Raise IndexError) as Happ.
  { induction xs as [|x xs IH]; intros ys f; simpl; [discriminate|].
    destruct (f x) as [y|e]; simpl; [|done].
    destruct (collect f xs) as [zs|e] eqn:E; simpl; [discriminate|].
    intros [= ->]. rewrite (IH ys f E). reflexivity. }
  rewrite Happ; [reflexivity | vm_compute; reflexivity].
Qed.

Lemma reverse_range_S (n : nat) :
  reverse (range (S n)) = n :: reverse (range n).
Proof. unfold range. rewrite seq_S, reverse_snoc. reflexivity. Qed.

Lemma last_reverse_range (n : nat) :
  (0 < n)%nat -> last (reverse (range n)) = Some 0%nat.
Proof.
  intros H. destruct n as [|n]; [lia|].
  unfold range. simpl. rewrite reverse_cons, last_snoc. reflexivity.
Qed.

(** C7. For up to 26 files the file labels are the first [files]
    lowercase letters, but the rank labels count down from [ranks - 1]
    to 0, not from [ranks] to 1: they differ from the spec's labels for
    every positive number of ranks. *)
Theorem defineFILEandRANK_labels (files ranks : nat) :
  (files <= 26)%nat -> (0 < ranks)%nat ->
  exists fileList rankList,
    defineFILEandRANK files ranks = Ok (fileList, rankList) /\
    fileList = take files (chars alpha) /\
    head rankList = Some (py_str (ranks - 1)) /\
    last rankList = Some "0" /\
    rankList <> spec_rank_labels ranks.
Proof.
  intros Hf Hr. eexists _, _. split; [apply defineFILEandRANK_ok, Hf|].
  split; [reflexivity|]. destruct ranks as [|n]; [lia|].
  rewrite reverse_range_S. repeat split.
  - simpl. by rewrite Nat.sub_0_r.
  - rewrite <- reverse_range_S, fmap_last, last_reverse_range by lia.
    reflexivity.
  - unfold spec_rank_labels. rewrite seq_S, reverse_snoc. simpl.
    intros [= Heq _]. apply (inj pretty) in Heq. lia.
Qed.

Lemma defineFILEandRANK_labels_witness :
  exists fileList rankList,
    defineFILEandRANK 3 3 = Ok (fileList, rankList) /\
    fileList = take 3 (chars alpha) /\
    head rankList = Some (py_str (3 - 1)) /\
    last rankList = Some "0" /\
    rankList <> spec_rank_labels 3.
Proof. apply (defineFILEandRANK_labels 3 3); lia. Defined.

Example defineFILEandRANK_3_3 :
  defineFILEandRANK 3 3 = Ok (["a"; "b"; "c"], ["2"; "1"; "0"]).
Proof. vm_compute. reflexivity. Qed.
Example spec_rank_labels_3 : spec_rank_labels 3 = ["3"; "2"; "1"].
Proof. vm_compute. reflexivity. Qed.

(** ** Squares *)

Ltac run := unfold mbind, mret, M_bind, M_ret, result_bind, result_ret,
  get_board, put_board, get_piece_obj, put_piece_obj, set_heap_pieces,
  set_heap_boards, get_world, lift, raise in *; simpl in *.

Lemma grid_get_lookup g file rank row sq :
  g !! file = Some row -> row !! rank = Some sq -> grid_get g file rank = Ok sq.
Proof. intros Hg Hr. unfold grid_get. rewrite Hg. simpl. by rewrite Hr. Qed.

Lemma square_at_inv w board file rank sq :
  square_at w (board, file, rank) = Some sq ->
  exists b row, heap_boards w !! board = Some b /\
                squares b !! file = Some row /\ row !! rank = Some sq.
Proof.
  unfold square_at. intros H.
  destruct (heap_boards w !! board) as [b|] eqn:Hb; simpl in H; [|done].
  destruct (squares b !! file) as [row|] eqn:Hrow; simpl in H; [|done].
  eauto.
Qed.

Lemma get_square_ok w self sq :
  square_at w self = Some sq -> get_square self w = Ok (sq, w).
Proof.
  destruct self as [[board file] rank]. intros H.
  apply square_at_inv in H as (b & row & Hb & Hrow & Hsq).
  unfold get_square. run. rewrite Hb. simpl.
  by rewrite (grid_get_lookup _ _ _ _ _ Hrow Hsq).
Qed.

Lemma put_square_ok w self sq sq' :
  square_at w self = Some sq ->
  exists w', put_square self sq' w = Ok (tt, w') /\
    square_at w' self = Some sq' /\
    heap_pieces w' = heap_pieces w /\
    FILE w' = FILE w /\ RANK w' = RANK w /\ stdout w' = stdout w.
Proof.
  destruct self as [[board file] rank]. intros H.
  apply square_at_inv in H as (b & row & Hb & Hrow & Hsq).
  unfold put_square. run. rewrite Hb. simpl.
  eexists. split; [reflexivity|]. simpl. split; [|done].
  rewrite list_lookup_insert_eq by (by eapply lookup_lt_Some). simpl.
  unfold grid_set. rewrite Hrow.
  rewrite list_lookup_insert_eq by (by eapply lookup_lt_Some). simpl.
  rewrite list_lookup_insert_eq by (by eapply lookup_lt_Some). done.
Qed.

Lemma square_at_heap_pieces w h self :
  square_at (mkWorld (FILE w) (RANK w) h (heap_boards w) (stdout w)) self
  = square_at w self.
Proof. by destruct self as [[? ?] ?]. Qed.

Lemma bind_ok {A B} (m : M A) (k : A -> M B) w a w' :
  m w = Ok (a, w') -> (m ≫= k) w = k a w'.
Proof. intros H. unfold mbind, M_bind. by rewrite H. Qed.

(** C3. On any square of the store: after [set_piece] with a piece, the
    back-reference of the piece is that square (and the square holds the
    piece); after [remove_piece] on an occupied square, the square holds
    nothing and the back-reference of the removed piece is empty;
    [remove_piece] on an empty square changes nothing. *)
Theorem set_remove_piece_links (w : World) (self : sqref) (sq : Square) :
  square_at w self = Some sq ->
  (forall p po, heap_pieces w !! p = Some po ->
     exists w', set_piece self (Some p) w = Ok (tt, w') /\
       piece_square <$> heap_pieces w' !! p = Some (Some self) /\
       sq_piece <$> square_at w' self = Some (Some p)) /\
  (forall p po, sq_piece sq = Some p -> heap_pieces w !! p = Some po ->
     exists w', remove_piece self w = Ok (tt, w') /\
       sq_piece <$> square_at w' self = Some None /\
       piece_square <$> heap_pieces w' !! p = Some None) /\
  (sq_piece sq = None -> remove_piece self w = Ok (tt, w)).
Proof.
  intros Hsq. repeat split.
  - intros p po Hp.
    destruct (put_square_ok w self sq (with_piece (Some p) sq) Hsq)
      as (w1 & Hput & Hsq1 & Hh1 & _).
    unfold set_piece.
    rewrite (bind_ok _ _ _ _ _ (get_square_ok _ _ _ Hsq)).
    rewrite (bind_ok _ _ _ _ _ Hput).
    run. rewrite Hh1, Hp. simpl. eexists. split; [reflexivity|]. simpl.
    rewrite Hh1.
    rewrite list_lookup_insert_eq by (by eapply lookup_lt_Some).
    split; [done|]. rewrite square_at_heap_pieces, Hsq1. done.
  - intros p po Hocc Hp.
    unfold remove_piece.
    rewrite (bind_ok _ _ _ _ _ (get_square_ok _ _ _ Hsq)), Hocc.
    run. rewrite Hp. simpl.
    set (w1 := mkWorld _ _ _ _ _).
    assert (square_at w1 self = Some sq) as Hsq1
      by (unfold w1; by rewrite square_at_heap_pieces).
    rewrite (get_square_ok _ _ _ Hsq1).
    destruct (put_square_ok w1 self sq (with_piece None sq) Hsq1)
      as (w2 & Hput & Hsq2 & Hh2 & _).
    rewrite Hput. eexists. split; [reflexivity|]. rewrite Hsq2, Hh2.
    split; [done|]. unfold w1. simpl.
    rewrite list_lookup_insert_eq by (by eapply lookup_lt_Some). done.
  - intros Hnone. unfold remove_piece.
    rewrite (bind_ok _ _ _ _ _ (get_square_ok _ _ _ Hsq)), Hnone.
    reflexivity.
Qed.

(** ** update_pieces *)

Lemma elem_of_list_set (q : pid) (l : list pid) : q ∈ list_set l <-> q ∈ l.
Proof. unfold list_set. rewrite elem_of_elements, elem_of_list_to_set. done. Qed.

Lemma NoDup_list_set (l : list pid) : NoDup (list_set l).
Proof. unfold list_set. apply NoDup_elements. Qed.

Lemma length_list_set (l : list pid) :
  NoDup l -> length (list_set l) = length l.
Proof.
  intros H. unfold list_set.
  change (size (list_to_set (C:=gset pid) l) = length l).
  by apply size_list_to_set.
Qed.

Lemma list_set_nil_inv (l : list pid) : list_set l = [] -> l = [].
Proof.
  intros H. destruct l as [|x l]; [done|].
  assert (x ∈ list_set (x :: l)) as Hx by (apply elem_of_list_set; left).
  rewrite H in Hx. by apply elem_of_nil in Hx.
Qed.

Lemma list_remove_elem (p : pid) (l : list pid) :
  p ∈ l -> exists l', list_remove p l = Ok l' /\ l ≡ₚ p :: l'.
Proof.
  induction l as [|y l IH]; intros Hin; [by apply elem_of_nil in Hin|].
  simpl. destruct (decide (y = p)) as [->|Hne]; [eauto|].
  apply elem_of_cons in Hin as [->|Hin]; [done|].
  destruct (IH Hin) as (l' & -> & Hperm). eexists. split; [reflexivity|].
  rewrite Hperm. apply Permutation_swap.
Qed.


Lemma index_get_inv pl name color l :
  index_get pl name color = Ok l ->
  exists d, pl !! name = Some d /\ d !! color = Some l.
Proof.
  unfold index_get. destruct (pl !! name) as [d|]; simpl; [|done].
  destruct (d !! color) as [l'|] eqn:E; simpl; [|done]. intros [= ->]. eauto.
Qed.

Lemma index_put_get pl name color l l' :
  index_get pl name color = Ok l ->
  exists pl', index_put pl name color l' = Ok pl' /\
              index_get pl' name color = Ok l'.
Proof.
  intros (d & Hd & _)%index_get_inv. unfold index_put, index_get.
  rewrite Hd. simpl. eexists. split; [reflexivity|].
  rewrite lookup_insert_eq. simpl. by rewrite lookup_insert_eq.
Qed.

Lemma get_name_ok h p po : h !! p = Some po -> get_name h p = Ok (piece_name po).
Proof. intros H. unfold get_name. by rewrite H. Qed.
Lemma get_color_ok h p po : h !! p = Some po -> get_color h p = Ok (piece_color po).
Proof. intros H. unfold get_color. by rewrite H. Qed.



Lemma index_put_get_ne pl name color l pl' name' color' :
  index_put pl name color l = Ok pl' ->
  (name', color') <> (name, color) ->
  index_get pl' name' color' = index_get pl name' color'.
Proof.
  unfold index_put, index_get. destruct (pl !! name) as [d|] eqn:Hd; [|done].
  simpl. intros [= <-] Hne.
  destruct (decide (name' = name)) as [->|Hn].
  - rewrite lookup_insert_eq, Hd. simpl.
    rewrite lookup_insert_ne by congruence. done.
  - by rewrite lookup_insert_ne.
Qed.

Lemma index_put_tracked pl name color l pl' name' :
  index_put pl name color l = Ok pl' ->
  is_Some (pl' !! name') <-> is_Some (pl !! name').
Proof.
  unfold index_put. destruct (pl !! name) as [d|] eqn:Hd; [|done].
  simpl. intros [= <-].
  destruct (decide (name' = name)) as [->|Hn].
  - rewrite lookup_insert_eq, Hd. split; eauto.
  - by rewrite lookup_insert_ne.
Qed.

Lemma tracked_spec b name : tracked b name = true <-> is_Some (piece_lists b !! name).
Proof. unfold tracked. apply bool_decide_eq_true. Qed.

(** C6, as amended.  In incremental mode a piece listed both as added
    and as removed is not rejected: it is added, then removed, the call
    returns normally, the flat list keeps the members it had, and for a
    tracked type the piece is no longer in its type/color index. *)
Theorem overlap_accepted (h : list Piece) (b : Board) (p : pid) (po : Piece) :
  pieces b <> [] ->
  h !! p = Some po ->
  (tracked b (piece_name po) = true ->
     exists l, index_get (piece_lists b) (piece_name po) (piece_color po)
               = Ok l) ->
  exists b', update_pieces_board h [p] [p] b = Ok b' /\
    (forall q, q ∈ pieces b' <-> q ∈ pieces b) /\
    (tracked b (piece_name po) = true ->
       exists l', index_get (piece_lists b') (piece_name po) (piece_color po)
                  = Ok l' /\ p ∉ l').
Proof.
  intros Hne Hp Hidx.
  assert (exists b1, add_piece h p b = Ok b1 /\ pieces b1 = pieces b ++ [p] /\
            (forall n, tracked b1 n = tracked b n) /\
            (tracked b (piece_name po) = true ->
             exists l1, index_get (piece_lists b1) (piece_name po)
                          (piece_color po) = Ok l1 /\ p ∈ l1 /\ NoDup l1))
    as (b1 & Hadd & Hps1 & Htr1 & Hidx1).
  { unfold add_piece.
    rewrite (get_name_ok _ _ _ Hp), (get_color_ok _ _ _ Hp). simpl.
    change (tracked (with_pieces (pieces b ++ [p]) b) (piece_name po))
      with (tracked b (piece_name po)).
    destruct (tracked b (piece_name po)) eqn:Htr.
    - destruct (Hidx eq_refl) as (l & Hget). rewrite Hget. simpl.
      destruct (index_put_get _ _ _ _ (l ++ [p]) Hget) as (pl & Hput & Hget1).
      rewrite Hput. simpl. rewrite Hget1. simpl.
      destruct (index_put_get _ _ _ _ (list_set (l ++ [p])) Hget1)
        as (pl' & Hput' & Hget').
      rewrite Hput'. simpl. eexists. split; [reflexivity|]. split; [done|].
      split.
      { intros n. unfold tracked. simpl. apply bool_decide_ext.
        rewrite (index_put_tracked _ _ _ _ _ _ Hput').
        apply (index_put_tracked _ _ _ _ _ _ Hput). }
      intros _. exists (list_set (l ++ [p])). split; [done|].
      split; [|apply NoDup_list_set].
      apply elem_of_list_set, elem_of_app. right. left.
    - eexists. split; [reflexivity|]. split; [done|]. split; done. }
  assert (p ∈ pieces b1) as Hin1.
  { rewrite Hps1. apply elem_of_app. right. left. }
  destruct (list_remove_elem p (pieces b1) Hin1) as (ps & Hrm & Hperm).
  assert (pieces b ≡ₚ ps) as Hsame.
  { apply (Permutation_cons_inv (a:=p)). rewrite <- Hperm, Hps1.
    apply Permutation_cons_append. }
  assert (exists b2, del_piece h p b1 = Ok b2 /\ pieces b2 = ps /\
            (tracked b (piece_name po) = true ->
             exists l', index_get (piece_lists b2) (piece_name po)
                          (piece_color po) = Ok l' /\ p ∉ l'))
    as (b2 & Hdel & Hps2 & Hidx2).
  { unfold del_piece.
    rewrite (get_name_ok _ _ _ Hp), (get_color_ok _ _ _ Hp). simpl.
    rewrite Hrm. simpl.
    change (tracked (with_pieces ps b1) (piece_name po))
      with (tracked b1 (piece_name po)).
    rewrite Htr1.
    destruct (tracked b (piece_name po)) eqn:Htr.
    - destruct (Hidx1 eq_refl) as (l & Hget & Hl & Hndl).
      rewrite Hget. simpl.
      destruct (list_remove_elem p l Hl) as (l1 & Hrm1 & Hperm1).
      rewrite Hrm1. simpl.
      destruct (index_put_get _ _ _ _ l1 Hget) as (pl & Hput & Hget1).
      rewrite Hput. simpl. rewrite Hget1. simpl.
      destruct (index_put_get _ _ _ _ (list_set l1) Hget1)
        as (pl' & Hput' & Hget').
      rewrite Hput'. simpl. eexists. split; [reflexivity|]. split; [done|].
      intros _. exists (list_set l1). split; [done|].
      rewrite elem_of_list_set.
      assert (NoDup (p :: l1)) as Hnd1 by (by rewrite <- Hperm1).
      by apply NoDup_cons in Hnd1 as [? _].
    - eexists. split; [reflexivity|]. split; done. }
  exists (with_pieces (list_set (pieces b2)) b2). split.
  { unfold update_pieces_board.
    destruct (decide (pieces b = [])); [done|].
    destruct (decide ([p] <> [])) as [_|Hn]; [|by destruct Hn].
    simpl. rewrite Hadd. simpl. by rewrite Hdel. }
  simpl. split; [|exact Hidx2].
  intros q. rewrite elem_of_list_set, Hps2. by rewrite Hsame.
Qed.

Lemma index_put_valid h pl name color l0 l pl' q :
  index_get pl name color = Ok l0 ->
  index_put pl name color l = Ok pl' ->
  valid_piece h pl q -> valid_piece h pl' q.
Proof.
  intros Hget Hput (po & Hq & Hk). exists po. split; [done|].
  intros Htr. apply (index_put_tracked _ _ _ _ _ _ Hput) in Htr.
  destruct (Hk Htr) as (lq & Hlq).
  destruct (decide ((piece_name po, piece_color po) = (name, color)))
    as [[= -> ->]|Hne].
  - destruct (index_put_get _ _ _ _ l Hget) as (pl2 & Hput2 & Hget2).
    rewrite Hput in Hput2. injection Hput2 as <-. eauto.
  - rewrite (index_put_get_ne _ _ _ _ _ _ _ Hput Hne). eauto.
Qed.

Lemma scan_square_ok h sq b p :
  sq_piece sq = Some p -> valid_piece h (piece_lists b) p ->
  exists b', scan_square h sq b = Ok b' /\
    pieces b' = pieces b ++ [p] /\
    (forall q, valid_piece h (piece_lists b) q ->
               valid_piece h (piece_lists b') q).
Proof.
  intros Hsq (po & Hp & Hk). unfold scan_square. rewrite Hsq.
  rewrite (get_name_ok _ _ _ Hp), (get_color_ok _ _ _ Hp). simpl.
  change (tracked (with_pieces (pieces b ++ [p]) b) (piece_name po))
    with (tracked b (piece_name po)).
  destruct (tracked b (piece_name po)) eqn:Htr.
  - apply tracked_spec in Htr. destruct (Hk Htr) as (l & Hget).
    rewrite Hget. simpl.
    destruct (index_put_get _ _ _ _ (l ++ [p]) Hget) as (pl & Hput & Hget1).
    rewrite Hput. simpl. eexists. split; [reflexivity|]. split; [done|].
    intros q Hq. simpl. exact (index_put_valid h _ _ _ _ _ _ q Hget Hput Hq).
  - eexists. split; [reflexivity|]. split; done.
Qed.

Lemma scan_squares_ok h sqs : forall b,
  Forall (valid_piece h (piece_lists b)) (omap sq_piece sqs) ->
  exists b', for_board (scan_square h) sqs b = Ok b' /\
    pieces b' = pieces b ++ omap sq_piece sqs.
Proof.
  induction sqs as [|sq sqs IH]; intros b Hall; simpl.
  - exists b. by rewrite app_nil_r.
  - simpl in Hall. destruct (sq_piece sq) as [p|] eqn:Hsq.
    + apply Forall_cons in Hall as [Hp Hall].
      destruct (scan_square_ok h sq b p Hsq Hp) as (b1 & Hscan & Hps & Hval).
      rewrite Hscan. simpl.
      destruct (IH b1) as (b' & Hfold & Hps').
      { eapply Forall_impl; [exact Hall|]. exact Hval. }
      exists b'. split; [done|]. rewrite Hps', Hps, <- app_assoc. done.
    + assert (scan_square h sq b = Ok b) as ->
        by (unfold scan_square; by rewrite Hsq).
      simpl. by apply IH.
Qed.

Lemma add_piece_ok h b p :
  valid_piece h (piece_lists b) p ->
  exists b', add_piece h p b = Ok b' /\ pieces b' = pieces b ++ [p].
Proof.
  intros (po & Hp & Hk). unfold add_piece.
  rewrite (get_name_ok _ _ _ Hp), (get_color_ok _ _ _ Hp). simpl.
  change (tracked (with_pieces (pieces b ++ [p]) b) (piece_name po))
    with (tracked b (piece_name po)).
  destruct (tracked b (piece_name po)) eqn:Htr.
  - apply tracked_spec in Htr. destruct (Hk Htr) as (l & Hget).
    rewrite Hget. simpl.
    destruct (index_put_get _ _ _ _ (l ++ [p]) Hget) as (pl & Hput & Hget1).
    rewrite Hput. simpl. rewrite Hget1. simpl.
    destruct (index_put_get _ _ _ _ (list_set (l ++ [p])) Hget1)
      as (pl' & Hput' & Hget').
    rewrite Hput'. simpl. eauto.
  - eauto.
Qed.

(** C10. When the flat list is empty at call time, whatever the call
    number, both arguments are ignored and the flat list is rebuilt from
    the occupied squares; when it is not empty the call is incremental
    and an added piece enters the flat list. *)
Theorem update_pieces_mode (h : list Piece) (b : Board)
  (pieces_set pieces_removed : list pid) :
  (pieces b = [] ->
     update_pieces_board h pieces_set pieces_removed b
     = update_pieces_board h [] [] b /\
     (Forall (valid_piece h (piece_lists b)) (occupants b) ->
      exists b', update_pieces_board h pieces_set pieces_removed b = Ok b' /\
        pieces b' = list_set (occupants b) /\
        (forall q, q ∈ pieces b' <-> q ∈ occupants b))) /\
  (pieces b <> [] ->
     forall q, valid_piece h (piece_lists b) q ->
       exists b', update_pieces_board h [q] [] b = Ok b' /\ q ∈ pieces b').
Proof.
  split.
  - intros Hemp. split.
    { unfold update_pieces_board. by destruct (decide (pieces b = [])). }
    intros Hall. unfold update_pieces_board.
    destruct (decide (pieces b = [])); [|done].
    destruct (scan_squares_ok h (concat (squares b)) b Hall) as (b' & -> & Hps).
    simpl. eexists. split; [reflexivity|]. simpl.
    rewrite Hps, Hemp. simpl. split; [done|].
    intros q. by rewrite elem_of_list_set.
  - intros Hne q Hq. destruct (add_piece_ok h b q Hq) as (b1 & Hadd & Hps).
    unfold update_pieces_board.
    destruct (decide (pieces b = [])); [done|].
    destruct (decide ([q] <> [])) as [_|Hn]; [|by destruct Hn].
    simpl. rewrite Hadd. simpl.
    destruct (decide (@nil pid <> [])); [done|].
    eexists. split; [reflexivity|]. simpl.
    rewrite elem_of_list_set, Hps, elem_of_app. right. left.
Qed.

(** ** Board construction and the shared tables *)

Lemma py_getitem_nat {A} (l : list A) (i : nat) (x : A) :
  l !! i = Some x -> py_getitem l (Z.of_nat i) = Ok x.
Proof.
  intros H. pose proof (lookup_lt_Some _ _ _ H) as Hlt.
  unfold py_getitem.
  destruct (Z.ltb_spec (Z.of_nat i) 0) as [?|_]; [lia|].
  destruct (Z.ltb_spec (Z.of_nat i) 0) as [?|_]; [lia|].
  destruct (Z.leb_spec (Z.of_nat (length l)) (Z.of_nat i)) as [?|_]; [lia|].
  simpl. by rewrite Nat2Z.id, H.
Qed.

Lemma py_getitem_nat_ge {A} (l : list A) (i : nat) :
  (length l <= i)%nat -> py_getitem l (Z.of_nat i) = Raise IndexError.
Proof.
  intros H. unfold py_getitem.
  destruct (Z.ltb_spec (Z.of_nat i) 0) as [?|_]; [lia|].
  destruct (Z.ltb_spec (Z.of_nat i) 0) as [?|_]; [lia|].
  destruct (Z.leb_spec (Z.of_nat (length l)) (Z.of_nat i)) as [_|?]; [|lia].
  done.
Qed.

Lemma collect_ok {A B} (f : A -> result B) (g : A -> B) (xs : list A) :
  (forall x, x ∈ xs -> f x = Ok (g x)) -> collect f xs = Ok (g <$> xs).
Proof.
  induction xs as [|x xs IH]; intros H; [done|]. simpl.
  rewrite (H x) by left. simpl.
  rewrite IH by (intros y Hy; apply H; by right). done.
Qed.

Lemma elem_of_range (i n : nat) : i ∈ range n <-> (i < n)%nat.
Proof. unfold range. rewrite elem_of_seq. lia. Qed.

Lemma length_range n : length (range n) = n.
Proof. unfold range. apply length_seq. Qed.

Lemma squares_collect F R self nf nr :
  convertible F R nf nr ->
  collect (fun file => collect
             (fun rank => Square_init F R file rank self) (range nr))
          (range nf)
  = Ok ((fun file => (fun rank => fresh_square F R self file rank)
                       <$> range nr) <$> range nf).
Proof.
  intros Hc. apply collect_ok. intros f Hf%elem_of_range.
  apply collect_ok. intros r Hr%elem_of_range.
  destruct (Hc f r Hf Hr) as (s & Hs).
  unfold Square_init, fresh_square, square_name. rewrite Hs. done.
Qed.

Lemma Board_init_default w :
  convertible (FILE w) (RANK w) 8 8 ->
  Board_init 8 8 w
  = Ok (length (heap_boards w),
        mkWorld (FILE w) (RANK w) (heap_pieces w)
          (heap_boards w ++
             [fresh_board (FILE w) (RANK w) (length (heap_boards w)) 8 8])
          (stdout w)).
Proof.
  intros Hc. unfold Board_init.
  destruct (decide (8%nat <> 8%nat \/ 8%nat <> 8%nat)) as [[?|?]|_]; [done..|].
  unfold mbind, mret, M_bind, M_ret, get_world, lift, set_heap_boards.
  rewrite (squares_collect _ _ _ _ _ Hc). done.
Qed.

Lemma convertible_lists fl rl :
  convertible (TList fl) (TList rl) (length fl) (length rl).
Proof.
  intros f r Hf Hr.
  destruct (lookup_lt_is_Some_2 fl f Hf) as (x & Hx).
  destruct (lookup_lt_is_Some_2 rl r Hr) as (y & Hy).
  unfold computerToAlgebraic, table_getitem.
  rewrite (py_getitem_nat _ _ _ Hx), (py_getitem_nat _ _ _ Hy). simpl. eauto.
Qed.

Lemma length_chars_alpha : length (chars alpha) = 26%nat.
Proof. reflexivity. Qed.

Lemma Board_init_other w nf nr :
  (nf <> 8%nat \/ nr <> 8%nat) -> (nf <= 26)%nat ->
  let F := TList (take nf (chars alpha)) in
  let R := TList (py_str <$> reverse (range nr)) in
  Board_init nf nr w
  = Ok (length (heap_boards w),
        mkWorld F R (heap_pieces w)
          (heap_boards w ++ [fresh_board F R (length (heap_boards w)) nf nr])
          (stdout w)).
Proof.
  intros Hd Hf F R. unfold Board_init.
  destruct (decide (nf <> 8%nat \/ nr <> 8%nat)) as [_|?]; [|done].
  unfold mbind, mret, M_bind, M_ret, get_world, lift, set_heap_boards,
    set_FILE_RANK.
  rewrite defineFILEandRANK_ok by done. simpl.
  rewrite squares_collect; [done|].
  assert (convertible F R (length (take nf (chars alpha)))
            (length (py_str <$> reverse (range nr)))) as Hc
    by apply convertible_lists.
  rewrite length_take, length_chars_alpha, length_fmap, length_reverse,
    length_range in Hc.
  by replace (nf `min` 26)%nat with nf in Hc by lia.
Qed.

Lemma convert_lists fl rl (f r : nat) x y :
  fl !! f = Some x -> rl !! r = Some y ->
  computerToAlgebraic (TList fl) (TList rl) (Z.of_nat f) (Z.of_nat r)
  = Ok (x +:+ y).
Proof.
  intros Hx Hy. unfold computerToAlgebraic, table_getitem.
  by rewrite (py_getitem_nat _ _ _ Hx), (py_getitem_nat _ _ _ Hy).
Qed.

Lemma convert_lists_file_range fl rl (f r : nat) :
  (length fl <= f)%nat ->
  computerToAlgebraic (TList fl) (TList rl) (Z.of_nat f) (Z.of_nat r)
  = Raise IndexError.
Proof.
  intros H. unfold computerToAlgebraic, table_getitem.
  rewrite (py_getitem_nat_ge _ _ H). reflexivity.
Qed.

Lemma convert_lists_rank_range fl rl (f r : nat) x :
  fl !! f = Some x -> (length rl <= r)%nat ->
  computerToAlgebraic (TList fl) (TList rl) (Z.of_nat f) (Z.of_nat r)
  = Raise IndexError.
Proof.
  intros Hx H. unfold computerToAlgebraic, table_getitem.
  rewrite (py_getitem_nat _ _ _ Hx). simpl.
  rewrite (py_getitem_nat_ge _ _ H). reflexivity.
Qed.

Lemma standard_labels_lists fl rl :
  take 8 fl = chars "abcdefgh" -> take 8 rl = chars "87654321" ->
  standard_labels (TList fl) (TList rl).
Proof.
  intros Hfl Hrl file rank Hf Hr.
  assert (forall i x, (i < 8)%nat -> take 8 fl !! i = Some x -> fl !! i = Some x)
    as Hlf by (intros i x Hi; by rewrite lookup_take_lt).
  assert (forall i x, (i < 8)%nat -> take 8 rl !! i = Some x -> rl !! i = Some x)
    as Hlr by (intros i x Hi; by rewrite lookup_take_lt).
  rewrite Hfl in Hlf. rewrite Hrl in Hlr.
  assert (forall f r : nat, (f < 8)%nat -> (r < 8)%nat ->
    computerToAlgebraic (TList fl) (TList rl) (Z.of_nat f) (Z.of_nat r)
    = computerToAlgebraic FILE0 RANK0 (Z.of_nat f) (Z.of_nat r)) as Hnat.
  { intros f r Hf' Hr'.
    do 8 (destruct f as [|f]; [
      do 8 (destruct r as [|r]; [
        erewrite convert_lists;
          [reflexivity | apply Hlf; [lia|reflexivity]
                       | apply Hlr; [lia|reflexivity]] |]); lia |]).
    lia. }
  specialize (Hnat (Z.to_nat file) (Z.to_nat rank) ltac:(lia) ltac:(lia)).
  by rewrite !Z2Nat.id in Hnat by lia.
Qed.

Lemma take_alpha_8 nf : (8 <= nf)%nat -> take 8 (take nf (chars alpha)) = chars "abcdefgh".
Proof. intros H. rewrite take_take. by replace (8 `min` nf)%nat with 8%nat by lia. Qed.

Lemma standard_labels_iff nf nr :
  (nf <= 26)%nat ->
  standard_labels (TList (take nf (chars alpha)))
                  (TList (py_str <$> reverse (range nr)))
  <-> (8 <= nf)%nat /\ nr = 9%nat.
Proof.
  intros Hnf. split.
  - intros Hstd.
    assert (8 <= nf)%nat as Hf.
    { destruct (decide (8 <= nf)%nat) as [|Hlt]; [done|]. exfalso.
      specialize (Hstd 7 0 ltac:(lia) ltac:(lia)).
      change 7 with (Z.of_nat 7) in Hstd at 1.
      change 0 with (Z.of_nat 0) in Hstd at 1.
      rewrite convert_lists_file_range in Hstd; [done|].
      rewrite length_take. lia. }
    split; [done|].
    assert (take nf (chars alpha) !! 0%nat = Some "a") as Ha.
    { rewrite lookup_take_lt by lia. reflexivity. }
    destruct (decide (nr < 8)%nat) as [Hlt|Hge].
    { exfalso. specialize (Hstd 0 7 ltac:(lia) ltac:(lia)).
      change 7 with (Z.of_nat 7) in Hstd at 1.
      change 0 with (Z.of_nat 0) in Hstd at 1.
      rewrite (convert_lists_rank_range _ _ _ _ _ Ha) in Hstd; [done|].
      rewrite length_fmap, length_reverse, length_range. lia. }
    destruct nr as [|n]; [lia|].
    specialize (Hstd 0 0 ltac:(lia) ltac:(lia)).
    change 0 with (Z.of_nat 0) in Hstd at 1 2.
    rewrite (convert_lists _ _ 0 0 "a" (py_str n) Ha) in Hstd
      by (by rewrite reverse_range_S).
    change (computerToAlgebraic FILE0 RANK0 (Z.of_nat 0) (Z.of_nat 0))
      with (Ok ("a" +:+ py_str 8)) in Hstd.
    injection Hstd as Hstd. change "8" with (py_str 8) in Hstd.
    unfold py_str in Hstd. apply pretty_nat_inj in Hstd. lia.
  - intros [Hf ->]. apply standard_labels_lists.
    + by apply take_alpha_8.
    + reflexivity.
Qed.

Lemma Board_init_keeps_tables w board w' :
  Board_init 8 8 w = Ok (board, w') -> FILE w' = FILE w /\ RANK w' = RANK w.
Proof.
  unfold Board_init.
  destruct (decide (8%nat <> 8%nat \/ 8%nat <> 8%nat)) as [[?|?]|_];
    [done..|].
  unfold mbind, M_bind, mret, M_ret, get_world, lift, set_heap_boards.
  destruct (collect _ _) as [rows|e]; [|done].
  by intros [= <- <-].
Qed.

(** C8, as amended.  Building a board of another size than 8x8, with at
    most 26 files, succeeds and replaces the shared tables by the lists
    [defineFILEandRANK] generates for that size; the earlier boards are
    left as they were, a later 8x8 board does not restore the tables,
    and under the new tables a conversion for coordinates outside the
    new size raises IndexError. *)
Theorem Board_init_replaces_tables (w : World) (numFiles numRanks : nat) :
  (numFiles <> 8%nat \/ numRanks <> 8%nat) -> (numFiles <= 26)%nat ->
  exists board w' fileList rankList,
    Board_init numFiles numRanks w = Ok (board, w') /\
    defineFILEandRANK numFiles numRanks = Ok (fileList, rankList) /\
    FILE w' = TList fileList /\ RANK w' = TList rankList /\
    (forall b0 x, heap_boards w !! b0 = Some x ->
                  heap_boards w' !! b0 = Some x) /\
    (forall board2 w2, Board_init 8 8 w' = Ok (board2, w2) ->
       FILE w2 = TList fileList /\ RANK w2 = TList rankList) /\
    (forall file rank : nat, (numFiles <= file \/ numRanks <= rank)%nat ->
       computerToAlgebraic (FILE w') (RANK w')
         (Z.of_nat file) (Z.of_nat rank) = Raise IndexError).
Proof.
  intros Hd Hf. eexists _, _, _, _.
  split; [apply (Board_init_other w numFiles numRanks Hd Hf)|].
  split; [apply (defineFILEandRANK_ok _ _ Hf)|].
  split; [reflexivity|]. split; [reflexivity|].
  cbn [FILE RANK heap_boards].
  split; [|split].
  - intros b0 x Hx. by apply lookup_app_l_Some.
  - intros board2 w2 Hinit.
    by destruct (Board_init_keeps_tables _ _ _ Hinit) as [-> ->].
  - intros file rank Hout.
    destruct (decide (numFiles <= file)%nat) as [Hfile|Hfile].
    + apply convert_lists_file_range.
      rewrite length_take, length_chars_alpha. lia.
    + destruct (lookup_lt_is_Some_2 (take numFiles (chars alpha)) file)
        as [x Hx]; [rewrite length_take, length_chars_alpha; lia|].
      apply (convert_lists_rank_range _ _ _ _ _ Hx).
      rewrite length_fmap, length_reverse, length_range. lia.
Qed.

Lemma Board_init_replaces_tables_witness :
  exists board w' fileList rankList,
    Board_init 3 3 world0 = Ok (board, w') /\
    defineFILEandRANK 3 3 = Ok (fileList, rankList) /\
    FILE w' = TList fileList /\ RANK w' = TList rankList /\
    computerToAlgebraic (FILE w') (RANK w') 7 0 = Raise IndexError.
Proof.
  destruct (Board_init_replaces_tables world0 3 3)
    as (board & w' & fl & rl & Hinit & Hgen & HF & HR & _ & _ & Hout);
    [left; lia | lia |].
  exists board, w', fl, rl. split; [exact Hinit|]. split; [exact Hgen|].
  split; [exact HF|]. split; [exact HR|].
  apply (Hout 7%nat 0%nat). left. lia.
Defined.

(** After a standard board, a board of 8 files and 9 ranks leaves every
    square of the 8x8 board with its standard name. *)
Lemma later_board_corrupts_fails : ~ later_board_corrupts.
Proof.
  intros H.
  pose (w := exec makeStandardBoard world0).
  assert (8%nat <> 8%nat \/ 9%nat <> 8%nat) as Hd by (right; lia).
  apply (H w 8%nat 9%nat _ _ Hd (Board_init_other w 8 9 Hd ltac:(lia))).
  apply (standard_labels_iff 8 9); [lia|]. split; [lia|reflexivity].
Qed.

(** ** Scenario builders and sample runs *)

Local Close Scope Z_scope.

(** On the standard board, a call with the same rook in both lists
    returns normally. *)
Lemma overlap_rejected_fails : ~ overlap_rejected.
Proof.
  intros H.
  destruct (H standard_world 0%nat (board_at standard_world 0)
              [16%nat] [16%nat] 16%nat) as (e & He).
  - vm_compute. reflexivity.
  - vm_compute. discriminate.
  - left.
  - left.
  - vm_compute in He. discriminate.
Qed.

Lemma overlap_accepted_witness :
  let h := heap_pieces standard_world in
  let b := board_at standard_world 0 in
  exists b', update_pieces_board h [16%nat] [16%nat] b = Ok b' /\
    (forall q, q ∈ pieces b' <-> q ∈ pieces b).
Proof.
  intros h b.
  destruct (overlap_accepted h b 16%nat
              (mkPiece "Rook" "white" (Some (0, 0, 7))%nat))
    as (b' & Hupd & Hsame & _).
  - vm_compute. discriminate.
  - vm_compute. reflexivity.
  - intros _. exists [16; 18]%nat. vm_compute. reflexivity.
  - exists b'. split; [exact Hupd | exact Hsame].
Defined.

Lemma update_pieces_mode_witness :
  let h := heap_pieces emptied_world in
  let b := board_at emptied_world 0 in
  update_pieces_board h [4%nat] [] b = update_pieces_board h [] [] b /\
  (exists b', update_pieces_board h [4%nat] [] b = Ok b' /\
     pieces b' = list_set (occupants b) /\ 4%nat ∉ pieces b') /\
  (exists b', update_pieces_board (heap_pieces standard_world) [16%nat] []
                (board_at standard_world 0) = Ok b' /\ 16%nat ∈ pieces b').
Proof.
  intros h b.
  destruct (update_pieces_mode h b [4%nat] []) as [Hempty _].
  destruct Hempty as [Hsame Hscan]; [vm_compute; reflexivity|].
  destruct Hscan as (b' & Hupd & Hps & Hmem).
  { assert (occupants b = [0; 3; 2; 1]) as ->
      by (vm_compute; reflexivity).
    repeat (apply Forall_cons; split;
      [eexists; split; [vm_compute; reflexivity|];
       intros Hs;
       first [ solve [vm_compute; eauto]
             | destruct Hs as [x Hx]; vm_compute in Hx; discriminate ]|]).
    constructor. }
  split; [exact Hsame|]. split.
  { exists b'. split; [exact Hupd|]. split; [exact Hps|].
    rewrite Hps. apply (bool_decide_unpack _). vm_compute. exact I. }
  destruct (update_pieces_mode (heap_pieces standard_world)
              (board_at standard_world 0) [] []) as [_ Hinc].
  apply Hinc; [vm_compute; discriminate|].
  eexists. split; [vm_compute; reflexivity|]. intros _. vm_compute. eauto.
Defined.

Lemma set_remove_piece_links_witness :
  exists w', set_piece (0, 4, 7)%nat (Some 0%nat) one_king_world = Ok (tt, w') /\
    piece_square <$> heap_pieces w' !! 0%nat = Some (Some (0, 4, 7)%nat).
Proof.
  destruct (set_remove_piece_links one_king_world (0, 4, 7)%nat
              (fresh_square FILE0 RANK0 0 4 7)) as (Hset & _ & _).
  - vm_compute. reflexivity.
  - destruct (Hset 0%nat (mkPiece "King" "white" None)) as (w' & Hrun & Hback & _).
    + vm_compute. reflexivity.
    + exists w'. split; [exact Hrun | exact Hback].
Defined.

Lemma select_color_cases (s : string) :
  (startswith (lower s) "w" = true /\ select_color s = Some ("white", 7%nat)) \/
  (startswith (lower s) "w" = false /\ startswith (lower s) "b" = true /\
   select_color s = Some ("black", 0%nat)) \/
  (startswith (lower s) "w" = false /\ startswith (lower s) "b" = false /\
   select_color s = None).
Proof.
  unfold select_color.
  destruct (startswith (lower s) "w"); [by left|].
  destruct (startswith (lower s) "b"); right; [by left | by right].
Qed.

(** With selector "white" the board holds two white queens and no black
    queen. *)
Lemma queen_endgame_one_queen_each_fails : ~ queen_endgame_one_queen_each.
Proof.
  intros H.
  destruct (H "white") as (board & w & b & Hrun & Hb & _ & _ & Hq & _);
    [left; reflexivity|].
  vm_compute in Hrun. injection Hrun as <- <-.
  vm_compute in Hb. injection Hb as <-.
  vm_compute in Hq. discriminate.
Qed.

(** The board has two queens of the chosen color, on files 0 and 7. *)
Example makeQueenEndgameBoard_white_two_queens :
  exists board w b,
    makeQueenEndgameBoard "white" world0 = Ok (Some board, w) /\
    heap_boards w !! board = Some b /\
    count_kind (heap_pieces w) "Queen" "white" (pieces b) = 2%nat.
Proof.
  eexists _, _, _. split; [vm_compute; reflexivity|].
  split; vm_compute; reflexivity.
Qed.

(** * Further properties *)

Local Open Scope Z_scope.

(** ** Square colors *)

Lemma getSquareColor_parity (file rank : Z) :
  getSquareColor file rank
  = if Z.even (file + rank) then "light" else "dark".
Proof.
  unfold getSquareColor.
  pose proof (Z.div_mod rank 2 ltac:(lia)) as Hr.
  pose proof (Z.mod_pos_bound rank 2 ltac:(lia)) as Hrb.
  pose proof (Z.div_mod file 2 ltac:(lia)) as Hf.
  pose proof (Z.mod_pos_bound file 2 ltac:(lia)) as Hfb.
  destruct (Z.even (file + rank)) eqn:He.
  - apply Z.even_spec in He. destruct He as [k Hk].
    destruct (decide (rank `mod` 2 = file `mod` 2)) as [|Hne]; [done|].
    exfalso. apply Hne. lia.
  - destruct (decide (rank `mod` 2 = file `mod` 2)) as [Heq|]; [|done].
    exfalso. assert (Z.even (file + rank) = true) as Ht; [|congruence].
    apply Z.even_spec. exists (file / 2 + rank / 2 + file `mod` 2). lia.
Qed.

(** X1. Square colors form a checkerboard over all integer coordinates:
    one step along a file or along a rank flips the color, one diagonal
    step keeps it, and swapping file and rank keeps it. *)
Theorem getSquareColor_alternates (file rank : Z) :
  getSquareColor (file + 1) rank <> getSquareColor file rank /\
  getSquareColor file (rank + 1) <> getSquareColor file rank /\
  getSquareColor (file + 1) (rank + 1) = getSquareColor file rank /\
  getSquareColor rank file = getSquareColor file rank.
Proof.
  rewrite !getSquareColor_parity.
  replace (file + 1 + rank) with (Z.succ (file + rank)) by lia.
  replace (file + (rank + 1)) with (Z.succ (file + rank)) by lia.
  replace (file + 1 + (rank + 1)) with (Z.succ (Z.succ (file + rank))) by lia.
  replace (rank + file) with (file + rank) by lia.
  rewrite !Z.even_succ, Z.odd_succ, <- Z.negb_even.
  destruct (Z.even (file + rank)); simpl; repeat split; discriminate.
Qed.

(** ** The coordinate mapper outside the board *)

Lemma py_getitem_wrap {A} (l : list A) (i : Z) :
  - Z.of_nat (length l) <= i < Z.of_nat (length l) ->
  py_getitem l i = py_getitem l (i `mod` Z.of_nat (length l)) /\
  exists x, py_getitem l i = Ok x.
Proof.
  intros Hi.
  assert (0 < Z.of_nat (length l)) as Hpos by lia.
  assert (forall j, 0 <= j < Z.of_nat (length l) ->
            exists x, py_getitem l j = Ok x /\ l !! Z.to_nat j = Some x) as Hin.
  { intros j Hj. unfold py_getitem.
    destruct (Z.ltb_spec j 0) as [?|_]; [lia|].
    destruct (Z.ltb_spec j 0) as [?|_]; [lia|].
    destruct (Z.leb_spec (Z.of_nat (length l)) j) as [?|_]; [lia|]. simpl.
    destruct (lookup_lt_is_Some_2 l (Z.to_nat j) ltac:(lia)) as [x Hx].
    rewrite Hx. eauto. }
  destruct (Z.ltb_spec i 0) as [Hneg|Hnn].
  - replace (i `mod` Z.of_nat (length l)) with (Z.of_nat (length l) + i).
    2:{ apply (Z.mod_unique _ _ (-1)); lia. }
    assert (py_getitem l i = py_getitem l (Z.of_nat (length l) + i)) as Heq.
    { unfold py_getitem.
      rewrite (proj2 (Z.ltb_lt i 0) Hneg).
      rewrite !(proj2 (Z.ltb_ge (Z.of_nat (length l) + i) 0)) by lia.
      reflexivity. }
    destruct (Hin (Z.of_nat (length l) + i) ltac:(lia)) as (x & Hx & _).
    split; [done|]. exists x. by rewrite Heq.
  - rewrite Z.mod_small by lia. split; [done|].
    destruct (Hin i ltac:(lia)) as (x & Hx & _). eauto.
Qed.

Lemma py_getitem_out {A} (l : list A) (i : Z) :
  i < - Z.of_nat (length l) \/ Z.of_nat (length l) <= i ->
  py_getitem l i = Raise IndexError.
Proof.
  intros Hi. unfold py_getitem.
  destruct (Z.ltb_spec i 0) as [Hneg|Hnn].
  - destruct (Z.ltb_spec (Z.of_nat (length l) + i) 0) as [_|?]; [done|lia].
  - destruct (Z.ltb_spec i 0) as [?|_]; [lia|].
    destruct (Z.leb_spec (Z.of_nat (length l)) i) as [_|?]; [done|lia].
Qed.

(** X2. On the default tables [computerToAlgebraic] returns a name
    exactly for the coordinates in [-8, 8): Python's negative indexes
    are accepted, and any coordinate outside that range raises
    IndexError. *)
Theorem computerToAlgebraic_default_domain (file rank : Z) :
  (-8 <= file < 8 /\ -8 <= rank < 8 ->
     exists s, computerToAlgebraic FILE0 RANK0 file rank = Ok s) /\
  (~ (-8 <= file < 8 /\ -8 <= rank < 8) ->
     computerToAlgebraic FILE0 RANK0 file rank = Raise IndexError).
Proof.
  unfold computerToAlgebraic, FILE0, RANK0, table_getitem. split.
  - intros [Hf Hr].
    destruct (py_getitem_wrap (chars "abcdefgh") file Hf) as (_ & x & ->).
    destruct (py_getitem_wrap (chars "87654321") rank Hr) as (_ & y & ->).
    simpl. eauto.
  - intros Hn.
    destruct (decide (-8 <= file < 8)) as [Hf|Hf].
    + destruct (py_getitem_wrap (chars "abcdefgh") file Hf) as (_ & x & ->).
      simpl. rewrite (py_getitem_out _ rank); [reflexivity|]. simpl length. lia.
    + rewrite (py_getitem_out _ file); [reflexivity|]. simpl length. lia.
Qed.

Lemma computerToAlgebraic_default_domain_witness :
  (exists s, computerToAlgebraic FILE0 RANK0 (-1) (-8) = Ok s) /\
  computerToAlgebraic FILE0 RANK0 3 8 = Raise IndexError.
Proof.
  split.
  - apply (computerToAlgebraic_default_domain (-1) (-8)). lia.
  - apply (computerToAlgebraic_default_domain 3 8). lia.
Defined.

(** X3. On the default tables, for coordinates in [-8, 8) the round trip
    through algebraic notation returns the coordinates modulo 8: a
    negative index comes back as the non-negative index of the same
    square. *)
Theorem algebraic_roundtrip_wraps (file rank : Z) :
  -8 <= file < 8 -> -8 <= rank < 8 ->
  (s ← computerToAlgebraic FILE0 RANK0 file rank;
   algebraicToComputer FILE0 RANK0 s) = Ok (file `mod` 8, rank `mod` 8).
Proof.
  intros Hf Hr.
  assert (file = -8 ∨ file = -7 ∨ file = -6 ∨ file = -5 ∨
          file = -4 ∨ file = -3 ∨ file = -2 ∨ file = -1 ∨
          file = 0 ∨ file = 1 ∨ file = 2 ∨ file = 3 ∨
          file = 4 ∨ file = 5 ∨ file = 6 ∨ file = 7) as Hfc by lia.
  assert (rank = -8 ∨ rank = -7 ∨ rank = -6 ∨ rank = -5 ∨
          rank = -4 ∨ rank = -3 ∨ rank = -2 ∨ rank = -1 ∨
          rank = 0 ∨ rank = 1 ∨ rank = 2 ∨ rank = 3 ∨
          rank = 4 ∨ rank = 5 ∨ rank = 6 ∨ rank = 7) as Hrc by lia.
  destruct_or!; subst; reflexivity.
Qed.

Lemma algebraic_roundtrip_wraps_witness :
  (s ← computerToAlgebraic FILE0 RANK0 (-1) (-8);
   algebraicToComputer FILE0 RANK0 s) = Ok (7, 0).
Proof. apply (algebraic_roundtrip_wraps (-1) (-8)); lia. Defined.

Lemma table_index_FILE0 (c : ascii) (n : Z) :
  table_index FILE0 (String c "") = Ok n ->
  0 <= n < 8 /\ table_getitem FILE0 n = Ok (String c "").
Proof.
  destruct c as [[] [] [] [] [] [] [] []]; vm_compute;
    intros H; try discriminate H; injection H as <-; done.
Qed.

Lemma table_index_RANK0 (c : ascii) (n : Z) :
  table_index RANK0 (String c "") = Ok n ->
  0 <= n < 8 /\ table_getitem RANK0 n = Ok (String c "").
Proof.
  destruct c as [[] [] [] [] [] [] [] []]; vm_compute;
    intros H; try discriminate H; injection H as <-; done.
Qed.

Lemma algebraicToComputer_nil F R :
  algebraicToComputer F R "" = Raise IndexError.
Proof. reflexivity. Qed.

Lemma algebraicToComputer_one F R c0 :
  algebraicToComputer F R (String c0 "")
  = (table_index F (String c0 "") ≫= fun _ => Raise IndexError).
Proof. reflexivity. Qed.

Lemma algebraicToComputer_two F R c0 c1 rest :
  algebraicToComputer F R (String c0 (String c1 rest))
  = (file ← table_index F (String c0 "");
     rank ← table_index R (String c1 "");
     Ok (file, rank)).
Proof.
  unfold algebraicToComputer. simpl chars.
  rewrite (py_getitem_nat _ 0 (String c0 "")) by done.
  rewrite (py_getitem_nat _ 1 (String c1 "")) by done.
  reflexivity.
Qed.

(** X4. On the default tables, whenever [algebraicToComputer] returns a
    pair, the pair lies in [0, 8) x [0, 8), the coordinate has at least
    two characters, and [computerToAlgebraic] maps the pair back to the
    first two characters of the coordinate. *)
Theorem algebraicToComputer_default_inverse (coordinate : string)
  (file rank : Z) :
  algebraicToComputer FILE0 RANK0 coordinate = Ok (file, rank) ->
  0 <= file < 8 /\ 0 <= rank < 8 /\
  exists c0 c1 rest, coordinate = String c0 (String c1 rest) /\
    computerToAlgebraic FILE0 RANK0 file rank = Ok (String c0 (String c1 "")).
Proof.
  destruct coordinate as [|c0 [|c1 rest]].
  - discriminate.
  - rewrite algebraicToComputer_one.
    destruct (table_index FILE0 (String c0 "")); discriminate.
  - rewrite algebraicToComputer_two.
    destruct (table_index FILE0 (String c0 "")) as [f|] eqn:Hf; [|discriminate].
    destruct (table_index RANK0 (String c1 "")) as [r|] eqn:Hr; [|discriminate].
    intros [= <- <-].
    destruct (table_index_FILE0 _ _ Hf) as [Hfr Hfg].
    destruct (table_index_RANK0 _ _ Hr) as [Hrr Hrg].
    split; [done|]. split; [done|]. exists c0, c1, rest. split; [done|].
    unfold computerToAlgebraic. rewrite Hfg, Hrg. reflexivity.
Qed.

Lemma algebraicToComputer_default_inverse_witness :
  0 <= 4 < 8 /\ 0 <= 4 < 8 /\
  exists c0 c1 rest, "e4 e5" = String c0 (String c1 rest) /\
    computerToAlgebraic FILE0 RANK0 4 4 = Ok (String c0 (String c1 "")).
Proof.
  apply (algebraicToComputer_default_inverse "e4 e5" 4 4). reflexivity.
Defined.

(** X5. Under any tables [algebraicToComputer] reads only the first two
    characters of the coordinate ([coordinate[:2]] has the same outcome),
    and a coordinate of fewer than two characters raises IndexError or
    ValueError. *)
Theorem algebraicToComputer_reads_two (F R : label_table) (coordinate : string) :
  algebraicToComputer F R coordinate
  = algebraicToComputer F R (String.substring 0 2 coordinate) /\
  ((String.length coordinate < 2)%nat ->
     algebraicToComputer F R coordinate = Raise IndexError \/
     algebraicToComputer F R coordinate = Raise ValueError).
Proof.
  split.
  - destruct coordinate as [|c0 [|c1 rest]]; [done..|].
    rewrite algebraicToComputer_two.
    change (String.substring 0 2 (String c0 (String c1 rest)))
      with (String c0 (String c1 (String.substring 0 0 rest))).
    by rewrite algebraicToComputer_two.
  - destruct coordinate as [|c0 [|c1 rest]]; simpl; intros Hl; [by left| |lia].
    rewrite algebraicToComputer_one.
    destruct (table_index F (String c0 "")) as [n|e] eqn:Hn; [by left|].
    right. simpl. f_equal.
    destruct F as [s|l]; simpl in Hn.
    + destruct (String.index 0 (String c0 "") s); by inversion Hn.
    + destruct (list_index (String c0 "") l); by inversion Hn.
Qed.

Lemma algebraicToComputer_reads_two_witness :
  algebraicToComputer FILE0 RANK0 "e4 e5" = algebraicToComputer FILE0 RANK0 "e4"
  /\ (algebraicToComputer FILE0 RANK0 "e" = Raise IndexError \/
      algebraicToComputer FILE0 RANK0 "e" = Raise ValueError).
Proof.
  split.
  - destruct (algebraicToComputer_reads_two FILE0 RANK0 "e4 e5") as [H _].
    exact H.
  - apply (algebraicToComputer_reads_two FILE0 RANK0 "e"). simpl. lia.
Defined.

(** ** The coordinate mapper under generated tables *)

Lemma chars_single (s x : string) :
  x ∈ chars s -> exists c, x = String c "".
Proof.
  induction s as [|c s IH]; simpl; intros H.
  - by apply elem_of_nil in H.
  - apply elem_of_cons in H as [->|H]; eauto.
Qed.

Lemma list_index_lookup (x : string) (l : list string) (n : nat) :
  list_index x l = Some n -> l !! n = Some x.
Proof.
  revert n. induction l as [|y l IH]; intros n; simpl; [done|].
  destruct (decide (y = x)) as [->|Hne].
  - by intros [= <-].
  - destruct (list_index x l) as [m|]; simpl; [|done].
    intros [= <-]. simpl. by apply IH.
Qed.

Lemma list_index_NoDup (x : string) (l : list string) (n : nat) :
  NoDup l -> l !! n = Some x -> list_index x l = Some n.
Proof.
  intros Hnd. revert n. induction Hnd as [|y l Hy Hnd IH]; intros n; [done|].
  destruct n as [|n]; simpl.
  - intros [= ->]. by rewrite decide_True.
  - intros Hn. rewrite decide_False.
    + by rewrite (IH n Hn).
    + intros ->. apply Hy. by eapply list_elem_of_lookup_2.
Qed.

Lemma length_pretty_N_go (x : N) (s : string) :
  (String.length s <= String.length (pretty_N_go x s))%nat.
Proof.
  revert s. induction (N.lt_wf_0 x) as [x _ IH]; intros s.
  assert (x = 0 ∨ 0 < x)%N as [->|?] by lia; [by rewrite pretty_N_go_0|].
  rewrite pretty_N_go_step by done.
  etrans; [|by eapply IH, N.div_lt]. simpl. lia.
Qed.

Lemma py_str_small (n : nat) :
  (n < 10)%nat -> exists c, py_str n = String c "".
Proof.
  intros H. do 10 (destruct n as [|n]; [by eexists|]). lia.
Qed.

Lemma py_str_large (n : nat) :
  (10 <= n)%nat -> exists c0 c1 rest, py_str n = String c0 (String c1 rest).
Proof.
  intros H. unfold py_str, pretty, pretty_nat, pretty, pretty_N.
  rewrite decide_False by lia.
  rewrite pretty_N_go_step by lia.
  rewrite pretty_N_go_step by (apply N.div_str_pos; lia).
  match goal with |- exists _ _ _, pretty_N_go ?x ?s = _ =>
    pose proof (length_pretty_N_go x s) as Hl;
    destruct (pretty_N_go x s) as [|c0 [|c1 rest]] end;
    simpl in Hl; [lia|lia|eauto].
Qed.

Lemma generated_labels (files ranks : nat) (fl rl : list string) :
  defineFILEandRANK files ranks = Ok (fl, rl) ->
  (files <= 26)%nat /\ fl = take files (chars alpha) /\
  rl = py_str <$> reverse (range ranks).
Proof.
  intros H. destruct (decide (files <= 26)%nat) as [Hle|Hgt].
  - rewrite defineFILEandRANK_ok in H by done. by injection H as <- <-.
  - rewrite defineFILEandRANK_too_wide in H by lia. discriminate.
Qed.

Lemma rank_label_lookup (ranks rank : nat) :
  (rank < ranks)%nat ->
  (py_str <$> reverse (range ranks)) !! rank = Some (py_str (ranks - 1 - rank)).
Proof.
  intros H. rewrite list_lookup_fmap, reverse_lookup
    by (by rewrite length_range).
  rewrite length_range. unfold range. rewrite lookup_seq_lt by lia.
  simpl. do 2 f_equal. lia.
Qed.

Lemma NoDup_file_labels (files : nat) : NoDup (take files (chars alpha)).
Proof.
  eapply sublist_NoDup; [|apply sublist_take].
  apply (bool_decide_unpack _). vm_compute. exact I.
Qed.

Lemma NoDup_rank_labels (ranks : nat) :
  NoDup (py_str <$> reverse (range ranks)).
Proof.
  apply (NoDup_fmap_2 (pretty : nat -> string)).
  rewrite reverse_Permutation. apply NoDup_seq.
Qed.

Lemma result_bind_ok {A B} (a : A) (k : A -> result B) : (Ok a ≫= k) = k a.
Proof. reflexivity. Qed.

(** X6. Under the tables [defineFILEandRANK] generates, the round trip
    of the square (file, rank) through algebraic notation returns
    (file, rank) when the label of the rank is a single digit
    (ranks - rank <= 10), and does not when the label has two digits or
    more: [algebraicToComputer] reads one character of it. *)
Theorem generated_tables_roundtrip (files ranks file rank : nat)
  (fl rl : list string) :
  defineFILEandRANK files ranks = Ok (fl, rl) ->
  (file < files)%nat -> (rank < ranks)%nat ->
  let back :=
    s ← computerToAlgebraic (TList fl) (TList rl)
          (Z.of_nat file) (Z.of_nat rank);
    algebraicToComputer (TList fl) (TList rl) s in
  ((ranks - rank <= 10)%nat -> back = Ok (Z.of_nat file, Z.of_nat rank)) /\
  ((10 < ranks - rank)%nat -> back <> Ok (Z.of_nat file, Z.of_nat rank)).
Proof.
  intros Hgen Hf Hr.
  destruct (generated_labels _ _ _ _ Hgen) as (Hw & -> & ->).
  assert (is_Some (take files (chars alpha) !! file)) as [x Hx].
  { apply lookup_lt_is_Some_2. rewrite length_take, length_chars_alpha. lia. }
  pose proof (rank_label_lookup ranks rank Hr) as Hy.
  assert (exists c, x = String c "") as [c ->].
  { apply (chars_single alpha). eapply list_elem_of_lookup_2.
    rewrite lookup_take_lt in Hx by lia. exact Hx. }
  cbv zeta. rewrite (convert_lists _ _ _ _ _ _ Hx Hy).
  rewrite result_bind_ok.
  change (String c "" +:+ py_str (ranks - 1 - rank))
    with (String c (py_str (ranks - 1 - rank))).
  split.
  - intros Hsmall.
    destruct (py_str_small (ranks - 1 - rank) ltac:(lia)) as [d Hd].
    rewrite Hd in *. rewrite algebraicToComputer_two. unfold table_index.
    rewrite (list_index_NoDup _ _ _ (NoDup_file_labels files) Hx).
    rewrite (list_index_NoDup _ _ _ (NoDup_rank_labels ranks) Hy). done.
  - intros Hlarge.
    destruct (py_str_large (ranks - 1 - rank) ltac:(lia)) as (d0 & d1 & t & Hd).
    rewrite Hd in *. rewrite algebraicToComputer_two. unfold table_index.
    destruct (list_index (String c "") (take files (chars alpha)));
      [|done].
    destruct (list_index (String d0 "") (py_str <$> reverse (range ranks)))
      as [m|] eqn:Hm; [|done].
    intros [= _ Heq]. apply Nat2Z.inj in Heq. subst m.
    apply list_index_lookup in Hm. rewrite Hy in Hm. discriminate.
Qed.

Lemma generated_tables_roundtrip_witness :
  (s ← computerToAlgebraic (TList (take 8 (chars alpha)))
         (TList (py_str <$> reverse (range 12))) 0 5;
   algebraicToComputer (TList (take 8 (chars alpha)))
         (TList (py_str <$> reverse (range 12))) s) = Ok (0, 5) /\
  (s ← computerToAlgebraic (TList (take 8 (chars alpha)))
         (TList (py_str <$> reverse (range 12))) 0 0;
   algebraicToComputer (TList (take 8 (chars alpha)))
         (TList (py_str <$> reverse (range 12))) s) <> Ok (0, 0).
Proof.
  split.
  - apply (generated_tables_roundtrip 8 12 0 5 _ _ eq_refl); lia.
  - apply (generated_tables_roundtrip 8 12 0 0 _ _ eq_refl); lia.
Defined.

(** ** The grid of a new board *)

Lemma collect_inv {A B} (f : A -> result B) (xs : list A) (ys : list B) :
  collect f xs = Ok ys -> Forall2 (fun x y => f x = Ok y) xs ys.
Proof.
  revert ys. induction xs as [|x xs IH]; intros ys; simpl.
  - intros [= <-]. constructor.
  - destruct (f x) as [y|e] eqn:Hy; simpl; [|done].
    destruct (collect f xs) as [zs|e] eqn:Hzs; simpl; [|done].
    intros [= <-]. constructor; [done|]. by apply IH.
Qed.

Lemma collect_raise {A B} (f : A -> result B) (xs : list A) (e : exn) :
  (forall x, x ∈ xs -> f x = Raise e \/ exists y, f x = Ok y) ->
  (exists x, x ∈ xs /\ f x = Raise e) ->
  collect f xs = Raise e.
Proof.
  induction xs as [|x xs IH]; intros Hall (x0 & Hin & Hx0).
  - by apply elem_of_nil in Hin.
  - simpl. destruct (Hall x ltac:(left)) as [->|[y Hy]]; [done|].
    rewrite Hy. simpl. rewrite IH; [done| |].
    + intros z Hz. apply Hall. by right.
    + apply elem_of_cons in Hin as [->|Hin]; [congruence|eauto].
Qed.

Lemma collect_cases {A B} (f : A -> result B) (xs : list A) (e : exn) :
  (forall x, x ∈ xs -> f x = Raise e \/ exists y, f x = Ok y) ->
  collect f xs = Raise e \/ exists ys, collect f xs = Ok ys.
Proof.
  induction xs as [|x xs IH]; intros Hall; simpl; [eauto|].
  destruct (Hall x ltac:(left)) as [->|[y ->]]; [by left|]. simpl.
  destruct IH as [->|[ys ->]]; simpl; eauto.
  intros z Hz. apply Hall. by right.
Qed.

Lemma drop_concat_rows {A} (rows : list (list A)) (n i : nat) :
  Forall (fun row => length row = n) rows ->
  drop (i * n) (concat rows) = concat (drop i rows).
Proof.
  intros Hrows. revert i. induction Hrows as [|row rows Hrow Hrows IH];
    intros i.
  - rewrite drop_nil. simpl. by rewrite drop_nil.
  - destruct i as [|i]; [done|]. simpl.
    rewrite drop_app_add' by done. apply IH.
Qed.

Lemma reshape_concat {A} (rows : list (list A)) (nf nr : nat) :
  length rows = nf -> Forall (fun row => length row = nr) rows ->
  reshape nf nr (concat rows) = rows.
Proof.
  intros Hlen Hrows. apply list_eq. intros i. unfold reshape, range.
  rewrite list_lookup_fmap.
  destruct (decide (i < nf)%nat) as [Hi|Hi].
  - rewrite lookup_seq_lt by done. simpl.
    destruct (lookup_lt_is_Some_2 rows i ltac:(lia)) as [row Hrow].
    rewrite Hrow. f_equal.
    rewrite (drop_concat_rows _ _ _ Hrows), (drop_S _ _ _ Hrow). simpl.
    apply take_app_length'.
    symmetry. by apply (Forall_lookup_1 _ _ _ _ Hrows Hrow).
  - rewrite lookup_seq_ge by lia. simpl. symmetry.
    apply lookup_ge_None_2. lia.
Qed.

Lemma Forall2_collect_length {A B} (f : A -> result B) xs ys :
  collect f xs = Ok ys -> length ys = length xs.
Proof. intros H%collect_inv. symmetry. by eapply Forall2_length. Qed.

(** What a successful [Board.__init__] leaves. *)
Lemma Board_init_inv w numFiles numRanks board w' :
  Board_init numFiles numRanks w = Ok (board, w') ->
  exists rows,
    collect (fun file => collect
               (fun rank => Square_init (FILE w') (RANK w') file rank board)
               (range numRanks)) (range numFiles) = Ok rows /\
    board = length (heap_boards w) /\
    heap_boards w' = heap_boards w ++
      [mkBoard numFiles numRanks [] init_piece_lists rows None None] /\
    heap_pieces w' = heap_pieces w /\ stdout w' = stdout w /\
    (numFiles = 8%nat /\ numRanks = 8%nat -> FILE w' = FILE w /\ RANK w' = RANK w).
Proof.
  unfold Board_init. intros H.
  set (pre := if decide (numFiles ≠ 8%nat ∨ numRanks ≠ 8%nat) then _ else _) in H.
  assert (exists w1, pre w = Ok (tt, w1) /\ heap_boards w1 = heap_boards w /\
            heap_pieces w1 = heap_pieces w /\ stdout w1 = stdout w /\
            (numFiles = 8%nat /\ numRanks = 8%nat -> w1 = w))
    as (w1 & Hpre & Hb1 & Hp1 & Hs1 & Hsame).
  { unfold pre in *. destruct (decide _) as [Hd|Hd].
    - revert H. unfold mbind at 1 2, M_bind at 1 2.
      unfold lift. destruct (defineFILEandRANK numFiles numRanks) as [[fl rl]|e];
        [|done].
      intros _. eexists. split; [reflexivity|]. simpl.
      repeat split; try done. intros [-> ->]. by destruct Hd.
    - exists w. repeat split; done. }
  rewrite (bind_ok _ _ _ _ _ Hpre) in H.
  unfold mbind, M_bind, get_world, lift, set_heap_boards, mret, M_ret in H.
  destruct (collect _ _) as [rows|e] eqn:Hrows; [|done].
  injection H as <- <-. simpl.
  assert (Forall (fun row => length row = numRanks) rows
          /\ length rows = numFiles) as [Hall Hlen].
  { split.
    - apply collect_inv in Hrows. apply Forall_forall. intros row Hrow.
      apply list_elem_of_lookup_1 in Hrow as [i Hi].
      destruct (Forall2_lookup_r _ _ _ _ _ Hrows Hi) as (f & _ & Hf).
      rewrite (Forall2_collect_length _ _ _ Hf). apply length_range.
    - rewrite (Forall2_collect_length _ _ _ Hrows). apply length_range. }
  rewrite (reshape_concat _ _ _ Hlen Hall).
  exists rows. rewrite Hb1 in *.
  split; [exact Hrows|]. split; [done|]. split; [done|].
  split; [done|]. split; [done|].
  intros Heq. by rewrite (Hsame Heq).
Qed.

(** X7. A Board that [Board.__init__] returns has the requested size, an
    empty flat list, no kings, and a grid whose entry [file, rank] is an
    empty, unselected Square that carries those coordinates, the board
    itself, the color [getSquareColor] gives and the name
    [computerToAlgebraic] gives under the tables then in force; an index
    past either dimension raises IndexError. *)
Theorem Board_init_grid (w : World) (numFiles numRanks : nat) (board : bid)
  (w' : World) :
  Board_init numFiles numRanks w = Ok (board, w') ->
  exists b, heap_boards w' !! board = Some b /\
    get_size b = (numFiles, numRanks) /\ get_pieces b = [] /\
    white_king b = None /\ black_king b = None /\
    (forall file rank, (file < numFiles)%nat -> (rank < numRanks)%nat ->
       exists sq, grid_get (squares b) file rank = Ok sq /\
         get_coords sq = (file, rank) /\ sq_board sq = board /\
         sq_piece sq = None /\ sq_selected sq = false /\
         sq_color sq = getSquareColor (Z.of_nat file) (Z.of_nat rank) /\
         computerToAlgebraic (FILE w') (RANK w')
           (Z.of_nat file) (Z.of_nat rank) = Ok (sq_name sq)) /\
    (forall file rank, (numFiles <= file \/ numRanks <= rank)%nat ->
       grid_get (squares b) file rank = Raise IndexError).
Proof.
  intros H.
  destruct (Board_init_inv _ _ _ _ _ H)
    as (rows & Hrows & -> & Hb & _ & _ & _).
  eexists. split.
  { rewrite Hb. by apply list_lookup_middle. }
  simpl. split; [done|]. split; [done|]. split; [done|]. split; [done|].
  pose proof (collect_inv _ _ _ Hrows) as Hall.
  assert (length rows = numFiles) as Hlen
    by (rewrite (Forall2_collect_length _ _ _ Hrows); apply length_range).
  split.
  - intros file rank Hf Hr.
    assert (range numFiles !! file = Some file) as Hfile
      by (unfold range; by rewrite lookup_seq_lt).
    assert (range numRanks !! rank = Some rank) as Hrank
      by (unfold range; by rewrite lookup_seq_lt).
    destruct (Forall2_lookup_l _ _ _ _ _ Hall Hfile) as (row & Hrow & Hc).
    destruct (Forall2_lookup_l _ _ _ _ _ (collect_inv _ _ _ Hc) Hrank)
      as (sq & Hsq & Hinit).
    exists sq. split; [by eapply grid_get_lookup|].
    unfold Square_init in Hinit.
    destruct (computerToAlgebraic _ _ _ _) as [name|e]; [|done].
    by injection Hinit as <-.
  - intros file rank Hout. unfold grid_get.
    destruct (rows !! file) as [row|] eqn:Hrow; [|done]. simpl.
    pose proof (lookup_lt_Some _ _ _ Hrow) as Hlt.
    destruct (Forall2_lookup_r _ _ _ _ _ Hall Hrow) as (f & _ & Hc).
    rewrite lookup_ge_None_2; [done|].
    rewrite (Forall2_collect_length _ _ _ Hc), length_range. lia.
Qed.

Lemma Board_init_grid_witness :
  exists b, heap_boards (exec (Board_init 3 2) world0) !! 0%nat = Some b /\
    get_size b = (3%nat, 2%nat) /\
    grid_get (squares b) 3 0 = Raise IndexError.
Proof.
  destruct (Board_init_grid world0 3 2 0%nat (exec (Board_init 3 2) world0)
              eq_refl) as (b & Hb & Hs & _ & _ & _ & _ & Hout).
  exists b. split; [exact Hb|]. split; [exact Hs|]. apply Hout. left. lia.
Defined.

Lemma Board_init_square_at w numFiles numRanks board w' file rank sq :
  Board_init numFiles numRanks w = Ok (board, w') ->
  square_at w' (board, file, rank) = Some sq ->
  Square_init (FILE w') (RANK w') file rank board = Ok sq.
Proof.
  intros H Hsq.
  destruct (Board_init_inv _ _ _ _ _ H)
    as (rows & Hrows & -> & Hb & _ & _ & _).
  apply square_at_inv in Hsq as (b & row & Hbd & Hrow & Hsq).
  rewrite Hb, list_lookup_middle in Hbd by done. injection Hbd as <-.
  simpl in Hrow.
  destruct (Forall2_lookup_r _ _ _ _ _ (collect_inv _ _ _ Hrows) Hrow)
    as (f & Hf & Hc).
  apply lookup_seq in Hf as [-> _].
  destruct (Forall2_lookup_r _ _ _ _ _ (collect_inv _ _ _ Hc) Hsq)
    as (r & Hr & Hinit).
  apply lookup_seq in Hr as [-> _]. exact Hinit.
Qed.

(** X8. On the grid of a board that [Board.__init__] returns, two entries
    are equal under [Square.__eq__] exactly when they are the same
    entry, and placing or removing a piece on a square does not change
    what the square is equal to. *)
Theorem Board_init_squares_distinct (w : World) (numFiles numRanks : nat)
  (board : bid) (w' : World) (file1 rank1 file2 rank2 : nat)
  (sq1 sq2 : Square) :
  Board_init numFiles numRanks w = Ok (board, w') ->
  square_at w' (board, file1, rank1) = Some sq1 ->
  square_at w' (board, file2, rank2) = Some sq2 ->
  (Square_eq sq1 sq2 = true <-> (file1, rank1) = (file2, rank2)) /\
  (forall o, Square_eq (with_piece o sq1) sq2 = Square_eq sq1 sq2).
Proof.
  intros H H1 H2.
  apply (Board_init_square_at _ _ _ _ _ _ _ _ H) in H1.
  apply (Board_init_square_at _ _ _ _ _ _ _ _ H) in H2.
  unfold Square_init in H1, H2.
  destruct (computerToAlgebraic _ _ _ (Z.of_nat rank1)); [|done].
  destruct (computerToAlgebraic _ _ _ (Z.of_nat rank2)); [|done].
  injection H1 as <-. injection H2 as <-. unfold Square_eq. simpl.
  rewrite !bool_decide_eq_true. split; [|done].
  split; [by intros [= -> ->]|by intros [= -> ->]].
Qed.

Lemma Board_init_squares_distinct_witness :
  Square_eq (fresh_square FILE0 RANK0 0%nat 0 1)
            (fresh_square FILE0 RANK0 0%nat 0 2) = true
  <-> (0, 1)%nat = (0, 2)%nat.
Proof.
  destruct (Board_init_squares_distinct world0 8 8 0%nat
              (exec (Board_init 8 8) world0) 0 1 0 2
              (fresh_square FILE0 RANK0 0%nat 0 1)
              (fresh_square FILE0 RANK0 0%nat 0 2)) as [H _];
    [vm_compute; reflexivity..|exact H].
Defined.

Lemma bind_raise {A B} (m : M A) (k : A -> M B) w e :
  m w = Raise e -> (m ≫= k) w = Raise e.
Proof. intros H. unfold mbind, M_bind. by rewrite H. Qed.

(** X9. A board of more than 26 files cannot be built: [Board.__init__]
    raises IndexError (the alphabet runs out), whatever the number of
    ranks. *)
Theorem Board_init_too_wide (w : World) (numFiles numRanks : nat) :
  (26 < numFiles)%nat -> Board_init numFiles numRanks w = Raise IndexError.
Proof.
  intros H. unfold Board_init.
  rewrite decide_True by lia.
  apply bind_raise, bind_raise. unfold lift.
  by rewrite defineFILEandRANK_too_wide.
Qed.

Lemma Board_init_too_wide_witness :
  Board_init 27 1 world0 = Raise IndexError.
Proof. apply Board_init_too_wide. lia. Defined.

Lemma Square_init_lists_cases fl rl (file rank : nat) (self : bid) :
  Square_init (TList fl) (TList rl) file rank self = Raise IndexError \/
  exists sq, Square_init (TList fl) (TList rl) file rank self = Ok sq.
Proof.
  unfold Square_init.
  destruct (fl !! file) as [x|] eqn:Hx.
  - destruct (rl !! rank) as [y|] eqn:Hy.
    + rewrite (convert_lists _ _ _ _ _ _ Hx Hy). simpl. eauto.
    + rewrite (convert_lists_rank_range _ _ _ _ _ Hx); [by left|].
      by apply lookup_ge_None_1.
  - rewrite convert_lists_file_range; [by left|]. by apply lookup_ge_None_1.
Qed.

Lemma Board_init_default_raise (w : World) (fl rl : list string) :
  FILE w = TList fl -> RANK w = TList rl ->
  (length fl < 8 \/ length rl < 8)%nat ->
  Board_init 8 8 w = Raise IndexError.
Proof.
  intros HF HR Hsmall. unfold Board_init.
  destruct (decide (8%nat <> 8%nat \/ 8%nat <> 8%nat)) as [[?|?]|_]; [done..|].
  unfold mbind, M_bind, mret, M_ret, get_world, lift. rewrite HF, HR.
  rewrite (collect_raise _ _ IndexError); [done| |].
  - intros file _. apply collect_cases. intros rank _.
    apply Square_init_lists_cases.
  - destruct (decide (length fl < 8)%nat) as [Hf|Hf].
    + exists (length fl). split; [by apply elem_of_range|].
      apply collect_raise.
      * intros rank _. apply Square_init_lists_cases.
      * exists 0%nat. split; [apply elem_of_range; lia|].
        unfold Square_init. by rewrite convert_lists_file_range.
    + exists 0%nat. split; [apply elem_of_range; lia|].
      destruct (lookup_lt_is_Some_2 fl 0 ltac:(lia)) as [x Hx].
      apply collect_raise.
      * intros rank _. apply Square_init_lists_cases.
      * exists (length rl). split; [apply elem_of_range; lia|].
        unfold Square_init.
        by rewrite (convert_lists_rank_range _ _ _ _ _ Hx).
Qed.

(** X10. Once a board of fewer than 8 files or fewer than 8 ranks has been
    built, the tables it leaves make every later 8x8 construction fail:
    [Board()] raises IndexError, and so do the three scenario
    builders. *)
Theorem small_board_breaks_default (w : World) (numFiles numRanks : nat)
  (board : bid) (w' : World) :
  (numFiles < 8 \/ numRanks < 8)%nat ->
  Board_init numFiles numRanks w = Ok (board, w') ->
  Board_init 8 8 w' = Raise IndexError /\
  makeStandardBoard w' = Raise IndexError /\
  (forall rookColor, makeTwoRooksEndgameBoard rookColor w' = Raise IndexError) /\
  (forall queenColor, makeQueenEndgameBoard queenColor w' = Raise IndexError).
Proof.
  intros Hsmall Hinit.
  assert (numFiles <= 26)%nat as Hw.
  { destruct (decide (numFiles <= 26)%nat) as [|Hgt]; [done|].
    rewrite Board_init_too_wide in Hinit by lia. discriminate. }
  rewrite Board_init_other in Hinit by (done || lia).
  injection Hinit as <- <-.
  assert (Board_init 8 8
    (mkWorld (TList (take numFiles (chars alpha)))
       (TList (py_str <$> reverse (range numRanks))) (heap_pieces w)
       (heap_boards w ++
        [fresh_board (TList (take numFiles (chars alpha)))
           (TList (py_str <$> reverse (range numRanks)))
           (length (heap_boards w)) numFiles numRanks]) (stdout w))
    = Raise IndexError) as Hraise.
  { eapply Board_init_default_raise; [reflexivity..|].
    rewrite length_take, length_chars_alpha, length_fmap, length_reverse,
      length_range. lia. }
  split; [exact Hraise|].
  split; [|split; intros c].
  - unfold makeStandardBoard. by apply bind_raise.
  - unfold makeTwoRooksEndgameBoard. by apply bind_raise.
  - unfold makeQueenEndgameBoard. by apply bind_raise.
Qed.

Lemma small_board_breaks_default_witness :
  makeStandardBoard (exec (Board_init 3 3) world0) = Raise IndexError.
Proof.
  apply (small_board_breaks_default world0 3 3 0%nat);
    [left; lia | reflexivity].
Defined.

(** ** Links between squares and pieces *)

Lemma put_square_run w self sq sq' :
  square_at w self = Some sq ->
  put_square self sq' w = Ok (tt, store_square w self sq').
Proof.
  destruct self as [[board file] rank]. intros H.
  apply square_at_inv in H as (b & row & Hb & Hrow & Hsq).
  unfold put_square, store_square, board_at. run. rewrite Hb. done.
Qed.

Lemma square_at_store_square w self sq sq' :
  square_at w self = Some sq ->
  square_at (store_square w self sq') self = Some sq'.
Proof.
  destruct self as [[board file] rank]. intros H.
  apply square_at_inv in H as (b & row & Hb & Hrow & Hsq).
  unfold store_square, board_at, square_at. rewrite Hb. simpl.
  rewrite list_lookup_insert_eq by (by eapply lookup_lt_Some). simpl.
  unfold grid_set. rewrite Hrow.
  rewrite list_lookup_insert_eq by (by eapply lookup_lt_Some). simpl.
  rewrite list_lookup_insert_eq by (by eapply lookup_lt_Some). done.
Qed.

Lemma square_at_store_square_ne w self sq' other :
  other <> self ->
  square_at (store_square w self sq') other = square_at w other.
Proof.
  destruct self as [[board file] rank], other as [[board2 file2] rank2].
  intros Hne. unfold store_square, square_at, board_at. simpl.
  destruct (decide (board2 = board)) as [->|Hb];
    [|by rewrite list_lookup_insert_ne].
  destruct (heap_boards w !! board) as [b|] eqn:Hbd.
  2:{ rewrite list_insert_ge; [by rewrite Hbd|]. by apply lookup_ge_None_1. }
  rewrite list_lookup_insert_eq by (by eapply lookup_lt_Some). simpl.
  unfold grid_set.
  destruct (squares b !! file) as [row|] eqn:Hrow; [|done].
  destruct (decide (file2 = file)) as [->|Hf];
    [|by rewrite list_lookup_insert_ne].
  rewrite list_lookup_insert_eq by (by eapply lookup_lt_Some).
  rewrite Hrow. simpl.
  rewrite list_lookup_insert_ne; [done|]. congruence.
Qed.

Lemma set_piece_run w self sq p po :
  square_at w self = Some sq -> heap_pieces w !! p = Some po ->
  set_piece self (Some p) w
  = Ok (tt, store_piece (store_square w self (with_piece (Some p) sq)) p
              (with_square (Some self) po)).
Proof.
  intros Hsq Hp. unfold set_piece.
  rewrite (bind_ok _ _ _ _ _ (get_square_ok _ _ _ Hsq)).
  rewrite (bind_ok _ _ _ _ _ (put_square_run _ _ _ _ Hsq)).
  unfold store_piece. destruct self as [[board file] rank]. run.
  rewrite Hp. done.
Qed.

Lemma remove_piece_run w self sq p po :
  square_at w self = Some sq -> sq_piece sq = Some p ->
  heap_pieces w !! p = Some po ->
  remove_piece self w
  = Ok (tt, store_square (store_piece w p (with_square None po)) self
              (with_piece None sq)).
Proof.
  intros Hsq Hocc Hp. unfold remove_piece.
  rewrite (bind_ok _ _ _ _ _ (get_square_ok _ _ _ Hsq)), Hocc.
  assert (square_at (store_piece w p (with_square None po)) self = Some sq)
    as Hsq1 by (unfold store_piece; by rewrite square_at_heap_pieces).
  run. rewrite Hp. simpl.
  change (mkWorld (FILE w) (RANK w) (<[p:=with_square None po]> (heap_pieces w))
            (heap_boards w) (stdout w))
    with (store_piece w p (with_square None po)).
  rewrite (get_square_ok _ _ _ Hsq1).
  by rewrite (put_square_run _ _ _ _ Hsq1).
Qed.

(** X11. [set_piece] writes the two ends of the new link and nothing
    else: every other piece and every other square is untouched, so a
    displaced occupant keeps its back-reference to the square, and a
    piece that stood on another square still stands there as well; the
    flat list and the indexes of every board are unchanged; with None as
    the piece it raises AttributeError. *)
Theorem set_piece_leaves_old_links (w : World) (self : sqref) (sq : Square)
  (p : pid) (po : Piece) :
  square_at w self = Some sq -> heap_pieces w !! p = Some po ->
  exists w', set_piece self (Some p) w = Ok (tt, w') /\
    (forall q, q <> p -> heap_pieces w' !! q = heap_pieces w !! q) /\
    (forall other, other <> self -> square_at w' other = square_at w other) /\
    (forall p0 po0, sq_piece sq = Some p0 -> p0 <> p ->
       heap_pieces w !! p0 = Some po0 -> piece_square po0 = Some self ->
       piece_square <$> heap_pieces w' !! p0 = Some (Some self)) /\
    (forall old sq_old, piece_square po = Some old -> old <> self ->
       square_at w old = Some sq_old -> sq_piece sq_old = Some p ->
       sq_piece <$> square_at w' old = Some (Some p)) /\
    (forall board, pieces (board_at w' board) = pieces (board_at w board) /\
       piece_lists (board_at w' board) = piece_lists (board_at w board)) /\
    set_piece self None w = Raise AttributeError.
Proof.
  intros Hsq Hp. eexists. split; [exact (set_piece_run _ _ _ _ _ Hsq Hp)|].
  assert (forall q, q <> p ->
    heap_pieces (store_piece (store_square w self (with_piece (Some p) sq)) p
                   (with_square (Some self) po)) !! q = heap_pieces w !! q)
    as Hpieces.
  { intros q Hq. destruct self as [[board file] rank]. simpl.
    by rewrite list_lookup_insert_ne. }
  assert (forall other, other <> self ->
    square_at (store_piece (store_square w self (with_piece (Some p) sq)) p
                 (with_square (Some self) po)) other = square_at w other)
    as Hsquares.
  { intros other Hne. unfold store_piece.
    rewrite (square_at_heap_pieces
               (store_square w self (with_piece (Some p) sq))).
    by apply square_at_store_square_ne. }
  split; [exact Hpieces|]. split; [exact Hsquares|].
  split; [|split; [|split]].
  - intros p0 po0 _ Hne Hp0 Hback. rewrite (Hpieces p0 Hne), Hp0. simpl.
    by rewrite Hback.
  - intros old sq_old _ Hne Hold Hocc. rewrite (Hsquares old Hne), Hold.
    simpl. by rewrite Hocc.
  - intros board. destruct self as [[sb file] rank].
    apply square_at_inv in Hsq as (b & row & Hb & _ & _).
    unfold store_piece, store_square, board_at. simpl. rewrite Hb.
    destruct (decide (board = sb)) as [->|Hne].
    + rewrite list_lookup_insert_eq by (by eapply lookup_lt_Some).
      by rewrite Hb.
    + by rewrite list_lookup_insert_ne.
  - unfold set_piece.
    rewrite (bind_ok _ _ _ _ _ (get_square_ok _ _ _ Hsq)).
    by rewrite (bind_ok _ _ _ _ _ (put_square_run _ _ _ _ Hsq)).
Qed.

Lemma set_piece_leaves_old_links_witness :
  exists w', set_piece (0, 4, 7)%nat (Some 0%nat) one_king_world = Ok (tt, w') /\
    square_at w' (0, 4, 0)%nat = square_at one_king_world (0, 4, 0)%nat /\
    set_piece (0, 4, 7)%nat None one_king_world = Raise AttributeError.
Proof.
  destruct (set_piece_leaves_old_links one_king_world (0, 4, 7)%nat
              (fresh_square FILE0 RANK0 0%nat 4%nat 7%nat) 0%nat
              (mkPiece "King" "white" None))
    as (w' & Hrun & _ & Hsq & _ & _ & _ & Hnone).
  - vm_compute. reflexivity.
  - vm_compute. reflexivity.
  - exists w'. split; [exact Hrun|]. split; [|exact Hnone].
    apply Hsq. discriminate.
Defined.

Lemma grid_set_grid_set g file rank sq1 sq2 :
  grid_set (grid_set g file rank sq1) file rank sq2 = grid_set g file rank sq2.
Proof.
  unfold grid_set. destruct (g !! file) as [row|] eqn:Hrow.
  - rewrite list_lookup_insert_eq by (by eapply lookup_lt_Some).
    by rewrite !list_insert_insert_eq.
  - by rewrite Hrow.
Qed.

Lemma grid_set_id g file rank row sq :
  g !! file = Some row -> row !! rank = Some sq ->
  grid_set g file rank sq = g.
Proof.
  intros Hrow Hsq. unfold grid_set. rewrite Hrow.
  by rewrite (list_insert_id row), list_insert_id.
Qed.

(** X12. On an empty square, with a piece that stands nowhere,
    [set_piece] followed by [remove_piece] restores the store
    exactly. *)
Theorem set_then_remove_restores (w : World) (self : sqref) (sq : Square)
  (p : pid) (po : Piece) :
  square_at w self = Some sq -> sq_piece sq = None ->
  heap_pieces w !! p = Some po -> piece_square po = None ->
  (set_piece self (Some p);; remove_piece self) w = Ok (tt, w).
Proof.
  intros Hsq Hemp Hp Hfree.
  rewrite (bind_ok _ _ _ _ _ (set_piece_run _ _ _ _ _ Hsq Hp)).
  set (w1 := store_piece _ _ _).
  assert (square_at w1 self = Some (with_piece (Some p) sq)) as Hsq1.
  { unfold w1, store_piece.
    rewrite (square_at_heap_pieces
               (store_square w self (with_piece (Some p) sq))).
    by eapply square_at_store_square. }
  assert (heap_pieces w1 !! p = Some (with_square (Some self) po)) as Hp1.
  { unfold w1. destruct self as [[board file] rank]. simpl.
    apply list_lookup_insert_eq. by eapply lookup_lt_Some. }
  rewrite (remove_piece_run _ _ _ _ _ Hsq1 eq_refl Hp1).
  do 2 f_equal. unfold w1. clear w1 Hsq1 Hp1.
  destruct self as [[board file] rank].
  apply square_at_inv in Hsq as (b & row & Hb & Hrow & Hsqr).
  unfold store_square, store_piece, board_at. simpl. rewrite Hb.
  rewrite list_lookup_insert_eq by (by eapply lookup_lt_Some). simpl.
  rewrite !list_insert_insert_eq, grid_set_grid_set.
  destruct w as [F R hp hb out], b as [nf nr ps pl g wk bk],
    sq as [sf sr sb sc sp sn ss], po as [pn pc psq]. simpl in *. subst.
  f_equal.
  - by apply list_insert_id.
  - apply list_insert_id. etransitivity; [exact Hb|].
    f_equal. unfold with_squares. simpl.
    f_equal. symmetry. by eapply grid_set_id.
Qed.

Lemma set_then_remove_restores_witness :
  (set_piece (0, 4, 7)%nat (Some 0%nat);; remove_piece (0, 4, 7)%nat)
    one_king_world = Ok (tt, one_king_world).
Proof.
  apply (set_then_remove_restores one_king_world (0, 4, 7)%nat
           (fresh_square FILE0 RANK0 0%nat 4%nat 7%nat) 0%nat
           (mkPiece "King" "white" None)); vm_compute; reflexivity.
Defined.

(** X13. [has_friendly_piece] and [has_enemy_piece]: on an empty square
    both answer False whatever the argument; on an occupied square, with
    a piece as argument, they answer the comparison of the two colors
    and its negation, so exactly one of them is True; on an occupied
    square with None as argument both raise AttributeError. *)
Theorem friendly_enemy_complement (h : list Piece) (self : Square)
  (piece : option pid) :
  (has_piece self = false ->
     has_friendly_piece h self piece = Ok false /\
     has_enemy_piece h self piece = Ok false) /\
  (forall p po q qo, piece = Some p -> h !! p = Some po ->
     get_piece self = Some q -> h !! q = Some qo ->
     has_friendly_piece h self piece
       = Ok (bool_decide (piece_color po = piece_color qo)) /\
     has_enemy_piece h self piece
       = Ok (negb (bool_decide (piece_color po = piece_color qo)))) /\
  (has_piece self = true -> piece = None ->
     has_friendly_piece h self piece = Raise AttributeError /\
     has_enemy_piece h self piece = Raise AttributeError).
Proof.
  unfold has_friendly_piece, has_enemy_piece. split; [|split].
  - by intros ->.
  - intros p po q qo -> Hp Hq Hqo.
    assert (has_piece self = true) as ->
      by (unfold has_piece, get_piece in *; by rewrite Hq).
    rewrite Hq. simpl.
    rewrite (get_color_ok _ _ _ Hp), (get_color_ok _ _ _ Hqo). simpl.
    destruct (decide (piece_color po = piece_color qo)) as [He|He].
    + rewrite bool_decide_true by done. simpl.
      by destruct (decide (piece_color po ≠ piece_color qo)).
    + rewrite bool_decide_false by done. simpl.
      by destruct (decide (piece_color po ≠ piece_color qo)).
  - by intros -> ->.
Qed.

Lemma friendly_enemy_complement_witness :
  has_friendly_piece (heap_pieces standard_world)
    (mkSquare 0 7 0%nat "dark" (Some 16%nat) "a1" false) (Some 0%nat)
  = Ok true /\
  has_enemy_piece (heap_pieces standard_world)
    (mkSquare 0 7 0%nat "dark" (Some 16%nat) "a1" false) (Some 0%nat)
  = Ok false.
Proof.
  destruct (friendly_enemy_complement (heap_pieces standard_world)
              (mkSquare 0 7 0%nat "dark" (Some 16%nat) "a1" false)
              (Some 0%nat)) as (_ & Hocc & _).
  apply (Hocc 0%nat (mkPiece "Pawn" "white" (Some (0, 0, 6)%nat))
              16%nat (mkPiece "Rook" "white" (Some (0, 0, 7)%nat)));
    vm_compute; reflexivity.
Defined.

(** ** More on update_pieces *)

Lemma list_set_perm (l k : list pid) :
  NoDup k -> (forall q, q ∈ l <-> q ∈ k) -> list_set l ≡ₚ k.
Proof.
  intros Hk Hlk. apply NoDup_Permutation; [apply NoDup_list_set|done|].
  intros q. by rewrite elem_of_list_set.
Qed.

Lemma list_set_members (l k : list pid) :
  (forall q, q ∈ l <-> q ∈ k) -> NoDup k ->
  length (list_set l) = length k.
Proof. intros Hlk Hk. by apply Permutation_length, list_set_perm. Qed.

(** X14. Once the flat list is non-empty, [update_pieces()] without
    arguments only de-duplicates the flat list: its members, the
    indexes, the squares and the kings are unchanged (the squares are
    not looked at); a second such call returns a flat list with the same
    members and the same length. *)
Theorem update_pieces_noargs_incremental (h : list Piece) (b : Board) :
  pieces b <> [] ->
  exists b', update_pieces_board h [] [] b = Ok b' /\
    (forall q, q ∈ pieces b' <-> q ∈ pieces b) /\
    NoDup (pieces b') /\
    piece_lists b' = piece_lists b /\ squares b' = squares b /\
    white_king b' = white_king b /\ black_king b' = black_king b /\
    exists b'', update_pieces_board h [] [] b' = Ok b'' /\
      (forall q, q ∈ pieces b'' <-> q ∈ pieces b') /\
      NoDup (pieces b'') /\
      length (pieces b'') = length (pieces b') /\
      piece_lists b'' = piece_lists b' /\ squares b'' = squares b'.
Proof.
  intros Hne.
  assert (forall b0, pieces b0 <> [] ->
            update_pieces_board h [] [] b0
            = Ok (with_pieces (list_set (pieces b0)) b0)) as Hstep.
  { intros b0 H0. unfold update_pieces_board.
    destruct (decide (pieces b0 = [])); [done|].
    destruct (decide (@nil pid <> [])); [done|]. reflexivity. }
  exists (with_pieces (list_set (pieces b)) b).
  split; [by apply Hstep|]. simpl.
  split; [intros q; apply elem_of_list_set|].
  split; [apply NoDup_list_set|].
  do 4 (split; [done|]).
  eexists. split.
  { apply Hstep. simpl. intros Hnil. by apply list_set_nil_inv in Hnil. }
  simpl. split; [intros q; apply elem_of_list_set|].
  split; [apply NoDup_list_set|]. split; [|done].
  apply list_set_members; [done|apply NoDup_list_set].
Qed.

Lemma update_pieces_noargs_incremental_witness :
  exists b' b'',
    update_pieces_board (heap_pieces standard_world) [] []
      (board_at standard_world 0%nat) = Ok b' /\
    update_pieces_board (heap_pieces standard_world) [] [] b' = Ok b'' /\
    length (pieces b'') = length (pieces b').
Proof.
  destruct (update_pieces_noargs_incremental (heap_pieces standard_world)
              (board_at standard_world 0%nat))
    as (b' & H1 & _ & _ & _ & _ & _ & _ & b'' & H2 & _ & _ & H3 & _).
  - intros H. vm_compute in H. discriminate H.
  - exists b', b''. split; [exact H1|]. split; [exact H2 | exact H3].
Defined.

Lemma add_piece_index h b p po :
  h !! p = Some po ->
  valid_piece h (piece_lists b) p ->
  exists b', add_piece h p b = Ok b' /\ pieces b' = pieces b ++ [p] /\
    squares b' = squares b /\
    (forall l, index_get (piece_lists b) (piece_name po) (piece_color po) = Ok l ->
       index_get (piece_lists b') (piece_name po) (piece_color po)
       = Ok (list_set (l ++ [p]))) /\
    (forall name color, (name, color) <> (piece_name po, piece_color po) ->
       index_get (piece_lists b') name color
       = index_get (piece_lists b) name color).
Proof.
  intros Hp (po' & Hp' & Hk). rewrite Hp in Hp'. injection Hp' as <-.
  unfold add_piece.
  rewrite (get_name_ok _ _ _ Hp), (get_color_ok _ _ _ Hp). simpl.
  change (tracked (with_pieces (pieces b ++ [p]) b) (piece_name po))
    with (tracked b (piece_name po)).
  destruct (tracked b (piece_name po)) eqn:Htr.
  - apply tracked_spec in Htr. destruct (Hk Htr) as (l & Hget).
    rewrite Hget. simpl.
    destruct (index_put_get _ _ _ _ (l ++ [p]) Hget) as (pl & Hput & Hget1).
    rewrite Hput. simpl. rewrite Hget1. simpl.
    destruct (index_put_get _ _ _ _ (list_set (l ++ [p])) Hget1)
      as (pl' & Hput' & Hget').
    rewrite Hput'. simpl. eexists. split; [reflexivity|]. simpl.
    split; [done|]. split; [done|]. split.
    + intros l2 [= <-]. exact Hget'.
    + intros name color Hne.
      rewrite (index_put_get_ne _ _ _ _ _ _ _ Hput' Hne).
      by rewrite (index_put_get_ne _ _ _ _ _ _ _ Hput Hne).
  - eexists. split; [reflexivity|]. simpl.
    split; [done|]. split; [done|]. split; [|done].
    intros l Hl. apply index_get_inv in Hl as (d & Hd & _).
    assert (tracked b (piece_name po) = true) as Ht
      by (apply tracked_spec; eauto).
    congruence.
Qed.

(** X15. In incremental mode, adding one piece leaves the flat list
    duplicate-free with the piece in it: its length is unchanged when
    the piece was listed already and grows by one otherwise; the index
    of the type and color of the piece, when there is one, ends
    duplicate-free with the piece in it. *)
Theorem add_incremental (h : list Piece) (b : Board) (p : pid) (po : Piece) :
  pieces b <> [] -> NoDup (pieces b) ->
  h !! p = Some po -> valid_piece h (piece_lists b) p ->
  exists b', update_pieces_board h [p] [] b = Ok b' /\
    NoDup (pieces b') /\
    (forall q, q ∈ pieces b' <-> q = p \/ q ∈ pieces b) /\
    (p ∈ pieces b -> length (pieces b') = length (pieces b)) /\
    (p ∉ pieces b -> length (pieces b') = S (length (pieces b))) /\
    squares b' = squares b /\
    (forall l, index_get (piece_lists b) (piece_name po) (piece_color po) = Ok l ->
       exists l', index_get (piece_lists b') (piece_name po) (piece_color po)
                  = Ok l' /\ NoDup l' /\
                  (forall q, q ∈ l' <-> q = p \/ q ∈ l)).
Proof.
  intros Hne Hnd Hp Hv.
  destruct (add_piece_index h b p po Hp Hv)
    as (b1 & Hadd & Hps & Hsq & Hidx & _).
  unfold update_pieces_board.
  destruct (decide (pieces b = [])); [done|].
  destruct (decide ([p] <> [])) as [_|Hn]; [|by destruct Hn].
  simpl. rewrite Hadd. simpl.
  destruct (decide (@nil pid <> [])); [done|].
  eexists. split; [reflexivity|]. simpl. rewrite Hps.
  split; [apply NoDup_list_set|].
  split; [intros q; rewrite elem_of_list_set, elem_of_app, list_elem_of_singleton;
          tauto|].
  split; [|split; [|split; [done|]]].
  - intros Hin. apply Permutation_length, list_set_perm; [done|].
    intros q. rewrite elem_of_app, list_elem_of_singleton.
    split; [|by left]. intros [Hq|Hq]; [done|by subst q].
  - intros Hnin.
    assert (NoDup (pieces b ++ [p])) as Hnd2.
    { apply NoDup_app. split; [done|]. split; [|apply NoDup_singleton].
      intros q Hq Hq2%list_elem_of_singleton. by subst q. }
    rewrite (Permutation_length
               (list_set_perm _ (pieces b ++ [p]) Hnd2 (fun q => reflexivity _))).
    rewrite length_app. simpl. lia.
  - intros l Hl. rewrite (Hidx l Hl). eexists. split; [reflexivity|].
    split; [apply NoDup_list_set|].
    intros q. rewrite elem_of_list_set, elem_of_app, list_elem_of_singleton.
    tauto.
Qed.

Lemma add_incremental_witness :
  exists b',
    update_pieces_board (heap_pieces standard_world) [16%nat] []
      (board_at standard_world 0%nat) = Ok b' /\
    length (pieces b') = length (pieces (board_at standard_world 0%nat)).
Proof.
  destruct (add_incremental (heap_pieces standard_world)
              (board_at standard_world 0%nat) 16%nat
              (mkPiece "Rook" "white" (Some (0, 0, 7)%nat)))
    as (b' & H1 & _ & _ & H2 & _).
  - intros H. vm_compute in H. discriminate H.
  - apply (bool_decide_unpack _). vm_compute. exact I.
  - vm_compute. reflexivity.
  - eexists. split; [vm_compute; reflexivity|].
    intros _. eexists. vm_compute. reflexivity.
  - exists b'. split; [exact H1|]. apply H2.
    apply (bool_decide_unpack _). vm_compute. exact I.
Defined.

Lemma is_kind_spec h name color p po :
  h !! p = Some po ->
  is_kind h name color p = true
  <-> (piece_name po, piece_color po) = (name, color).
Proof.
  intros Hp. unfold is_kind. rewrite Hp.
  rewrite bool_decide_eq_true. split.
  - by intros [-> ->].
  - by intros [= -> ->].
Qed.

Lemma scan_square_index h sq b p name color l0 :
  sq_piece sq = Some p -> valid_piece h (piece_lists b) p ->
  index_get (piece_lists b) name color = Ok l0 ->
  exists b', scan_square h sq b = Ok b' /\
    index_get (piece_lists b') name color
    = Ok (l0 ++ filter (fun q => is_kind h name color q = true) [p]) /\
    (forall q, valid_piece h (piece_lists b) q ->
               valid_piece h (piece_lists b') q).
Proof.
  intros Hsq (po & Hp & Hk) Hl0. unfold scan_square. rewrite Hsq.
  rewrite (get_name_ok _ _ _ Hp), (get_color_ok _ _ _ Hp). simpl.
  change (tracked (with_pieces (pieces b ++ [p]) b) (piece_name po))
    with (tracked b (piece_name po)).
  pose proof (is_kind_spec h name color p po Hp) as Hkind.
  rewrite filter_cons, filter_nil.
  destruct (tracked b (piece_name po)) eqn:Htr.
  - apply tracked_spec in Htr. destruct (Hk Htr) as (l & Hget).
    rewrite Hget. simpl.
    destruct (index_put_get _ _ _ _ (l ++ [p]) Hget) as (pl & Hput & Hget1).
    rewrite Hput. simpl. eexists. split; [reflexivity|]. simpl. split.
    + destruct (decide (is_kind h name color p = true)) as [Hy|Hn].
      * apply Hkind in Hy. injection Hy as <- <-.
        rewrite Hl0 in Hget. by injection Hget as <-.
      * rewrite app_nil_r, <- Hl0.
        apply (index_put_get_ne _ _ _ _ _ _ _ Hput).
        intros Heq. apply Hn, Hkind. by symmetry.
    + intros q Hq. exact (index_put_valid h _ _ _ _ _ _ q Hget Hput Hq).
  - eexists. split; [reflexivity|]. split; [|done].
    destruct (decide (is_kind h name color p = true)) as [Hy|Hn].
    + apply Hkind in Hy. injection Hy as <- <-.
      apply index_get_inv in Hl0 as (d & Hd & _).
      assert (tracked b (piece_name po) = true) as Ht
        by (apply tracked_spec; eauto).
      congruence.
    + by rewrite app_nil_r.
Qed.

Lemma scan_squares_index h name color sqs : forall b l0,
  Forall (valid_piece h (piece_lists b)) (omap sq_piece sqs) ->
  index_get (piece_lists b) name color = Ok l0 ->
  exists b', for_board (scan_square h) sqs b = Ok b' /\
    index_get (piece_lists b') name color
    = Ok (l0 ++ filter (fun q => is_kind h name color q = true)
                  (omap sq_piece sqs)).
Proof.
  induction sqs as [|sq sqs IH]; intros b l0 Hall Hl0; simpl.
  - exists b. by rewrite filter_nil, app_nil_r.
  - simpl in Hall. destruct (sq_piece sq) as [p|] eqn:Hsq.
    + apply Forall_cons in Hall as [Hp Hall].
      destruct (scan_square_index h sq b p name color l0 Hsq Hp Hl0)
        as (b1 & Hscan & Hidx & Hval).
      rewrite Hscan. simpl.
      destruct (IH b1 _ (Forall_impl _ _ _ Hall Hval) Hidx)
        as (b' & Hfold & Hidx').
      exists b'. split; [done|]. rewrite Hidx', <- app_assoc.
      by rewrite <- filter_app.
    + assert (scan_square h sq b = Ok b) as ->
        by (unfold scan_square; by rewrite Hsq).
      simpl. by apply IH.
Qed.

(** X16. A full scan appends to each tracked index, after what the index
    held already, the occupants of that type and color in scan order,
    one entry per occupied square: unlike the flat list, the index is
    not de-duplicated. *)
Theorem full_scan_index (h : list Piece) (b : Board) (name color : string)
  (l0 : list pid) :
  pieces b = [] ->
  Forall (valid_piece h (piece_lists b)) (occupants b) ->
  index_get (piece_lists b) name color = Ok l0 ->
  exists b', update_pieces_board h [] [] b = Ok b' /\
    index_get (piece_lists b') name color
    = Ok (l0 ++ filter (fun q => is_kind h name color q = true)
                  (occupants b)).
Proof.
  intros Hemp Hall Hl0. unfold update_pieces_board.
  destruct (decide (pieces b = [])); [|done].
  destruct (scan_squares_index h name color (concat (squares b)) b l0 Hall Hl0)
    as (b' & -> & Hidx).
  simpl. eexists. split; [reflexivity|]. exact Hidx.
Qed.

Lemma full_scan_index_witness :
  exists b',
    update_pieces_board (heap_pieces emptied_world) [] []
      (board_at emptied_world 0%nat) = Ok b' /\
    index_get (piece_lists b') "Rook" "white" = Ok [0; 1]%nat.
Proof.
  destruct (full_scan_index (heap_pieces emptied_world)
              (board_at emptied_world 0%nat) "Rook" "white" [])
    as (b' & Hupd & Hidx).
  - vm_compute. reflexivity.
  - assert (occupants (board_at emptied_world 0%nat) = [0; 3; 2; 1]%nat) as ->
      by (vm_compute; reflexivity).
    repeat (apply Forall_cons; split;
      [eexists; split; [vm_compute; reflexivity|];
       intros Hs;
       first [ solve [vm_compute; eauto]
             | destruct Hs as [x Hx]; vm_compute in Hx; discriminate ]|]).
    constructor.
  - vm_compute. reflexivity.
  - exists b'. split; [exact Hupd|]. rewrite Hidx. vm_compute. reflexivity.
Defined.

Lemma index_put_nodup pl name color l0 l pl' :
  index_get pl name color = Ok l0 ->
  index_put pl name color l = Ok pl' ->
  NoDup l -> indexes_nodup pl -> indexes_nodup pl'.
Proof.
  intros Hget Hput Hl Hinv name' color' l' Hl'.
  destruct (decide ((name', color') = (name, color))) as [[= -> ->]|Hne].
  - destruct (index_put_get _ _ _ _ l Hget) as (pl2 & Hput2 & Hget2).
    rewrite Hput in Hput2. injection Hput2 as <-.
    rewrite Hget2 in Hl'. by injection Hl' as <-.
  - rewrite (index_put_get_ne _ _ _ _ _ _ _ Hput Hne) in Hl'. eauto.
Qed.

Lemma index_put_nodup_other pl name color l0 l pl' :
  index_get pl name color = Ok l0 ->
  index_put pl name color l = Ok pl' ->
  forall name' color' l', (name', color') <> (name, color) ->
    index_get pl' name' color' = Ok l' -> index_get pl name' color' = Ok l'.
Proof.
  intros Hget Hput name' color' l' Hne Hl'.
  by rewrite (index_put_get_ne _ _ _ _ _ _ _ Hput Hne) in Hl'.
Qed.

Lemma add_piece_nodup h p b b' :
  add_piece h p b = Ok b' ->
  indexes_nodup (piece_lists b) -> indexes_nodup (piece_lists b').
Proof.
  unfold add_piece.
  destruct (get_name h p) as [name|]; simpl; [|done].
  destruct (get_color h p) as [color|]; simpl; [|done].
  destruct (tracked _ name).
  - destruct (index_get (piece_lists b) name color) as [l|] eqn:Hget;
      simpl; [|done].
    destruct (index_put (piece_lists b) name color (l ++ [p])) as [pl|]
      eqn:Hput; simpl; [|done].
    destruct (index_get pl name color) as [l'|] eqn:Hget'; simpl; [|done].
    destruct (index_put pl name color (list_set l')) as [pl'|] eqn:Hput';
      simpl; [|done].
    intros [= <-] Hinv. simpl.
    intros name' color' k Hk.
    destruct (decide ((name', color') = (name, color))) as [[= -> ->]|Hne].
    + destruct (index_put_get _ _ _ _ (list_set l') Hget')
        as (pl2 & Hput2 & Hget2).
      rewrite Hput' in Hput2. injection Hput2 as <-.
      rewrite Hget2 in Hk. injection Hk as <-. apply NoDup_list_set.
    + apply (Hinv name' color').
      apply (index_put_nodup_other _ _ _ _ _ _ Hget Hput _ _ _ Hne).
      by apply (index_put_nodup_other _ _ _ _ _ _ Hget' Hput' _ _ _ Hne).
  - by intros [= <-].
Qed.

Lemma del_piece_nodup h p b b' :
  del_piece h p b = Ok b' ->
  indexes_nodup (piece_lists b) -> indexes_nodup (piece_lists b').
Proof.
  unfold del_piece.
  destruct (get_name h p) as [name|]; simpl; [|done].
  destruct (get_color h p) as [color|]; simpl; [|done].
  destruct (list_remove p (pieces b)) as [ps|]; simpl; [|done].
  destruct (tracked _ name).
  - destruct (index_get (piece_lists b) name color) as [l|] eqn:Hget;
      simpl; [|done].
    destruct (list_remove p l) as [l1|]; simpl; [|done].
    destruct (index_put (piece_lists b) name color l1) as [pl|]
      eqn:Hput; simpl; [|done].
    destruct (index_get pl name color) as [l'|] eqn:Hget'; simpl; [|done].
    destruct (index_put pl name color (list_set l')) as [pl'|] eqn:Hput';
      simpl; [|done].
    intros [= <-] Hinv. simpl.
    intros name' color' k Hk.
    destruct (decide ((name', color') = (name, color))) as [[= -> ->]|Hne].
    + destruct (index_put_get _ _ _ _ (list_set l') Hget')
        as (pl2 & Hput2 & Hget2).
      rewrite Hput' in Hput2. injection Hput2 as <-.
      rewrite Hget2 in Hk. injection Hk as <-. apply NoDup_list_set.
    + apply (Hinv name' color').
      apply (index_put_nodup_other _ _ _ _ _ _ Hget Hput _ _ _ Hne).
      by apply (index_put_nodup_other _ _ _ _ _ _ Hget' Hput' _ _ _ Hne).
  - by intros [= <-].
Qed.

Lemma for_board_nodup {A} (body : A -> Board -> result Board) (xs : list A) :
  (forall x b b', body x b = Ok b' ->
     indexes_nodup (piece_lists b) -> indexes_nodup (piece_lists b')) ->
  forall b b', for_board body xs b = Ok b' ->
    indexes_nodup (piece_lists b) -> indexes_nodup (piece_lists b').
Proof.
  intros Hbody. induction xs as [|x xs IH]; intros b b'; simpl.
  - by intros [= <-].
  - destruct (body x b) as [b1|] eqn:H1; simpl; [|done].
    intros H2 Hinv. eapply IH; eauto.
Qed.

(** X17. Every incremental call that returns leaves the flat list
    duplicate-free, and leaves every index duplicate-free when every
    index was so before the call. *)
Theorem incremental_keeps_nodup (h : list Piece) (b b' : Board)
  (pieces_set pieces_removed : list pid) :
  pieces b <> [] -> indexes_nodup (piece_lists b) ->
  update_pieces_board h pieces_set pieces_removed b = Ok b' ->
  NoDup (pieces b') /\ indexes_nodup (piece_lists b').
Proof.
  intros Hne Hinv. unfold update_pieces_board.
  destruct (decide (pieces b = [])); [done|].
  destruct (if decide (pieces_set ≠ []) then _ else _) as [b1|] eqn:H1;
    simpl; [|done].
  assert (indexes_nodup (piece_lists b1)) as Hinv1.
  { destruct (decide (pieces_set ≠ [])).
    - by apply (for_board_nodup _ _ (add_piece_nodup h) _ _ H1).
    - by injection H1 as <-. }
  destruct (if decide (pieces_removed ≠ []) then _ else _) as [b2|] eqn:H2;
    simpl; [|done].
  assert (indexes_nodup (piece_lists b2)) as Hinv2.
  { destruct (decide (pieces_removed ≠ [])).
    - by apply (for_board_nodup _ _ (del_piece_nodup h) _ _ H2).
    - by injection H2 as <-. }
  intros [= <-]. simpl. split; [apply NoDup_list_set|done].
Qed.

Lemma indexes_nodup_check pl :
  Forall (fun d : gmap string (list pid) =>
            Forall NoDup (map_to_list d).*2) (map_to_list pl).*2 ->
  indexes_nodup pl.
Proof.
  intros Hall name color l Hl.
  apply index_get_inv in Hl as (d & Hd & Hl).
  rewrite Forall_forall in Hall.
  assert (Forall NoDup (map_to_list d).*2) as Hd'.
  { apply Hall. apply list_elem_of_fmap. exists (name, d).
    split; [done|]. by apply elem_of_map_to_list. }
  rewrite Forall_forall in Hd'. apply Hd'.
  apply list_elem_of_fmap. exists (color, l).
  split; [done|]. by apply elem_of_map_to_list.
Qed.

Lemma incremental_keeps_nodup_witness :
  exists b',
    update_pieces_board (heap_pieces standard_world) [16; 16]%nat [17%nat]
      (board_at standard_world 0%nat) = Ok b' /\
    NoDup (pieces b') /\ indexes_nodup (piece_lists b').
Proof.
  eexists. split; [vm_compute; reflexivity|].
  apply (incremental_keeps_nodup (heap_pieces standard_world)
           (board_at standard_world 0%nat) _ [16; 16]%nat [17%nat]).
  - intros H. vm_compute in H. discriminate H.
  - apply indexes_nodup_check.
    apply (bool_decide_unpack _). vm_compute. exact I.
  - vm_compute. reflexivity.
Defined.

Lemma same_frame_refl b : same_frame b b.
Proof. by repeat split. Qed.

Lemma same_frame_trans b1 b2 b3 :
  same_frame b1 b2 -> same_frame b2 b3 -> same_frame b1 b3.
Proof.
  intros (H1 & H2 & H3 & H4) (H5 & H6 & H7 & H8).
  repeat split; congruence.
Qed.

Lemma scan_square_frame h sq b b' :
  scan_square h sq b = Ok b' -> same_frame b b'.
Proof.
  unfold scan_square. destruct (sq_piece sq) as [p|].
  - destruct (get_name h p) as [name|]; simpl; [|done].
    destruct (get_color h p) as [color|]; simpl; [|done].
    destruct (tracked _ name).
    + destruct (index_get _ _ _) as [l|]; simpl; [|done].
      destruct (index_put _ _ _ _) as [pl|]; simpl; [|done].
      intros [= <-]. by repeat split.
    + intros [= <-]. by repeat split.
  - intros [= <-]. apply same_frame_refl.
Qed.

Lemma add_piece_frame h p b b' :
  add_piece h p b = Ok b' -> same_frame b b'.
Proof.
  unfold add_piece.
  destruct (get_name h p) as [name|]; simpl; [|done].
  destruct (get_color h p) as [color|]; simpl; [|done].
  destruct (tracked _ name).
  - destruct (index_get _ _ _) as [l|]; simpl; [|done].
    destruct (index_put _ _ _ _) as [pl|]; simpl; [|done].
    destruct (index_get _ _ _) as [l'|]; simpl; [|done].
    destruct (index_put _ _ _ _) as [pl'|]; simpl; [|done].
    intros [= <-]. by repeat split.
  - intros [= <-]. by repeat split.
Qed.

Lemma del_piece_frame h p b b' :
  del_piece h p b = Ok b' -> same_frame b b'.
Proof.
  unfold del_piece.
  destruct (get_name h p) as [name|]; simpl; [|done].
  destruct (get_color h p) as [color|]; simpl; [|done].
  destruct (list_remove p (pieces b)) as [ps|]; simpl; [|done].
  destruct (tracked _ name).
  - destruct (index_get _ _ _) as [l|]; simpl; [|done].
    destruct (list_remove p l) as [l1|]; simpl; [|done].
    destruct (index_put _ _ _ _) as [pl|]; simpl; [|done].
    destruct (index_get _ _ _) as [l'|]; simpl; [|done].
    destruct (index_put _ _ _ _) as [pl'|]; simpl; [|done].
    intros [= <-]. by repeat split.
  - intros [= <-]. by repeat split.
Qed.

Lemma for_board_frame {A} (body : A -> Board -> result Board) (xs : list A) :
  (forall x b b', body x b = Ok b' -> same_frame b b') ->
  forall b b', for_board body xs b = Ok b' -> same_frame b b'.
Proof.
  intros Hbody. induction xs as [|x xs IH]; intros b b'; simpl.
  - intros [= <-]. apply same_frame_refl.
  - destruct (body x b) as [b1|] eqn:H1; simpl; [|done].
    intros H2. eapply same_frame_trans; eauto.
Qed.

Lemma update_pieces_board_frame h ps pr b b' :
  update_pieces_board h ps pr b = Ok b' -> same_frame b b'.
Proof.
  unfold update_pieces_board.
  destruct (decide (pieces b = [])).
  - destruct (for_board _ _ b) as [b1|] eqn:H1; simpl; [|done].
    intros [= <-]. apply (for_board_frame _ _ (scan_square_frame h)) in H1.
    destruct H1 as (?&?&?&?). by repeat split.
  - destruct (if decide (ps ≠ []) then _ else _) as [b1|] eqn:H1;
      simpl; [|done].
    assert (same_frame b b1) as Hf1.
    { destruct (decide (ps ≠ [])).
      - by apply (for_board_frame _ _ (add_piece_frame h)) in H1.
      - injection H1 as <-. apply same_frame_refl. }
    destruct (if decide (pr ≠ []) then _ else _) as [b2|] eqn:H2;
      simpl; [|done].
    assert (same_frame b1 b2) as Hf2.
    { destruct (decide (pr ≠ [])).
      - by apply (for_board_frame _ _ (del_piece_frame h)) in H2.
      - injection H2 as <-. apply same_frame_refl. }
    intros [= <-].
    destruct (same_frame_trans _ _ _ Hf1 Hf2) as (?&?&?&?). by repeat split.
Qed.

(** X18. A call of [update_pieces] that returns changes only the flat
    list and the indexes of its own board: the pieces with their
    back-references, the tables, the output, the other boards, every
    square of every board, the kings and the size stay as they were.  A
    piece reported as removed still stands on its square. *)
Theorem update_pieces_touches_lists_only (self : bid)
  (pieces_set pieces_removed : list pid) (w w' : World) :
  update_pieces self pieces_set pieces_removed w = Ok (tt, w') ->
  heap_pieces w' = heap_pieces w /\
  FILE w' = FILE w /\ RANK w' = RANK w /\ stdout w' = stdout w /\
  (forall other, other <> self ->
     heap_boards w' !! other = heap_boards w !! other) /\
  (forall sqr, square_at w' sqr = square_at w sqr) /\
  white_king (board_at w' self) = white_king (board_at w self) /\
  black_king (board_at w' self) = black_king (board_at w self) /\
  get_size (board_at w' self) = get_size (board_at w self).
Proof.
  unfold update_pieces. run.
  destruct (heap_boards w !! self) as [b|] eqn:Hb; simpl; [|done].
  destruct (update_pieces_board _ _ _ b) as [b'|] eqn:Hupd; simpl; [|done].
  intros [= <-]. simpl.
  destruct (update_pieces_board_frame _ _ _ _ _ Hupd) as (Hs & Hwk & Hbk & Hsz).
  pose proof (lookup_lt_Some _ _ _ Hb) as Hlt.
  do 4 (split; [done|]). split; [|split].
  - intros other Hne. by rewrite list_lookup_insert_ne.
  - intros [[board file] rank]. unfold square_at. simpl.
    destruct (decide (board = self)) as [->|Hne].
    + rewrite list_lookup_insert_eq by done. rewrite Hb. simpl. by rewrite Hs.
    + by rewrite list_lookup_insert_ne.
  - unfold board_at. simpl. rewrite list_lookup_insert_eq by done. by rewrite Hb.
Qed.

Lemma update_pieces_touches_lists_only_witness :
  heap_pieces (exec (update_pieces 0%nat [] [16%nat]) standard_world)
  = heap_pieces standard_world /\
  square_at (exec (update_pieces 0%nat [] [16%nat]) standard_world)
    (0, 0, 7)%nat
  = square_at standard_world (0, 0, 7)%nat.
Proof.
  destruct (update_pieces_touches_lists_only 0%nat [] [16%nat] standard_world
              (exec (update_pieces 0%nat [] [16%nat]) standard_world))
    as (Hp & _ & _ & _ & _ & Hsq & _).
  - vm_compute. reflexivity.
  - split; [exact Hp | apply Hsq].
Defined.

(** ** The selector of the endgame builders *)

Lemma select_color_head (c : ascii) (rest : string) :
  select_color (String c rest)
  = if bool_decide (c = "w"%char \/ c = "W"%char) then Some ("white", 7%nat)
    else if bool_decide (c = "b"%char \/ c = "B"%char) then Some ("black", 0%nat)
    else None.
Proof.
  destruct rest; destruct c as [[] [] [] [] [] [] [] []]; reflexivity.
Qed.

(** X19. The endgame builders look only at the first character of the
    selector, case-insensitively: 'w' or 'W' selects white and rank 7,
    'b' or 'B' selects black and rank 0, anything else, and the empty
    string, selects no color. *)
Theorem builders_read_first_char (c : ascii) (rest : string) :
  makeTwoRooksEndgameBoard (String c rest)
  = makeTwoRooksEndgameBoard (String c "") /\
  makeQueenEndgameBoard (String c rest)
  = makeQueenEndgameBoard (String c "") /\
  select_color (String c rest)
  = (if bool_decide (c = "w"%char \/ c = "W"%char)
     then Some ("white", 7%nat)
     else if bool_decide (c = "b"%char \/ c = "B"%char)
     then Some ("black", 0%nat)
     else None) /\
  select_color "" = None.
Proof.
  unfold makeTwoRooksEndgameBoard, makeQueenEndgameBoard.
  rewrite (select_color_head c rest), (select_color_head c "").
  done.
Qed.

(** X20. With a selector of neither color, from any store: when
    [Board()] returns, both endgame builders return None, print their
    message, keep the tables and create no piece, yet leave the new
    Board object in the store; when [Board()] raises, they raise the
    same error. *)
Theorem builders_invalid_selector (selector : string) (w : World) :
  startswith (lower selector) "w" = false ->
  startswith (lower selector) "b" = false ->
  (forall board w', Board_init 8 8 w = Ok (board, w') ->
     makeTwoRooksEndgameBoard selector w
       = Ok (None, mkWorld (FILE w) (RANK w) (heap_pieces w) (heap_boards w')
                     (stdout w ++ [rooks_message])) /\
     makeQueenEndgameBoard selector w
       = Ok (None, mkWorld (FILE w) (RANK w) (heap_pieces w) (heap_boards w')
                     (stdout w ++ [queens_message])) /\
     length (heap_boards w') = S (length (heap_boards w))) /\
  (forall e, Board_init 8 8 w = Raise e ->
     makeTwoRooksEndgameBoard selector w = Raise e /\
     makeQueenEndgameBoard selector w = Raise e).
Proof.
  intros Hw Hb.
  assert (select_color selector = None) as Hsel
    by (unfold select_color; by rewrite Hw, Hb).
  unfold makeTwoRooksEndgameBoard, makeQueenEndgameBoard. rewrite Hsel.
  split.
  - intros board w' Hinit.
    rewrite !(bind_ok _ _ _ _ _ Hinit).
    destruct (Board_init_inv _ _ _ _ _ Hinit)
      as (rows & _ & _ & Hbs & Hps & Hout & Htab).
    destruct (Htab ltac:(done)) as [HF HR].
    unfold mbind, M_bind, mret, M_ret, print.
    rewrite HF, HR, Hps, Hout. split; [done|]. split; [done|].
    rewrite Hbs, length_app. simpl. lia.
  - intros e Hinit. split; by apply bind_raise.
Qed.

Lemma builders_invalid_selector_witness :
  makeQueenEndgameBoard "purple" standard_world
  = Ok (None, mkWorld (FILE standard_world) (RANK standard_world)
                (heap_pieces standard_world)
                (heap_boards (exec (Board_init 8 8) standard_world))
                (stdout standard_world ++ [queens_message])).
Proof.
  destruct (builders_invalid_selector "purple" standard_world eq_refl eq_refl)
    as [H _].
  destruct (H 1%nat (exec (Board_init 8 8) standard_world)) as (_ & Hq & _).
  - vm_compute. reflexivity.
  - exact Hq.
Defined.

(** ** More on squares and lists *)

(** X21. [remove_piece] on an occupied square clears the two ends of
    that link and nothing else: every other piece and square is
    untouched; the flat list, the indexes and the king references of
    every board are unchanged, so the removed piece stays listed until
    [update_pieces] is told; and another square that also held the piece
    still holds it, although the piece now points nowhere. *)
Theorem remove_piece_leaves_lists (w : World) (self : sqref) (sq : Square)
  (p : pid) (po : Piece) :
  square_at w self = Some sq -> sq_piece sq = Some p ->
  heap_pieces w !! p = Some po ->
  exists w', remove_piece self w = Ok (tt, w') /\
    (forall q, q <> p -> heap_pieces w' !! q = heap_pieces w !! q) /\
    (forall other, other <> self -> square_at w' other = square_at w other) /\
    (forall board, pieces (board_at w' board) = pieces (board_at w board) /\
       piece_lists (board_at w' board) = piece_lists (board_at w board) /\
       white_king (board_at w' board) = white_king (board_at w board) /\
       black_king (board_at w' board) = black_king (board_at w board)) /\
    (forall old sq_old, old <> self -> square_at w old = Some sq_old ->
       sq_piece sq_old = Some p ->
       sq_piece <$> square_at w' old = Some (Some p) /\
       piece_square <$> heap_pieces w' !! p = Some None).
Proof.
  intros Hsq Hocc Hp. eexists.
  split; [exact (remove_piece_run _ _ _ _ _ Hsq Hocc Hp)|].
  assert (forall other, other <> self ->
    square_at (store_square (store_piece w p (with_square None po)) self
                 (with_piece None sq)) other = square_at w other) as Hsquares.
  { intros other Hne. rewrite square_at_store_square_ne by done.
    unfold store_piece. apply square_at_heap_pieces. }
  destruct self as [[sb file] rank].
  split; [|split; [exact Hsquares|split]].
  - intros q Hq. simpl. by rewrite list_lookup_insert_ne.
  - intros board.
    apply square_at_inv in Hsq as (b & row & Hb & _ & _).
    unfold store_piece, store_square, board_at. simpl. rewrite Hb.
    destruct (decide (board = sb)) as [->|Hne].
    + rewrite list_lookup_insert_eq by (by eapply lookup_lt_Some).
      by rewrite Hb.
    + by rewrite list_lookup_insert_ne.
  - intros old sq_old Hne Hold Hocc'. rewrite (Hsquares old Hne), Hold.
    simpl. rewrite Hocc'. split; [done|].
    rewrite list_lookup_insert_eq by (by eapply lookup_lt_Some). done.
Qed.

Lemma remove_piece_leaves_lists_witness :
  exists w', remove_piece (0, 0, 7)%nat standard_world = Ok (tt, w') /\
    pieces (board_at w' 0%nat) = pieces (board_at standard_world 0%nat).
Proof.
  destruct (remove_piece_leaves_lists standard_world (0, 0, 7)%nat
              (mkSquare 0 7 0%nat "dark" (Some 16%nat) "a1" false) 16%nat
              (mkPiece "Rook" "white" (Some (0, 0, 7)%nat)))
    as (w' & Hrun & _ & _ & Hl & _); [vm_compute; reflexivity..|].
  exists w'. split; [exact Hrun|]. apply Hl.
Defined.

Lemma add_piece_valid h p b b' :
  add_piece h p b = Ok b' ->
  forall q, valid_piece h (piece_lists b) q -> valid_piece h (piece_lists b') q.
Proof.
  unfold add_piece.
  destruct (get_name h p) as [name|]; simpl; [|done].
  destruct (get_color h p) as [color|]; simpl; [|done].
  destruct (tracked _ name).
  - destruct (index_get (piece_lists b) name color) as [l|] eqn:Hget;
      simpl; [|done].
    destruct (index_put (piece_lists b) name color (l ++ [p])) as [pl|]
      eqn:Hput; simpl; [|done].
    destruct (index_get pl name color) as [l'|] eqn:Hget'; simpl; [|done].
    destruct (index_put pl name color (list_set l')) as [pl'|] eqn:Hput';
      simpl; [|done].
    intros [= <-] q Hq. simpl.
    apply (index_put_valid h _ _ _ _ _ _ q Hget' Hput').
    by apply (index_put_valid h _ _ _ _ _ _ q Hget Hput).
  - by intros [= <-].
Qed.

Lemma del_piece_valid h p b b' :
  del_piece h p b = Ok b' ->
  forall q, valid_piece h (piece_lists b) q -> valid_piece h (piece_lists b') q.
Proof.
  unfold del_piece.
  destruct (get_name h p) as [name|]; simpl; [|done].
  destruct (get_color h p) as [color|]; simpl; [|done].
  destruct (list_remove p (pieces b)) as [ps|]; simpl; [|done].
  destruct (tracked _ name).
  - destruct (index_get (piece_lists b) name color) as [l|] eqn:Hget;
      simpl; [|done].
    destruct (list_remove p l) as [l1|]; simpl; [|done].
    destruct (index_put (piece_lists b) name color l1) as [pl|]
      eqn:Hput; simpl; [|done].
    destruct (index_get pl name color) as [l'|] eqn:Hget'; simpl; [|done].
    destruct (index_put pl name color (list_set l')) as [pl'|] eqn:Hput';
      simpl; [|done].
    intros [= <-] q Hq. simpl.
    apply (index_put_valid h _ _ _ _ _ _ q Hget' Hput').
    by apply (index_put_valid h _ _ _ _ _ _ q Hget Hput).
  - by intros [= <-].
Qed.

Lemma for_board_valid {A} h (body : A -> Board -> result Board) (xs : list A) :
  (forall x b b', body x b = Ok b' ->
     forall q, valid_piece h (piece_lists b) q ->
               valid_piece h (piece_lists b') q) ->
  forall b b', for_board body xs b = Ok b' ->
    forall q, valid_piece h (piece_lists b) q ->
              valid_piece h (piece_lists b') q.
Proof.
  intros Hbody. induction xs as [|x xs IH]; intros b b'; simpl.
  - by intros [= <-].
  - destruct (body x b) as [b1|] eqn:H1; simpl; [|done].
    intros H2 q Hq. eapply IH; eauto.
Qed.

Lemma incremental_valid h ps pr b b' :
  pieces b <> [] ->
  update_pieces_board h ps pr b = Ok b' ->
  forall q, valid_piece h (piece_lists b) q -> valid_piece h (piece_lists b') q.
Proof.
  intros Hne. unfold update_pieces_board.
  destruct (decide (pieces b = [])); [done|].
  destruct (if decide (ps ≠ []) then _ else _) as [b1|] eqn:H1;
    simpl; [|done].
  destruct (if decide (pr ≠ []) then _ else _) as [b2|] eqn:H2;
    simpl; [|done].
  intros [= <-] q Hq. simpl.
  assert (valid_piece h (piece_lists b1) q) as Hq1.
  { destruct (decide (ps ≠ [])).
    - by apply (for_board_valid h _ _ (add_piece_valid h) _ _ H1).
    - by injection H1 as <-. }
  destruct (decide (pr ≠ [])).
  - by apply (for_board_valid h _ _ (del_piece_valid h) _ _ H2).
  - by injection H2 as <-.
Qed.

Lemma emptied_list_rescan (h : list Piece) (b b1 : Board)
  (pieces_set pieces_removed pieces_set' pieces_removed' : list pid) :
  pieces b <> [] ->
  Forall (valid_piece h (piece_lists b)) (occupants b) ->
  update_pieces_board h pieces_set pieces_removed b = Ok b1 ->
  pieces b1 = [] ->
  exists b2, update_pieces_board h pieces_set' pieces_removed' b1 = Ok b2 /\
    (forall q, q ∈ pieces b2 <-> q ∈ occupants b).
Proof.
  intros Hne Hall Hupd Hemp.
  destruct (update_pieces_board_frame _ _ _ _ _ Hupd) as (Hsq & _).
  assert (occupants b1 = occupants b) as Hocc
    by (unfold occupants; by rewrite Hsq).
  assert (Forall (valid_piece h (piece_lists b1)) (occupants b1)) as Hall1.
  { rewrite Hocc. eapply Forall_impl; [exact Hall|].
    intros q. exact (incremental_valid _ _ _ _ _ Hne Hupd q). }
  unfold update_pieces_board.
  destruct (decide (pieces b1 = [])); [|done].
  destruct (scan_squares_ok h (concat (squares b1)) b1 Hall1)
    as (b2 & -> & Hps).
  simpl. eexists. split; [reflexivity|]. simpl.
  intros q. rewrite elem_of_list_set, Hps, Hemp. simpl.
  fold (occupants b1). by rewrite Hocc.
Qed.

(** X22. When an incremental call leaves the flat list empty, the next
    call, whatever its arguments, lists again every piece that stands on
    a square of the board: pieces reported as removed but never taken
    off their squares come back. *)
Theorem emptied_list_is_rebuilt (h : list Piece) (b b1 : Board)
  (pieces_set pieces_removed pieces_set' pieces_removed' : list pid) :
  pieces b <> [] ->
  Forall (valid_piece h (piece_lists b)) (occupants b) ->
  update_pieces_board h pieces_set pieces_removed b = Ok b1 ->
  pieces b1 = [] ->
  exists b2, update_pieces_board h pieces_set' pieces_removed' b1 = Ok b2 /\
    (forall q, q ∈ pieces b2 <-> q ∈ occupants b).
Proof. apply emptied_list_rescan. Qed.

Lemma emptied_list_is_rebuilt_witness :
  exists b2,
    update_pieces_board
      (heap_pieces (exec (makeTwoRooksEndgameBoard "white") world0)) [] []
      (board_at emptied_world 0%nat) = Ok b2 /\
    0%nat ∈ pieces b2.
Proof.
  destruct (emptied_list_is_rebuilt
              (heap_pieces (exec (makeTwoRooksEndgameBoard "white") world0))
              (board_at (exec (makeTwoRooksEndgameBoard "white") world0) 0%nat)
              (board_at emptied_world 0%nat) [] [0; 1; 2; 3]%nat [] [])
    as (b2 & Hupd & Hmem).
  - intros H. vm_compute in H. discriminate H.
  - assert (occupants
              (board_at (exec (makeTwoRooksEndgameBoard "white") world0) 0%nat)
            = [0; 3; 2; 1]%nat) as -> by (vm_compute; reflexivity).
    repeat (apply Forall_cons; split;
      [eexists; split; [vm_compute; reflexivity|];
       intros Hs;
       first [ solve [vm_compute; eauto]
             | destruct Hs as [x Hx]; vm_compute in Hx; discriminate ]|]).
    constructor.
  - vm_compute. reflexivity.
  - vm_compute. reflexivity.
  - exists b2. split; [exact Hupd|]. apply Hmem.
    apply (bool_decide_unpack _). vm_compute. exact I.
Defined.

Lemma scan_empty_squares h (sqs : list Square) (b : Board) :
  Forall (fun s => sq_piece s = None) sqs ->
  for_board (scan_square h) sqs b = Ok b.
Proof.
  induction 1 as [|s sqs Hs _ IH]; simpl; [done|].
  assert (scan_square h s b = Ok b) as ->
    by (unfold scan_square; by rewrite Hs).
  exact IH.
Qed.

Lemma for_board_app {A} (body : A -> Board -> result Board) xs ys b :
  for_board body (xs ++ ys) b
  = (for_board body xs b ≫= for_board body ys).
Proof.
  revert b. induction xs as [|x xs IH]; intros b; simpl; [done|].
  destruct (body x b) as [b1|]; simpl; [apply IH|done].
Qed.

(** X23. A piece of a tracked type whose color has no entry in the index
    of that type (on a new board, any color but 'white' and 'black')
    makes [update_pieces] raise KeyError: in incremental mode when it is
    the piece added, in a full scan when it is the first piece met. *)
Theorem unknown_color_index (h : list Piece) (b : Board) (p : pid)
  (po : Piece) (d : gmap string (list pid)) :
  h !! p = Some po ->
  piece_lists b !! piece_name po = Some d -> d !! piece_color po = None ->
  (pieces b <> [] ->
     forall pieces_removed,
       update_pieces_board h [p] pieces_removed b = Raise KeyError) /\
  (pieces b = [] ->
     forall pre sq post pieces_set pieces_removed,
       concat (squares b) = pre ++ sq :: post ->
       Forall (fun s => sq_piece s = None) pre -> sq_piece sq = Some p ->
       update_pieces_board h pieces_set pieces_removed b = Raise KeyError).
Proof.
  intros Hp Hd Hc.
  assert (tracked b (piece_name po) = true) as Htr
    by (apply tracked_spec; eauto).
  assert (index_get (piece_lists b) (piece_name po) (piece_color po)
          = Raise KeyError) as Hget.
  { unfold index_get. rewrite Hd. simpl. by rewrite Hc. }
  split.
  - intros Hne pr. unfold update_pieces_board.
    destruct (decide (pieces b = [])); [done|].
    destruct (decide ([p] <> [])) as [_|Hn]; [|by destruct Hn].
    simpl. unfold add_piece.
    rewrite (get_name_ok _ _ _ Hp), (get_color_ok _ _ _ Hp). simpl.
    change (tracked (with_pieces (pieces b ++ [p]) b) (piece_name po))
      with (tracked b (piece_name po)).
    by rewrite Htr, Hget.
  - intros Hemp pre sq post ps pr Hsqs Hpre Hsq. unfold update_pieces_board.
    destruct (decide (pieces b = [])); [|done].
    assert (scan_square h sq b = Raise KeyError) as Hscan.
    { unfold scan_square. rewrite Hsq.
      rewrite (get_name_ok _ _ _ Hp), (get_color_ok _ _ _ Hp). simpl.
      change (tracked (with_pieces (pieces b ++ [p]) b) (piece_name po))
        with (tracked b (piece_name po)).
      by rewrite Htr, Hget. }
    rewrite Hsqs, for_board_app, (scan_empty_squares _ _ _ Hpre).
    cbn [mbind result_bind for_board]. by rewrite Hscan.
Qed.

Lemma unknown_color_index_witness :
  update_pieces_board (heap_pieces (exec (Queen "purple") standard_world))
    [32%nat] [] (board_at standard_world 0%nat) = Raise KeyError.
Proof.
  destruct (unknown_color_index
              (heap_pieces (exec (Queen "purple") standard_world))
              (board_at standard_world 0%nat) 32%nat
              (mkPiece "Queen" "purple" None)
              {[ "white" := [28%nat]; "black" := [29%nat] ]})
    as [Hinc _]; [vm_compute; reflexivity..|].
  apply Hinc. intros H. vm_compute in H. discriminate H.
Defined.

(** ** Removing a piece twice *)




(** * The scenario builders, from any store *)

Local Close Scope Z_scope.

(** ** Running the steps of a builder on an extended store *)

Lemma bind_assoc_run {A B C} (m : M A) (f : A -> M B) (g : B -> M C) w :
  ((m ≫= f) ≫= g) w = (m ≫= (fun x => f x ≫= g)) w.
Proof. unfold mbind, M_bind. by destruct (m w) as [[a w1]|e]. Qed.

Lemma bind_ret_run {A B} (a : A) (k : A -> M B) w : (mret a ≫= k) w = k a w.
Proof. reflexivity. Qed.

Lemma insert_app_end {A} (l : list A) (x y : A) :
  <[length l := y]> (l ++ [x]) = l ++ [y].
Proof. induction l as [|z l IH]; simpl; [done|]. by rewrite IH. Qed.

Lemma lookup_app_new {A} (l k : list A) (i : nat) :
  (l ++ k) !! (length l + i) = k !! i.
Proof. induction l as [|z l IH]; simpl; done. Qed.

Lemma insert_app_new {A} (l k : list A) (i : nat) (x : A) :
  <[length l + i := x]> (l ++ k) = l ++ <[i := x]> k.
Proof. apply insert_app_r. Qed.

Lemma get_board_extend w B ps :
  get_board (length (heap_boards w)) (extend w B ps) = Ok (B, extend w B ps).
Proof.
  unfold get_board, extend, lift. simpl.
  by rewrite list_lookup_middle.
Qed.

Lemma put_board_extend w B B' ps :
  put_board (length (heap_boards w)) B' (extend w B ps)
  = Ok (tt, extend w B' ps).
Proof.
  unfold put_board, set_heap_boards, extend. simpl.
  by rewrite insert_app_end.
Qed.

Lemma new_piece_extend w B ps cls color :
  new_piece cls color (extend w B ps)
  = Ok (length (heap_pieces w) + length ps,
        extend w B (ps ++ [mkPiece cls color None])).
Proof.
  unfold new_piece, extend, set_heap_pieces, mbind, M_bind, mret, M_ret.
  simpl. by rewrite length_app, <- app_assoc.
Qed.

Lemma squares_getitem_extend w B ps file rank sq :
  grid_get (squares B) file rank = Ok sq ->
  squares_getitem (length (heap_boards w)) file rank (extend w B ps)
  = Ok ((length (heap_boards w), file, rank), extend w B ps).
Proof.
  intros Hg. unfold squares_getitem.
  rewrite (bind_ok _ _ _ _ _ (get_board_extend w B ps)).
  unfold mbind, M_bind, lift. by rewrite Hg.
Qed.

Lemma square_at_extend w B ps file rank sq :
  grid_get (squares B) file rank = Ok sq ->
  square_at (extend w B ps) (length (heap_boards w), file, rank) = Some sq.
Proof.
  unfold grid_get, square_at, extend. simpl. rewrite list_lookup_middle by done.
  simpl. destruct (squares B !! file) as [row|]; simpl; [|done].
  by destruct (row !! rank); simpl; [intros [= ->]|].
Qed.

Lemma set_piece_extend w B ps file rank sq k po :
  grid_get (squares B) file rank = Ok sq ->
  ps !! k = Some po ->
  set_piece (length (heap_boards w), file, rank)
    (Some (length (heap_pieces w) + k)) (extend w B ps)
  = Ok (tt, extend w
              (with_squares
                 (grid_set (squares B) file rank
                    (with_piece (Some (length (heap_pieces w) + k)) sq)) B)
              (<[k := with_square
                        (Some (length (heap_boards w), file, rank)) po]> ps)).
Proof.
  intros Hg Hk.
  rewrite (set_piece_run _ _ sq _ po).
  - do 2 f_equal. unfold store_piece, store_square, board_at, extend. simpl.
    rewrite list_lookup_middle by done.
    by rewrite insert_app_end, insert_app_new.
  - by apply square_at_extend.
  - unfold extend. simpl. by rewrite lookup_app_new.
Qed.

Lemma place_run w B ps file rank cls color sq :
  grid_get (squares B) file rank = Ok sq ->
  place (length (heap_boards w)) file rank (new_piece cls) color
    (extend w B ps)
  = Ok (tt, extend w
              (with_squares
                 (grid_set (squares B) file rank
                    (with_piece
                       (Some (length (heap_pieces w) + length ps)) sq)) B)
              (ps ++ [mkPiece cls color
                        (Some (length (heap_boards w), file, rank))])).
Proof.
  intros Hg. unfold place.
  rewrite (bind_ok _ _ _ _ _ (squares_getitem_extend w B ps _ _ _ Hg)).
  rewrite (bind_ok _ _ _ _ _ (new_piece_extend w B ps cls color)).
  rewrite (set_piece_extend w B _ file rank sq (length ps)
             (mkPiece cls color None) Hg).
  - do 3 f_equal.
    rewrite <- (Nat.add_0_r (length ps)) at 1.
    by rewrite insert_app_new.
  - rewrite <- (Nat.add_0_r (length ps)). by rewrite lookup_app_new.
Qed.

Lemma set_kings_run w B ps sq1 sq2 :
  let np := length (heap_pieces w) in
  let nb := length (heap_boards w) in
  let wk := np + length ps in
  let bk := np + S (length ps) in
  let B1 := with_squares (grid_set (squares B) 4 7 (with_piece (Some wk) sq1))
              (with_white_king (Some wk) B) in
  let B2 := with_squares (grid_set (squares B1) 4 0 (with_piece (Some bk) sq2))
              (with_black_king (Some bk) B1) in
  grid_get (squares B) 4 7 = Ok sq1 ->
  grid_get (squares B1) 4 0 = Ok sq2 ->
  set_kings nb (extend w B ps)
  = Ok (tt, extend w B2
              (ps ++ [mkPiece "King" "white" (Some (nb, 4, 7));
                      mkPiece "King" "black" (Some (nb, 4, 0))])).
Proof.
  intros np nb wk bk B1 B2 Hg1 Hg2. unfold set_kings, King.
  rewrite (bind_ok _ _ _ _ _ (new_piece_extend w B ps _ _)).
  rewrite (bind_ok _ _ _ _ _ (get_board_extend w B _)).
  rewrite (bind_ok _ _ _ _ _ (put_board_extend w B _ _)).
  rewrite (bind_ok _ _ _ _ _
             (squares_getitem_extend w (with_white_king (Some wk) B) _ 4 7 sq1 Hg1)).
  rewrite (bind_ok _ _ _ _ _ (get_board_extend w _ _)).
  change (white_king (with_white_king (Some (length (heap_pieces w) + length ps)) B))
    with (Some (length (heap_pieces w) + length ps)).
  assert ((ps ++ [mkPiece "King" "white" None]) !! length ps
          = Some (mkPiece "King" "white" None)) as Hk1.
  { rewrite <- (Nat.add_0_r (length ps)). by rewrite lookup_app_new. }
  rewrite (bind_ok _ _ _ _ _
             (set_piece_extend w (with_white_king (Some wk) B) _ 4 7 sq1
                (length ps) (mkPiece "King" "white" None) Hg1 Hk1)).
  rewrite insert_app_end.
  change (with_square (Some (length (heap_boards w), 4, 7))
            (mkPiece "King" "white" None))
    with (mkPiece "King" "white" (Some (nb, 4, 7))).
  fold B1.
  rewrite (bind_ok _ _ _ _ _ (new_piece_extend w _ _ _ _)).
  rewrite (bind_ok _ _ _ _ _ (get_board_extend w _ _)).
  rewrite (bind_ok _ _ _ _ _ (put_board_extend w _ _ _)).
  rewrite length_app. simpl length.
  replace (length (heap_pieces w) + (length ps + 1)) with bk by (unfold bk, np; lia).
  rewrite (bind_ok _ _ _ _ _
             (squares_getitem_extend w (with_black_king (Some bk) B1) _ 4 0 sq2 Hg2)).
  rewrite (bind_ok _ _ _ _ _ (get_board_extend w _ _)).
  change (black_king (with_black_king (Some bk) B1)) with (Some bk).
  unfold bk at 1.
  rewrite (set_piece_extend w (with_black_king (Some bk) B1) _ 4 0 sq2
             (S (length ps)) (mkPiece "King" "black" None) Hg2).
  - do 3 f_equal. rewrite <- app_assoc. simpl.
    replace (S (length ps)) with (length ps + 1) by lia.
    by rewrite insert_app_new.
  - rewrite <- app_assoc. simpl.
    replace (S (length ps)) with (length ps + 1) by lia.
    by rewrite lookup_app_new.
Qed.

Lemma valid_new_spec hp ps pl k :
  valid_new ps pl k = true -> valid_piece (hp ++ ps) pl (length hp + k).
Proof.
  unfold valid_new, valid_piece. rewrite lookup_app_new.
  destruct (ps !! k) as [po|]; [|done]. intros H. exists po. split; [done|].
  intros [d Hd]. rewrite Hd in H. apply bool_decide_eq_true in H as [l Hl].
  exists l. unfold index_get. rewrite Hd. simpl. by rewrite Hl.
Qed.

Lemma valid_new_all hp ps pl (ks : list nat) :
  forallb (valid_new ps pl) ks = true ->
  Forall (valid_piece (hp ++ ps) pl) (Nat.add (length hp) <$> ks).
Proof.
  induction ks as [|k ks IH]; simpl; [constructor|].
  intros [Hk Hks]%andb_true_iff. constructor; [by apply valid_new_spec|auto].
Qed.

Lemma is_kind_new hp ps name color k :
  is_kind (hp ++ ps) name color (length hp + k) = is_kind ps name color k.
Proof. unfold is_kind. by rewrite lookup_app_new. Qed.

Lemma filter_kind_new hp ps name color (ks : list nat) :
  filter (fun q => is_kind (hp ++ ps) name color q = true)
         (Nat.add (length hp) <$> ks)
  = Nat.add (length hp) <$> filter (fun k => is_kind ps name color k = true) ks.
Proof.
  induction ks as [|k ks IH]; [done|]. rewrite fmap_cons, !filter_cons.
  rewrite is_kind_new.
  destruct (decide (is_kind ps name color k = true));
    [rewrite fmap_cons; f_equal|]; exact IH.
Qed.

Lemma full_scan_run h b :
  pieces b = [] ->
  Forall (valid_piece h (piece_lists b)) (occupants b) ->
  exists b',
    (forall pieces_set pieces_removed,
       update_pieces_board h pieces_set pieces_removed b = Ok b') /\
    pieces b' = list_set (occupants b) /\
    (forall name color l0,
       index_get (piece_lists b) name color = Ok l0 ->
       index_get (piece_lists b') name color
       = Ok (l0 ++ filter (fun q => is_kind h name color q = true)
                     (occupants b))) /\
    same_frame b b'.
Proof.
  intros Hemp Hall.
  destruct (scan_squares_ok h (concat (squares b)) b Hall) as (b1 & Hrun & Hps).
  exists (with_pieces (list_set (pieces b1)) b1). split; [|split; [|split]].
  - intros ps pr. unfold update_pieces_board.
    destruct (decide (pieces b = [])); [|done]. by rewrite Hrun.
  - simpl. by rewrite Hps, Hemp.
  - intros name color l0 Hl0.
    destruct (scan_squares_index h name color (concat (squares b)) b l0 Hall Hl0)
      as (b2 & Hrun2 & Hidx).
    rewrite Hrun in Hrun2. by injection Hrun2 as <-.
  - destruct (for_board_frame _ _ (scan_square_frame h) _ _ Hrun)
      as (?&?&?&?). by repeat split.
Qed.

Lemma update_pieces_extend w B B' ps pieces_set pieces_removed :
  update_pieces_board (heap_pieces w ++ ps) pieces_set pieces_removed B = Ok B' ->
  update_pieces (length (heap_boards w)) pieces_set pieces_removed (extend w B ps)
  = Ok (tt, extend w B' ps).
Proof.
  intros H. unfold update_pieces.
  rewrite (bind_ok _ _ _ _ _ (eq_refl : get_world (extend w B ps) = Ok (_, _))).
  rewrite (bind_ok _ _ _ _ _ (get_board_extend w B ps)).
  unfold extend at 1. simpl heap_pieces. rewrite H.
  unfold mbind, M_bind, lift. apply put_board_extend.
Qed.

Lemma count_kind_list_set h name color l :
  NoDup l ->
  count_kind h name color (list_set l)
  = length (filter (fun q => is_kind h name color q = true) l).
Proof.
  intros Hnd. unfold count_kind. apply Permutation_length.
  apply filter_Permutation. apply list_set_perm; [done|].
  intros q. reflexivity.
Qed.

(** What the full scan at the end of a builder registers, for a new board
    whose occupants are the further pieces numbered [ks]. *)
Lemma built_board_summary (w : World) (B : Board) (ps : list Piece)
  (ks : list nat) :
  pieces B = [] ->
  occupants B = Nat.add (length (heap_pieces w)) <$> ks ->
  NoDup ks ->
  forallb (valid_new ps (piece_lists B)) ks = true ->
  exists B',
    update_pieces (length (heap_boards w)) [] [] (extend w B ps)
    = Ok (tt, extend w B' ps) /\
    length (pieces B') = length ks /\ NoDup (pieces B') /\
    (forall name color,
       count_kind (heap_pieces w ++ ps) name color (pieces B')
       = length (filter (fun k => is_kind ps name color k = true) ks)) /\
    (forall name color l0,
       index_get (piece_lists B) name color = Ok l0 ->
       index_get (piece_lists B') name color
       = Ok (l0 ++ (Nat.add (length (heap_pieces w))
                      <$> filter (fun k => is_kind ps name color k = true) ks))) /\
    white_king B' = white_king B /\ black_king B' = black_king B.
Proof.
  intros Hemp Hocc Hnd Hval.
  assert (NoDup (occupants B)) as Hndo.
  { rewrite Hocc. apply NoDup_fmap_2; [|done]. intros x y. lia. }
  destruct (full_scan_run (heap_pieces w ++ ps) B Hemp) as
    (B' & Hrun & Hps & Hidx & (_ & Hwk & Hbk & _)).
  { rewrite Hocc. by apply valid_new_all. }
  exists B'. split; [by apply update_pieces_extend|].
  rewrite Hps. split; [|split; [apply NoDup_list_set|split; [|split]]].
  - rewrite length_list_set by done. by rewrite Hocc, length_fmap.
  - intros name color. rewrite count_kind_list_set by done.
    by rewrite Hocc, filter_kind_new, length_fmap.
  - intros name color l0 Hl0. rewrite (Hidx _ _ _ Hl0).
    by rewrite Hocc, filter_kind_new.
  - done.
Qed.

Lemma Board_init_convertible w board w1 :
  Board_init 8 8 w = Ok (board, w1) -> convertible (FILE w) (RANK w) 8 8.
Proof.
  intros H file rank Hf Hr.
  destruct (Board_init_inv _ _ _ _ _ H)
    as (rows & Hrows & _ & _ & _ & _ & Htab).
  destruct (Htab ltac:(done)) as [<- <-].
  assert (range 8 !! file = Some file) as Hfile
    by (unfold range; by rewrite lookup_seq_lt).
  assert (range 8 !! rank = Some rank) as Hrank
    by (unfold range; by rewrite lookup_seq_lt).
  destruct (Forall2_lookup_l _ _ _ _ _ (collect_inv _ _ _ Hrows) Hfile)
    as (row & _ & Hc).
  destruct (Forall2_lookup_l _ _ _ _ _ (collect_inv _ _ _ Hc) Hrank)
    as (sq & _ & Hinit).
  unfold Square_init in Hinit.
  destruct (computerToAlgebraic _ _ _ _) as [name|e]; [eauto|done].
Qed.

Lemma Board_init_extend w board w1 :
  Board_init 8 8 w = Ok (board, w1) ->
  board = length (heap_boards w) /\
  w1 = extend w (fresh_board (FILE w) (RANK w) (length (heap_boards w)) 8 8) [].
Proof.
  intros H. pose proof (Board_init_convertible _ _ _ H) as Hc.
  rewrite (Board_init_default w Hc) in H. injection H as <- <-.
  split; [done|]. unfold extend. by rewrite app_nil_r.
Qed.

Ltac norm0 t :=
  eval cbv beta iota zeta delta
    [fresh_board reshape range seq fmap list_fmap concat app take drop
     Nat.mul Nat.add] in t.

Ltac norm t :=
  eval cbv beta iota zeta delta
    [squares files ranks pieces piece_lists white_king black_king
     with_squares with_white_king with_black_king
     grid_get grid_set of_option mbind result_bind
     lookup list_lookup insert list_insert app] in t.

Ltac len t := eval cbv beta iota delta [length] in (length t).

Ltac step_place :=
  repeat (rewrite bind_assoc_run || rewrite bind_ret_run);
  lazymatch goal with
  | |- (place _ ?f ?r (new_piece ?cls) ?color ≫= _) (extend ?w ?B ?ps) = _ =>
      let v := norm (grid_get (squares B) f r) in
      lazymatch v with
      | Ok ?sq =>
          let k := len ps in
          let B' := norm
            (with_squares
               (grid_set (squares B) f r
                  (with_piece (Some (length (heap_pieces w) + k)) sq))
               B) in
          let ps' := norm
            (ps ++ [mkPiece cls color (Some (length (heap_boards w), f, r))]) in
          let Hs := fresh "Hs" in
          assert (place (length (heap_boards w)) f r (new_piece cls) color
                    (extend w B ps) = Ok (tt, extend w B' ps')) as Hs
            by (exact (place_run w B ps f r cls color sq eq_refl));
          rewrite (bind_ok _ _ _ _ _ Hs); clear Hs
      end
  end.

Ltac step_kings :=
  repeat (rewrite bind_assoc_run || rewrite bind_ret_run);
  lazymatch goal with
  | |- (set_kings _ ≫= _) (extend ?w ?B ?ps) = _ =>
      let v1 := norm (grid_get (squares B) 4 7) in
      let v2 := norm (grid_get (squares B) 4 0) in
      lazymatch v1 with
      | Ok ?sq1 =>
          lazymatch v2 with
          | Ok ?sq2 =>
              let k := len ps in
              let B1 := constr:(
                with_squares
                  (grid_set (squares B) 4 7
                     (with_piece (Some (length (heap_pieces w) + k)) sq1))
                  (with_white_king (Some (length (heap_pieces w) + k)) B)) in
              let B2 := norm
                (with_squares
                   (grid_set (squares B1) 4 0
                      (with_piece (Some (length (heap_pieces w) + S k)) sq2))
                   (with_black_king (Some (length (heap_pieces w) + S k))
                      B1)) in
              let ps' := norm
                (ps ++ [mkPiece "King" "white"
                          (Some (length (heap_boards w), 4, 7));
                        mkPiece "King" "black"
                          (Some (length (heap_boards w), 4, 0))]) in
              let Hs := fresh "Hs" in
              assert (set_kings (length (heap_boards w)) (extend w B ps)
                      = Ok (tt, extend w B2 ps')) as Hs
                by (exact (set_kings_run w B ps sq1 sq2 eq_refl eq_refl));
              rewrite (bind_ok _ _ _ _ _ Hs); clear Hs
          end
      end
  end.

Lemma extend_nil w B :
  mkWorld (FILE w) (RANK w) (heap_pieces w) (heap_boards w ++ [B]) (stdout w)
  = extend w B [].
Proof. unfold extend. by rewrite app_nil_r. Qed.

Ltac builder_steps :=
  cbv beta iota; cbn [for_ range seq]; rewrite extend_nil;
  unfold Pawn, Rook, Knight, Bishop, Queen;
  lazymatch goal with
  | |- _ (extend ?w ?B0 []) = _ =>
      let B := norm0 B0 in change B0 with B
  end;
  repeat step_place; step_kings;
  repeat (rewrite bind_assoc_run || rewrite bind_ret_run); reflexivity.

Lemma standard_run (w : World) :
  convertible (FILE w) (RANK w) 8 8 ->
  exists w' b,
    makeStandardBoard w = Ok (length (heap_boards w), w') /\
    heap_boards w' !! length (heap_boards w) = Some b /\
    length (pieces b) = 32 /\ NoDup (pieces b) /\
    index_get (piece_lists b) "Rook" "white"
    = Ok [length (heap_pieces w) + 16; length (heap_pieces w) + 18] /\
    white_king b = Some (length (heap_pieces w) + 30) /\
    black_king b = Some (length (heap_pieces w) + 31).
Proof.
  intros Hc.
  pose (ks := [17; 1; 0; 16; 21; 3; 2; 20; 25; 5; 4; 24; 29; 7; 6; 28; 31; 9;
               8; 30; 27; 11; 10; 26; 23; 13; 12; 22; 19; 15; 14; 18]).
  assert (exists Bf psf,
    makeStandardBoard w
    = (update_pieces (length (heap_boards w)) [] [] ≫=
         fun _ => mret (length (heap_boards w))) (extend w Bf psf) /\
    pieces Bf = [] /\
    occupants Bf = Nat.add (length (heap_pieces w)) <$> ks /\
    forallb (valid_new psf (piece_lists Bf)) ks = true /\
    index_get (piece_lists Bf) "Rook" "white" = Ok [] /\
    filter (fun k => is_kind psf "Rook" "white" k = true) ks = [16; 18] /\
    white_king Bf = Some (length (heap_pieces w) + 30) /\
    black_king Bf = Some (length (heap_pieces w) + 31))
    as (Bf & psf & Hrun & Hemp & Hocc & Hval & Hidx0 & Hrooks & Hwk0 & Hbk0).
  { eexists _, _. split.
    - unfold makeStandardBoard.
      rewrite (bind_ok _ _ _ _ _ (Board_init_default w Hc)).
      builder_steps.
    - split; [reflexivity|]. split; [vm_compute; reflexivity|].
      split; [vm_compute; reflexivity|]. split; [vm_compute; reflexivity|].
      split; [vm_compute; reflexivity|]. split; vm_compute; reflexivity. }
  destruct (built_board_summary w Bf psf ks Hemp Hocc)
    as (B' & Hupd & Hlen & Hnd & Hcount & Hidx & Hwk & Hbk).
  { apply (bool_decide_unpack _). vm_compute. exact I. }
  { exact Hval. }
  eexists _, B'. split.
  { rewrite Hrun. rewrite (bind_ok _ _ _ _ _ Hupd). reflexivity. }
  split; [unfold extend; simpl; by rewrite list_lookup_middle|].
  split; [exact Hlen|]. split; [exact Hnd|].
  split; [by rewrite (Hidx _ _ _ Hidx0), Hrooks|].
  split; congruence.
Qed.

Lemma two_rooks_white_run (selector : string) (w : World) :
  select_color selector = Some ("white", 7) ->
  convertible (FILE w) (RANK w) 8 8 ->
  exists w' b,
    makeTwoRooksEndgameBoard selector w = Ok (Some (length (heap_boards w)), w') /\
    heap_boards w' !! length (heap_boards w) = Some b /\
    length (pieces b) = 4 /\ NoDup (pieces b) /\
    count_kind (heap_pieces w') "Rook" "white" (pieces b) = 2 /\
    count_kind (heap_pieces w') "Rook" "black" (pieces b) = 0 /\
    count_kind (heap_pieces w') "King" "white" (pieces b) = 1 /\
    count_kind (heap_pieces w') "King" "black" (pieces b) = 1.
Proof.
  intros Hsel Hc.
  assert (exists Bf psf,
    makeTwoRooksEndgameBoard selector w
    = (update_pieces (length (heap_boards w)) [] [] ≫=
         fun _ => mret (Some (length (heap_boards w)))) (extend w Bf psf) /\
    pieces Bf = [] /\
    occupants Bf = Nat.add (length (heap_pieces w)) <$> [0; 3; 2; 1] /\
    forallb (valid_new psf (piece_lists Bf)) [0; 3; 2; 1] = true /\
    length (filter (fun k => is_kind psf "Rook" "white" k = true)
              [0; 3; 2; 1]) = 2 /\
    length (filter (fun k => is_kind psf "Rook" "black" k = true)
              [0; 3; 2; 1]) = 0 /\
    length (filter (fun k => is_kind psf "King" "white" k = true)
              [0; 3; 2; 1]) = 1 /\
    length (filter (fun k => is_kind psf "King" "black" k = true)
              [0; 3; 2; 1]) = 1)
    as (Bf & psf & Hrun & Hemp & Hocc & Hval & H1 & H2 & H3 & H4).
  { eexists _, _. split.
    - unfold makeTwoRooksEndgameBoard.
      rewrite (bind_ok _ _ _ _ _ (Board_init_default w Hc)), Hsel.
      builder_steps.
    - split; [reflexivity|]. split; [vm_compute; reflexivity|].
      split; [vm_compute; reflexivity|]. split; [vm_compute; reflexivity|].
      split; [vm_compute; reflexivity|]. split; vm_compute; reflexivity. }
  destruct (built_board_summary w Bf psf [0; 3; 2; 1] Hemp Hocc)
    as (B' & Hupd & Hlen & Hnd & Hcount & _).
  { apply (bool_decide_unpack _). vm_compute. exact I. }
  { exact Hval. }
  eexists _, B'. split.
  { rewrite Hrun. rewrite (bind_ok _ _ _ _ _ Hupd). reflexivity. }
  split; [unfold extend; simpl; by rewrite list_lookup_middle|].
  split; [exact Hlen|]. split; [exact Hnd|].
  unfold extend. simpl. by rewrite !Hcount.
Qed.

Lemma two_rooks_black_run (selector : string) (w : World) :
  select_color selector = Some ("black", 0) ->
  convertible (FILE w) (RANK w) 8 8 ->
  exists w' b,
    makeTwoRooksEndgameBoard selector w = Ok (Some (length (heap_boards w)), w') /\
    heap_boards w' !! length (heap_boards w) = Some b /\
    length (pieces b) = 4 /\ NoDup (pieces b) /\
    count_kind (heap_pieces w') "Rook" "black" (pieces b) = 2 /\
    count_kind (heap_pieces w') "Rook" "white" (pieces b) = 0 /\
    count_kind (heap_pieces w') "King" "white" (pieces b) = 1 /\
    count_kind (heap_pieces w') "King" "black" (pieces b) = 1.
Proof.
  intros Hsel Hc.
  assert (exists Bf psf,
    makeTwoRooksEndgameBoard selector w
    = (update_pieces (length (heap_boards w)) [] [] ≫=
         fun _ => mret (Some (length (heap_boards w)))) (extend w Bf psf) /\
    pieces Bf = [] /\
    occupants Bf = Nat.add (length (heap_pieces w)) <$> [0; 3; 2; 1] /\
    forallb (valid_new psf (piece_lists Bf)) [0; 3; 2; 1] = true /\
    length (filter (fun k => is_kind psf "Rook" "black" k = true)
              [0; 3; 2; 1]) = 2 /\
    length (filter (fun k => is_kind psf "Rook" "white" k = true)
              [0; 3; 2; 1]) = 0 /\
    length (filter (fun k => is_kind psf "King" "white" k = true)
              [0; 3; 2; 1]) = 1 /\
    length (filter (fun k => is_kind psf "King" "black" k = true)
              [0; 3; 2; 1]) = 1)
    as (Bf & psf & Hrun & Hemp & Hocc & Hval & H1 & H2 & H3 & H4).
  { eexists _, _. split.
    - unfold makeTwoRooksEndgameBoard.
      rewrite (bind_ok _ _ _ _ _ (Board_init_default w Hc)), Hsel.
      builder_steps.
    - split; [reflexivity|]. split; [vm_compute; reflexivity|].
      split; [vm_compute; reflexivity|]. split; [vm_compute; reflexivity|].
      split; [vm_compute; reflexivity|]. split; vm_compute; reflexivity. }
  destruct (built_board_summary w Bf psf [0; 3; 2; 1] Hemp Hocc)
    as (B' & Hupd & Hlen & Hnd & Hcount & _).
  { apply (bool_decide_unpack _). vm_compute. exact I. }
  { exact Hval. }
  eexists _, B'. split.
  { rewrite Hrun. rewrite (bind_ok _ _ _ _ _ Hupd). reflexivity. }
  split; [unfold extend; simpl; by rewrite list_lookup_middle|].
  split; [exact Hlen|]. split; [exact Hnd|].
  unfold extend. simpl. by rewrite !Hcount.
Qed.

Lemma queens_white_run (selector : string) (w : World) :
  select_color selector = Some ("white", 7) ->
  convertible (FILE w) (RANK w) 8 8 ->
  exists w' b,
    makeQueenEndgameBoard selector w = Ok (Some (length (heap_boards w)), w') /\
    heap_boards w' !! length (heap_boards w) = Some b /\
    length (pieces b) = 4 /\ NoDup (pieces b) /\
    count_kind (heap_pieces w') "Queen" "white" (pieces b) = 2 /\
    count_kind (heap_pieces w') "Queen" "black" (pieces b) = 0 /\
    count_kind (heap_pieces w') "King" "white" (pieces b) = 1 /\
    count_kind (heap_pieces w') "King" "black" (pieces b) = 1.
Proof.
  intros Hsel Hc.
  assert (exists Bf psf,
    makeQueenEndgameBoard selector w
    = (update_pieces (length (heap_boards w)) [] [] ≫=
         fun _ => mret (Some (length (heap_boards w)))) (extend w Bf psf) /\
    pieces Bf = [] /\
    occupants Bf = Nat.add (length (heap_pieces w)) <$> [0; 3; 2; 1] /\
    forallb (valid_new psf (piece_lists Bf)) [0; 3; 2; 1] = true /\
    length (filter (fun k => is_kind psf "Queen" "white" k = true)
              [0; 3; 2; 1]) = 2 /\
    length (filter (fun k => is_kind psf "Queen" "black" k = true)
              [0; 3; 2; 1]) = 0 /\
    length (filter (fun k => is_kind psf "King" "white" k = true)
              [0; 3; 2; 1]) = 1 /\
    length (filter (fun k => is_kind psf "King" "black" k = true)
              [0; 3; 2; 1]) = 1)
    as (Bf & psf & Hrun & Hemp & Hocc & Hval & H1 & H2 & H3 & H4).
  { eexists _, _. split.
    - unfold makeQueenEndgameBoard.
      rewrite (bind_ok _ _ _ _ _ (Board_init_default w Hc)), Hsel.
      builder_steps.
    - split; [reflexivity|]. split; [vm_compute; reflexivity|].
      split; [vm_compute; reflexivity|]. split; [vm_compute; reflexivity|].
      split; [vm_compute; reflexivity|]. split; vm_compute; reflexivity. }
  destruct (built_board_summary w Bf psf [0; 3; 2; 1] Hemp Hocc)
    as (B' & Hupd & Hlen & Hnd & Hcount & _).
  { apply (bool_decide_unpack _). vm_compute. exact I. }
  { exact Hval. }
  eexists _, B'. split.
  { rewrite Hrun. rewrite (bind_ok _ _ _ _ _ Hupd). reflexivity. }
  split; [unfold extend; simpl; by rewrite list_lookup_middle|].
  split; [exact Hlen|]. split; [exact Hnd|].
  unfold extend. simpl. by rewrite !Hcount.
Qed.

Lemma queens_black_run (selector : string) (w : World) :
  select_color selector = Some ("black", 0) ->
  convertible (FILE w) (RANK w) 8 8 ->
  exists w' b,
    makeQueenEndgameBoard selector w = Ok (Some (length (heap_boards w)), w') /\
    heap_boards w' !! length (heap_boards w) = Some b /\
    length (pieces b) = 4 /\ NoDup (pieces b) /\
    count_kind (heap_pieces w') "Queen" "black" (pieces b) = 2 /\
    count_kind (heap_pieces w') "Queen" "white" (pieces b) = 0 /\
    count_kind (heap_pieces w') "King" "white" (pieces b) = 1 /\
    count_kind (heap_pieces w') "King" "black" (pieces b) = 1.
Proof.
  intros Hsel Hc.
  assert (exists Bf psf,
    makeQueenEndgameBoard selector w
    = (update_pieces (length (heap_boards w)) [] [] ≫=
         fun _ => mret (Some (length (heap_boards w)))) (extend w Bf psf) /\
    pieces Bf = [] /\
    occupants Bf = Nat.add (length (heap_pieces w)) <$> [0; 3; 2; 1] /\
    forallb (valid_new psf (piece_lists Bf)) [0; 3; 2; 1] = true /\
    length (filter (fun k => is_kind psf "Queen" "black" k = true)
              [0; 3; 2; 1]) = 2 /\
    length (filter (fun k => is_kind psf "Queen" "white" k = true)
              [0; 3; 2; 1]) = 0 /\
    length (filter (fun k => is_kind psf "King" "white" k = true)
              [0; 3; 2; 1]) = 1 /\
    length (filter (fun k => is_kind psf "King" "black" k = true)
              [0; 3; 2; 1]) = 1)
    as (Bf & psf & Hrun & Hemp & Hocc & Hval & H1 & H2 & H3 & H4).
  { eexists _, _. split.
    - unfold makeQueenEndgameBoard.
      rewrite (bind_ok _ _ _ _ _ (Board_init_default w Hc)), Hsel.
      builder_steps.
    - split; [reflexivity|]. split; [vm_compute; reflexivity|].
      split; [vm_compute; reflexivity|]. split; [vm_compute; reflexivity|].
      split; [vm_compute; reflexivity|]. split; vm_compute; reflexivity. }
  destruct (built_board_summary w Bf psf [0; 3; 2; 1] Hemp Hocc)
    as (B' & Hupd & Hlen & Hnd & Hcount & _).
  { apply (bool_decide_unpack _). vm_compute. exact I. }
  { exact Hval. }
  eexists _, B'. split.
  { rewrite Hrun. rewrite (bind_ok _ _ _ _ _ Hupd). reflexivity. }
  split; [unfold extend; simpl; by rewrite list_lookup_middle|].
  split; [exact Hlen|]. split; [exact Hnd|].
  unfold extend. simpl. by rewrite !Hcount.
Qed.

(** ** The boards the builders return *)

Lemma builder_needs_board {A} (k : bid -> M A) (w : World) (x : A * World) :
  (Board_init 8 8 ≫= k) w = Ok x ->
  exists board0 w0, Board_init 8 8 w = Ok (board0, w0).
Proof.
  unfold mbind, M_bind.
  destruct (Board_init 8 8 w) as [[board0 w0]|e]; [eauto|done].
Qed.

(** C2. From any store: [makeStandardBoard()] returns whenever [Board()]
    does, and whenever it returns, the board it returns has exactly 32
    members in its flat list, all different, exactly 2 in its Rook/white
    index, and two king references that are set and designate different
    pieces. *)
Theorem makeStandardBoard_indexes (w : World) :
  ((exists board0 w0, Board_init 8 8 w = Ok (board0, w0)) ->
     exists board w', makeStandardBoard w = Ok (board, w')) /\
  (forall board w', makeStandardBoard w = Ok (board, w') ->
     exists b, heap_boards w' !! board = Some b /\
       length (pieces b) = 32 /\
       NoDup (pieces b) /\
       (exists l, index_get (piece_lists b) "Rook" "white" = Ok l /\
                  length l = 2 /\ NoDup l) /\
       (exists wk bk, white_king b = Some wk /\ black_king b = Some bk /\
                      wk <> bk)).
Proof.
  assert ((exists board0 w0, Board_init 8 8 w = Ok (board0, w0)) ->
    exists w' b,
      makeStandardBoard w = Ok (length (heap_boards w), w') /\
      heap_boards w' !! length (heap_boards w) = Some b /\
      length (pieces b) = 32 /\ NoDup (pieces b) /\
      index_get (piece_lists b) "Rook" "white"
      = Ok [length (heap_pieces w) + 16; length (heap_pieces w) + 18] /\
      white_king b = Some (length (heap_pieces w) + 30) /\
      black_king b = Some (length (heap_pieces w) + 31)) as Hrun.
  { intros (board0 & w0 & Hinit).
    exact (standard_run w (Board_init_convertible _ _ _ Hinit)). }
  split.
  - intros Hinit. destruct (Hrun Hinit) as (w' & b & Hok & _). eauto.
  - intros board w' Hok.
    destruct (Hrun (builder_needs_board _ _ _ Hok))
      as (w1 & b & Hok1 & Hb & Hlen & Hnd & Hidx & Hwk & Hbk).
    rewrite Hok in Hok1. injection Hok1 as -> ->.
    exists b. split; [done|]. split; [done|]. split; [done|]. split.
    + eexists. split; [exact Hidx|]. split; [done|].
      apply NoDup_cons. split; [|apply NoDup_singleton].
      rewrite list_elem_of_singleton. lia.
    + eexists _, _. split; [exact Hwk|]. split; [exact Hbk|]. lia.
Qed.

Lemma makeStandardBoard_indexes_witness :
  exists b,
    heap_boards (exec makeStandardBoard standard_world) !! 1 = Some b /\
    length (pieces b) = 32 /\
    heap_boards (exec makeStandardBoard standard_world) !! 0
    = heap_boards standard_world !! 0.
Proof.
  destruct (makeStandardBoard_indexes standard_world) as [_ H].
  destruct (H 1 (exec makeStandardBoard standard_world))
    as (b & Hb & Hlen & _); [vm_compute; reflexivity|].
  exists b. split; [exact Hb|]. split; [exact Hlen|].
  vm_compute. reflexivity.
Defined.

Lemma endgame_no_color {A} (msg : string) (k : bid -> string * nat -> M (option A))
  (w : World) (r : option A) (w' : World) :
  (board ← Board_init 8 8;
   match @None (string * nat) with
   | None => print msg;; mret None
   | Some c => k board c
   end) w = Ok (r, w') ->
  r = None /\ stdout w' = stdout w ++ [msg].
Proof.
  intros H. destruct (builder_needs_board _ _ _ H) as (board0 & w0 & Hinit).
  rewrite (bind_ok _ _ _ _ _ Hinit) in H.
  destruct (Board_init_inv _ _ _ _ _ Hinit) as (_ & _ & _ & _ & _ & Hout & _).
  unfold mbind, M_bind, mret, M_ret, print in H. injection H as <- <-.
  simpl. by rewrite Hout.
Qed.

(** C9. From any store: [makeTwoRooksEndgameBoard] returns whenever
    [Board()] does; it looks at the first letter of the lowercased
    selector: with w the board it returns holds two white rooks and the
    two kings and nothing else, with b two black rooks and the two
    kings; with any other selector it prints its message and returns
    None. *)
Theorem makeTwoRooksEndgameBoard_selector (rookColor : string) (w : World) :
  ((exists board0 w0, Board_init 8 8 w = Ok (board0, w0)) ->
     exists r w', makeTwoRooksEndgameBoard rookColor w = Ok (r, w')) /\
  (forall r w', makeTwoRooksEndgameBoard rookColor w = Ok (r, w') ->
     (startswith (lower rookColor) "w" = true ->
      exists board b,
        r = Some board /\ heap_boards w' !! board = Some b /\
        length (pieces b) = 4 /\
        count_kind (heap_pieces w') "Rook" "white" (pieces b) = 2 /\
        count_kind (heap_pieces w') "King" "white" (pieces b) = 1 /\
        count_kind (heap_pieces w') "King" "black" (pieces b) = 1) /\
     (startswith (lower rookColor) "w" = false ->
      startswith (lower rookColor) "b" = true ->
      exists board b,
        r = Some board /\ heap_boards w' !! board = Some b /\
        length (pieces b) = 4 /\
        count_kind (heap_pieces w') "Rook" "black" (pieces b) = 2 /\
        count_kind (heap_pieces w') "King" "white" (pieces b) = 1 /\
        count_kind (heap_pieces w') "King" "black" (pieces b) = 1) /\
     (startswith (lower rookColor) "w" = false ->
      startswith (lower rookColor) "b" = false ->
      r = None /\ stdout w' = stdout w ++ [rooks_message])).
Proof.
  destruct (select_color_cases rookColor)
    as [[Hw Hsel]|[(Hw & Hb & Hsel)|(Hw & Hb & Hsel)]].
  - split.
    + intros (board0 & w0 & Hinit).
      destruct (two_rooks_white_run rookColor w Hsel
                  (Board_init_convertible _ _ _ Hinit)) as (w' & b & Hok & _).
      eauto.
    + intros r w' Hok.
      destruct (builder_needs_board _ _ _ Hok) as (board0 & w0 & Hinit).
      destruct (two_rooks_white_run rookColor w Hsel
                  (Board_init_convertible _ _ _ Hinit))
        as (w1 & b & Hok1 & Hbd & Hlen & _ & Hr & _ & Hwk & Hbk).
      rewrite Hok in Hok1. injection Hok1 as -> ->.
      split; [|split]; [|congruence..].
      intros _. eexists _, b. done.
  - split.
    + intros (board0 & w0 & Hinit).
      destruct (two_rooks_black_run rookColor w Hsel
                  (Board_init_convertible _ _ _ Hinit)) as (w' & b & Hok & _).
      eauto.
    + intros r w' Hok.
      destruct (builder_needs_board _ _ _ Hok) as (board0 & w0 & Hinit).
      destruct (two_rooks_black_run rookColor w Hsel
                  (Board_init_convertible _ _ _ Hinit))
        as (w1 & b & Hok1 & Hbd & Hlen & _ & Hr & _ & Hwk & Hbk).
      rewrite Hok in Hok1. injection Hok1 as -> ->.
      split; [|split]; [congruence| |congruence].
      intros _ _. eexists _, b. done.
  - unfold makeTwoRooksEndgameBoard. rewrite Hsel. split.
    + intros (board0 & w0 & Hinit). rewrite (bind_ok _ _ _ _ _ Hinit).
      eexists _, _. reflexivity.
    + intros r w' Hok. split; [|split]; [congruence..|].
      intros _ _. exact (endgame_no_color _ (fun _ _ => mret None) _ _ _ Hok).
Qed.

Lemma makeTwoRooksEndgameBoard_selector_witness :
  (exists board b,
     Some 1 = Some board /\
     heap_boards (exec (makeTwoRooksEndgameBoard "White") standard_world)
       !! board = Some b /\
     length (pieces b) = 4 /\
     count_kind
       (heap_pieces (exec (makeTwoRooksEndgameBoard "White") standard_world))
       "Rook" "white" (pieces b) = 2) /\
  stdout (exec (makeTwoRooksEndgameBoard "purple") standard_world)
  = stdout standard_world ++ [rooks_message].
Proof.
  split.
  - destruct (makeTwoRooksEndgameBoard_selector "White" standard_world)
      as [_ H].
    destruct (H (Some 1)
                (exec (makeTwoRooksEndgameBoard "White") standard_world))
      as [Hw _]; [vm_compute; reflexivity|].
    destruct (Hw eq_refl) as (board & b & Hr & Hb & Hlen & Hrooks & _).
    exists board, b. split; [exact Hr|]. split; [exact Hb|].
    split; [exact Hlen | exact Hrooks].
  - destruct (makeTwoRooksEndgameBoard_selector "purple" standard_world)
      as [_ H].
    destruct (H None
                (exec (makeTwoRooksEndgameBoard "purple") standard_world))
      as (_ & _ & Hn); [vm_compute; reflexivity|].
    apply Hn; reflexivity.
Defined.

(** C4, as amended.  From any store, for a selector whose lowercase form
    starts with w or b: [makeQueenEndgameBoard] returns whenever
    [Board()] does, and the board it returns holds exactly one king of
    each color, at least one queen of the chosen color and no queen of
    the other color. *)
Theorem makeQueenEndgameBoard_content (queenColor : string) (w : World) :
  (startswith (lower queenColor) "w" = true \/
   startswith (lower queenColor) "b" = true) ->
  let chosen :=
    if startswith (lower queenColor) "w" then "white" else "black" in
  let other :=
    if startswith (lower queenColor) "w" then "black" else "white" in
  ((exists board0 w0, Board_init 8 8 w = Ok (board0, w0)) ->
     exists r w', makeQueenEndgameBoard queenColor w = Ok (r, w')) /\
  (forall r w', makeQueenEndgameBoard queenColor w = Ok (r, w') ->
     exists board b,
       r = Some board /\ heap_boards w' !! board = Some b /\
       count_kind (heap_pieces w') "King" "white" (pieces b) = 1 /\
       count_kind (heap_pieces w') "King" "black" (pieces b) = 1 /\
       1 <= count_kind (heap_pieces w') "Queen" chosen (pieces b) /\
       count_kind (heap_pieces w') "Queen" other (pieces b) = 0).
Proof.
  intros Hvalid. cbv zeta.
  destruct (select_color_cases queenColor)
    as [[Hw Hsel]|[(Hw & Hb & Hsel)|(Hw & Hb & Hsel)]].
  - rewrite Hw. split.
    + intros (board0 & w0 & Hinit).
      destruct (queens_white_run queenColor w Hsel
                  (Board_init_convertible _ _ _ Hinit)) as (w' & b & Hok & _).
      eauto.
    + intros r w' Hok.
      destruct (builder_needs_board _ _ _ Hok) as (board0 & w0 & Hinit).
      destruct (queens_white_run queenColor w Hsel
                  (Board_init_convertible _ _ _ Hinit))
        as (w1 & b & Hok1 & Hbd & _ & _ & Hq & Hq' & Hwk & Hbk).
      rewrite Hok in Hok1. injection Hok1 as -> ->.
      eexists _, b. rewrite Hq. repeat split; done || lia.
  - rewrite Hw. split.
    + intros (board0 & w0 & Hinit).
      destruct (queens_black_run queenColor w Hsel
                  (Board_init_convertible _ _ _ Hinit)) as (w' & b & Hok & _).
      eauto.
    + intros r w' Hok.
      destruct (builder_needs_board _ _ _ Hok) as (board0 & w0 & Hinit).
      destruct (queens_black_run queenColor w Hsel
                  (Board_init_convertible _ _ _ Hinit))
        as (w1 & b & Hok1 & Hbd & _ & _ & Hq & Hq' & Hwk & Hbk).
      rewrite Hok in Hok1. injection Hok1 as -> ->.
      eexists _, b. rewrite Hq. repeat split; done || lia.
  - destruct Hvalid; congruence.
Qed.

Lemma makeQueenEndgameBoard_content_witness :
  exists board b,
    Some 1 = Some board /\
    heap_boards (exec (makeQueenEndgameBoard "Black") standard_world)
      !! board = Some b /\
    count_kind (heap_pieces (exec (makeQueenEndgameBoard "Black") standard_world))
      "King" "white" (pieces b) = 1 /\
    count_kind (heap_pieces (exec (makeQueenEndgameBoard "Black") standard_world))
      "King" "black" (pieces b) = 1 /\
    1 <= count_kind
           (heap_pieces (exec (makeQueenEndgameBoard "Black") standard_world))
           "Queen" "black" (pieces b) /\
    count_kind (heap_pieces (exec (makeQueenEndgameBoard "Black") standard_world))
      "Queen" "white" (pieces b) = 0.
Proof.
  destruct (makeQueenEndgameBoard_content "Black" standard_world
              (or_intror eq_refl)) as [_ H].
  apply (H (Some 1) (exec (makeQueenEndgameBoard "Black") standard_world)).
  vm_compute. reflexivity.
Defined.
